(** * uat-orchestrator: routing engine and SSE event interpreter

    A shallow embedding of

    - [ours_aaif_orchestrator/models.py]  (AgentStatus, RoutingRule,
      AgentConfig, RoutingResult),
    - [ours_aaif_orchestrator/agent.py]   (OrchestratorAgent.route,
      route_by_parameter, smart_route),
    - [pipes/aaif_orchestrator_pipe.py]   (Pipe._process_sse_stream,
      _handle_sse_event, _extract_from_result and the helpers they call),

    and, further on, of [OrchestratorAgent.available_agents] and
    [reload_config], the tool name of [_delegate_directly], the field
    constraints of [AgentConfig], [config_loader.load_agents_config], and
    the model id and the non-streaming fallback of the pipe,

    followed by the properties of the specification that concern them and
    by further properties of the code.

    Conventions of the embedding.

    - A Python [str] is a [string], holding its UTF-8 bytes.  UTF-8 is
      self-synchronising, so the substring test [a in b] on code points is
      the substring test on the encodings.
    - A Python [float] confidence is an exact rational [Q]: the decimal
      literals of the source ([0.9], [0.01], [0.09], ...) denote the
      rationals they spell, and binary64 rounding is not modelled.
      Confidences are compared with [Qeq] ([==]).  The range of binary64 is
      modelled: converting an [int] beyond it to [float] raises
      [OverflowError].
    - A Python [dict] that is iterated ([self._agents.items()]) is an
      association list in insertion order.
    - [str.lower] and [re.search] belong to the Python runtime; they are
      parameters of the routing section.
    - A raised exception is the [Raises] outcome of a computation, with
      the class of the exception and, for a validation error, the fields
      that failed. *)

From Stdlib Require Import ZArith QArith Qabs String Ascii List Bool Lia.
From Stdlib Require PrimFloat.
From Stdlib Require Import Sorted Permutation.
Import ListNotations.
Open Scope string_scope.

(** ** Python strings *)

Module Str.

(** [needle in hay] *)
Fixpoint contains (needle hay : string) : bool :=
  prefix needle hay ||
  match hay with
  | EmptyString => false
  | String _ rest => contains needle rest
  end.

(** truth value of a string: [bool(s)] *)
Definition truthy (s : string) : bool :=
  match s with
  | EmptyString => false
  | String _ _ => true
  end.

(** [x in xs] for a list of strings *)
Definition mem (x : string) (xs : list string) : bool :=
  existsb (String.eqb x) xs.

(** [s.startswith(p)], and [s[len(p):]] when it holds *)
Fixpoint strip_prefix (p s : string) : option string :=
  match p, s with
  | EmptyString, _ => Some s
  | String a p', String b s' =>
      if Ascii.eqb a b then strip_prefix p' s' else None
  | String _ _, EmptyString => None
  end.

(** [sep.join(xs)] *)
Fixpoint join (sep : string) (xs : list string) : string :=
  match xs with
  | [] => ""
  | [x] => x
  | x :: rest => x ++ sep ++ join sep rest
  end.

End Str.

(** ** Exceptions *)

(** The exceptions that the embedded code raises.  A
    [pydantic.ValidationError] lists the fields that failed validation, in
    the order of their declaration. *)
Inductive exn : Type :=
| ValidationError (fields : list string)
| OverflowError      (* int too large to convert to float *)
| TypeError
| AttributeError.

Inductive outcome (A : Type) : Type :=
| Returns (a : A)
| Raises (e : exn).
Arguments Returns {A} a.
Arguments Raises {A} e.

(** ** Stable sorting

    [sorted(xs, key=k, reverse=True)] and [xs.sort(key=k, reverse=True)] are
    stable: elements with equal keys keep their relative order.  The result
    of a stable sort is unique, so insertion into a sorted suffix describes
    it. *)

Section StableSort.
Context {A K : Type}.
Variable ltb : K -> K -> bool.
Variable key : A -> K.

Fixpoint insert_desc (x : A) (l : list A) : list A :=
  match l with
  | [] => [x]
  | y :: ys =>
      if ltb (key x) (key y) then y :: insert_desc x ys else x :: y :: ys
  end.

Definition sort_desc (l : list A) : list A :=
  fold_right insert_desc [] l.
End StableSort.

(** ** models.py *)

Inductive AgentStatus : Type :=
| ACTIVE
| INACTIVE
| DEGRADED.

Definition AgentStatus_eqb (a b : AgentStatus) : bool :=
  match a, b with
  | ACTIVE, ACTIVE | INACTIVE, INACTIVE | DEGRADED, DEGRADED => true
  | _, _ => false
  end.

Record RoutingRule : Type := {
  keywords : list string;
  patterns : list string;
  priority : Z
}.

Record AgentConfig : Type := {
  name : string;
  url : string;
  description : string;
  tags : list string;
  routing_rules : RoutingRule;
  owner : string;
  status : AgentStatus
}.

Record RoutingResult : Type := {
  selected_agent : string;
  confidence : Q;
  routing_reason : string;
  fallback_agents : list string
}.

(** [Field(..., ge=0.0, le=1.0)] on [confidence] *)
Definition confidence_in_range (c : Q) : bool :=
  Qle_bool 0 c && Qle_bool c 1.

(** The constructor [RoutingResult(...)]: pydantic validates the fields and
    raises [ValidationError] when the confidence is out of range. *)
Definition new_RoutingResult (selected : string) (conf : Q) (reason : string)
    (fallbacks : list string) : outcome RoutingResult :=
  if confidence_in_range conf then
    Returns {| selected_agent := selected;
               confidence := conf;
               routing_reason := reason;
               fallback_agents := fallbacks |}
  else Raises (ValidationError ["confidence"]).

(** ** mask.core.state.HandoffContext, as far as the router reads it *)

Record HandoffContext : Type := {
  context_data : option (list (string * string))
}.

Fixpoint dict_get {V : Type} (k : string) (d : list (string * V)) : option V :=
  match d with
  | [] => None
  | (k', v) :: rest => if String.eqb k k' then Some v else dict_get k rest
  end.

(** ** agent.py: OrchestratorAgent *)

Record OrchestratorAgent : Type := {
  _agents : list (string * AgentConfig);
  _fallback_agent : string
}.

(** Methods read and may write the object and may raise. *)
Definition method (A : Type) : Type :=
  OrchestratorAgent -> outcome A * OrchestratorAgent.

Definition ret {A} (a : A) : method A := fun self => (Returns a, self).

Definition bind {A B} (m : method A) (f : A -> method B) : method B :=
  fun self =>
    match m self with
    | (Returns a, self') => f a self'
    | (Raises e, self') => (Raises e, self')
    end.

Definition this : method OrchestratorAgent := fun self => (Returns self, self).

Definition lift {A} (o : outcome A) : method A := fun self => (o, self).

Notation "x <- m ;; k" := (bind m (fun x => k))
  (at level 61, m at next level, right associativity).

(** outcome of [re.search(pattern, query, re.IGNORECASE)] *)
Inductive re_outcome : Type :=
| ReMatch
| ReNoMatch
| ReError.     (* re.error: the pattern does not compile *)

(** [min(a, b)] *)
Definition py_min (a b : Q) : Q := if Qle_bool a b then a else b.

(** An [int] that does not convert to [float]: the largest binary64 number
    is 2^1024 - 2^971, and rounding to nearest gives 2^1024, out of range,
    from 2^1024 - 2^970 on. *)
Definition float_overflows (n : Z) : bool :=
  (2 ^ 1024 - 2 ^ 970 <=? Z.abs n)%Z.

(** [n * x] for an [int] [n] and a [float] [x]: [n] is converted to [float]
    first, and Python raises [OverflowError] if it is too large. *)
Definition int_times_float (n : Z) (x : Q) : outcome Q :=
  if float_overflows n then Raises OverflowError
  else Returns (inject_Z n * x).

Definition Qltb (a b : Q) : bool := negb (Qle_bool b a).

Definition Candidate : Type := (string * Q * string)%type.

Definition cand_name (c : Candidate) : string := fst (fst c).
Definition cand_score (c : Candidate) : Q := snd (fst c).
Definition cand_reason (c : Candidate) : string := snd c.

Section Routing.
(** [str.lower()] *)
Variable lower : string -> string.
(** [re.search(pattern, query, re.IGNORECASE)] *)
Variable re_search : string -> string -> re_outcome.

(** [0.9 + min(rules.priority * 0.01, 0.09)] *)
Definition keyword_score (p : Z) : outcome Q :=
  match int_times_float p 0.01 with
  | Returns bonus => Returns (0.9 + py_min bonus 0.09)
  | Raises e => Raises e
  end.

(** [0.8 + min(rules.priority * 0.01, 0.09)] *)
Definition pattern_score (p : Z) : outcome Q :=
  match int_times_float p 0.01 with
  | Returns bonus => Returns (0.8 + py_min bonus 0.09)
  | Raises e => Raises e
  end.

(** the keyword loop of [route]: the first keyword whose lowercase form
    occurs in the lowercased query *)
Fixpoint first_keyword (query_lower : string) (kws : list string)
    : option string :=
  match kws with
  | [] => None
  | keyword :: rest =>
      if Str.contains (lower keyword) query_lower then Some keyword
      else first_keyword query_lower rest
  end.

(** the pattern loop of [route]: the first pattern that matches the
    original query; a pattern that raises [re.error] is skipped *)
Fixpoint first_pattern (query : string) (pats : list string)
    : option string :=
  match pats with
  | [] => None
  | pattern :: rest =>
      match re_search pattern query with
      | ReMatch => Some pattern
      | ReNoMatch | ReError => first_pattern query rest
      end
  end.

(** one iteration of [for name, config in sorted_agents]: the candidates
    it appends, unless the score raises *)
Definition agent_candidates (query : string) (item : string * AgentConfig)
    : outcome (list Candidate) :=
  let '(name, config) := item in
  if negb (AgentStatus_eqb (status config) ACTIVE) then Returns []
  else
    let rules := routing_rules config in
    match first_keyword (lower query) (keywords rules) with
    | Some keyword =>
        match keyword_score (priority rules) with
        | Returns score =>
            Returns [(name, score, "keyword_match:" ++ keyword)]
        | Raises e => Raises e
        end
    | None =>
        match first_pattern query (patterns rules) with
        | Some pattern =>
            match pattern_score (priority rules) with
            | Returns score =>
                Returns [(name, score, "pattern_match:" ++ pattern)]
            | Raises e => Raises e
            end
        | None => Returns []
        end
    end.

(** [for name, config in sorted_agents: ...]: the candidates appended by
    the iterations in turn; an exception ends the loop *)
Fixpoint collect_candidates (query : string)
    (items : list (string * AgentConfig)) : outcome (list Candidate) :=
  match items with
  | [] => Returns []
  | item :: rest =>
      match agent_candidates query item with
      | Returns appended =>
          match collect_candidates query rest with
          | Returns more => Returns (appended ++ more)%list
          | Raises e => Raises e
          end
      | Raises e => Raises e
      end
  end.

Definition sorted_agents (agents : list (string * AgentConfig))
    : list (string * AgentConfig) :=
  sort_desc Z.ltb (fun x => priority (routing_rules (snd x))) agents.

(** [candidates] after [candidates.sort(key=lambda x: x[1], reverse=True)] *)
Definition ranked_candidates (agents : list (string * AgentConfig))
    (query : string) : outcome (list Candidate) :=
  match collect_candidates query (sorted_agents agents) with
  | Returns candidates => Returns (sort_desc Qltb cand_score candidates)
  | Raises e => Raises e
  end.

Definition route (query : string) : method RoutingResult :=
  self <- this ;;
  candidates <- lift (ranked_candidates (_agents self) query) ;;
  match candidates with
  | (selected, conf, reason) :: rest =>
      let fallbacks := map cand_name (firstn 2 rest) in
      let fallbacks :=
        if Str.truthy (_fallback_agent self)
           && negb (Str.mem (_fallback_agent self) fallbacks)
        then (fallbacks ++ [_fallback_agent self])%list
        else fallbacks in
      lift (new_RoutingResult selected conf reason fallbacks)
  | [] =>
      lift (new_RoutingResult (_fallback_agent self) 0.5
              "no_match:fallback" [])
  end.

Definition route_by_parameter (handoff_context : option HandoffContext)
    : method (option RoutingResult) :=
  self <- this ;;
  match handoff_context with
  | None => ret None
  | Some hc =>
      let context_data :=
        match context_data hc with Some d => d | None => [] end in
      match dict_get "target_agent" context_data with
      | None => ret None
      | Some target_agent =>
          if negb (Str.truthy target_agent) then ret None
          else
            match dict_get target_agent (_agents self) with
            | None => ret None
            | Some agent_config =>
                if negb (AgentStatus_eqb (status agent_config) ACTIVE)
                then ret None
                else
                  r <- lift (new_RoutingResult target_agent 1.0
                               "parameter:target_agent"
                               (if Str.truthy (_fallback_agent self)
                                then [_fallback_agent self] else [])) ;;
                  ret (Some r)
            end
      end
  end.

Definition smart_route (query : string)
    (handoff_context : option HandoffContext) : method RoutingResult :=
  param_result <- route_by_parameter handoff_context ;;
  match param_result with
  | Some r => ret r
  | None => route query
  end.

End Routing.

(** ** The score in binary64 arithmetic

    The score of [route] as Python computes it, in IEEE 754 binary64, to
    compare with the rational model at the inputs of the scenarios.  [p] is
    the priority converted to a float, as [rules.priority * 0.01] does. *)

Module Binary64.
Import PrimFloat.
#[local] Set Warnings "-inexact-float".

Definition py_min (a b : float) : float := if ltb b a then b else a.

Definition keyword_score (p : float) : float :=
  (0.9 + py_min (p * 0.01) 0.09)%float.

End Binary64.

(** ** pipes/aaif_orchestrator_pipe.py *)

Module Pipe.

(** *** The JSON objects the pipe reads

    [json.loads] yields dictionaries; each record below lists the keys the
    pipe reads from one kind of dictionary, [None] standing for an absent
    key. *)

(** [part["metadata"]].  Tool input values are kept by their [repr], the
    duration by its [str]. *)
Record Metadata : Type := {
  event_type : option string;
  is_propagated : option bool;
  source_agent : option string;
  tool_name : option string;
  input : option (list (string * string));
  duration_ms : option string;
  agent_name : option string
}.

Record PartFields : Type := {
  text : option string;
  metadata : option Metadata
}.

(** value found under [part["root"]] *)
Inductive Root : Type :=
| RootDict (fields : PartFields)
| RootOther.                       (* not a dict *)

Inductive Part : Type :=
| NotADict
| PartDict (kind : option string) (root : option Root) (fields : PartFields).

Record Message : Type := { parts : list Part }.

Record Status : Type := {
  state : option string;
  message : option Message          (* [None]: absent or empty *)
}.

Record Artifact : Type := { artifact_parts : list Part }.

(** An A2A object: the SSE payload itself or its JSON-RPC ["result"]. *)
Record Payload : Type := {
  payload_kind : option string;     (* "kind" *)
  status : option Status;
  agentName : option string;
  taskId : option string;
  artifact : option Artifact;
  toolName : option string;
  payload_parts : list Part;        (* "parts" *)
  id : option string;
  artifacts : list Artifact
}.

Record ErrorObject : Type := { error_message : option string }.

Record Data : Type := {
  result : option Payload;
  error : option ErrorObject;
  event : Payload                   (* the remaining top-level keys *)
}.

(** A line of [response.iter_lines()]. *)
Inductive SseLine : Type :=
| EmptyLine                         (* [if not line: continue] *)
| OtherLine                         (* does not start with "data:" *)
| DataLine (payload : option Data). (* [None]: blank payload or JSONDecodeError *)

(** *** Request state: the [agent_tree] dictionary built by [pipe] *)

Record AgentInfo : Type := {
  agent_state : string;             (* "state" *)
  tools_called : list string
}.

Record TrajectoryEvent : Type := {
  traj_text : string;               (* "text" *)
  traj_event_type : string;         (* "event_type" *)
  traj_metadata : option Metadata   (* "metadata" *)
}.

Record AgentTree : Type := {
  tree_root : string;               (* "root" *)
  agents : list (string * AgentInfo);
  current_path : list string;
  has_status : bool;
  answer_started : bool;
  trajectory : list TrajectoryEvent
}.

(** What a request sends to its caller, in order: the strings yielded by the
    generators, labelled by the [yield] that produced them, and the calls of
    the event emitter. *)
Inductive Output : Type :=
| EmitStatus (description : string) (done : bool)
| YieldTrajectory (section : string)
| YieldText (chunk : string)
| YieldError (chunk : string).

Definition or_default {A} (o : option A) (d : A) : A :=
  match o with Some a => a | None => d end.

(** truth value of an optional string *)
Definition text_truthy (t : option string) : bool :=
  match t with Some s => Str.truthy s | None => false end.

(** [d[k] = v] on an insertion-ordered dict *)
Fixpoint dict_set {V : Type} (k : string) (v : V) (d : list (string * V))
    : list (string * V) :=
  match d with
  | [] => [(k, v)]
  | (k', v') :: rest =>
      if String.eqb k k' then (k, v) :: rest else (k', v') :: dict_set k v rest
  end.

Definition _THINKING_EVENT_TYPES : list string :=
  ["agent_start"; "llm_thinking"; "tool_decision"; "tool_start"; "tool_end";
   "sub_agent_status"].

Definition _HIDDEN_EVENT_TYPES : list string := ["agent_end"].

(** An empty [metadata] dict has no "event_type" key, so the guard
    [if not metadata: return False] only matters for [None] here. *)
Definition _is_thinking_event (metadata : option Metadata) : bool :=
  match metadata with
  | None => false
  | Some m =>
      let event_type := or_default (event_type m) "" in
      if or_default (is_propagated m) false
      then Str.mem event_type _THINKING_EVENT_TYPES
      else Str.mem event_type _THINKING_EVENT_TYPES
  end.

Definition _is_hidden_event (metadata : option Metadata) : bool :=
  match metadata with
  | None => false
  | Some m => Str.mem (or_default (event_type m) "") _HIDDEN_EVENT_TYPES
  end.

Definition _get_part_info (part : Part) : option string * option Metadata :=
  match part with
  | NotADict => (None, None)
  | PartDict kind root fields =>
      if match kind with Some k => String.eqb k "text" | None => false end
      then (text fields, metadata fields)
      else
        match root with
        | Some (RootDict r) => (text r, metadata r)
        | Some RootOther => (None, None)
        | None => (text fields, metadata fields)
        end
  end.

Definition _get_part_text (part : Part) : option string :=
  fst (_get_part_info part).

(** [for part in parts: text = self._get_part_text(part); if text: yield text] *)
Definition yield_part_texts (ps : list Part) : list Output :=
  flat_map
    (fun part =>
       match _get_part_text part with
       | Some t => if Str.truthy t then [YieldText t] else []
       | None => []
       end) ps.

(** *** Rendering the trajectory *)

Definition newline : string := String (Ascii.ascii_of_nat 10) "".

(** [for prefix in prefixes: if text.startswith(prefix): return text[len(prefix):]] *)
Fixpoint strip_first_prefix (prefixes : list string) (text : string) : string :=
  match prefixes with
  | [] => text
  | p :: rest =>
      match Str.strip_prefix p text with
      | Some t => t
      | None => strip_first_prefix rest text
      end
  end.

Definition _strip_leading_emoji (text : string) : string :=
  if negb (Str.truthy text) then text
  else
    strip_first_prefix
      ["🚀 "; "🤔 "; "💡 "; "🔧 "; "✅ "; "📤 "; "📋 "] text.

Definition _strip_agent_prefix (text agent_name : string) : string :=
  if negb (Str.truthy text) || negb (Str.truthy agent_name) then text
  else
    match Str.strip_prefix ("[" ++ agent_name ++ "] ") text with
    | Some t => t
    | None => text
    end.

(** [d.get(key)] on a dictionary [d] that may itself be absent, as in
    [data.get("status", {}).get("state")] *)
Definition md_get {R A} (field : R -> option A) (d : option R) : option A :=
  match d with Some m => field m | None => None end.

(** One iteration of [for event in trajectory] in [_render_trajectory]: the
    item it appends to [items]. *)
Definition render_item (ev : TrajectoryEvent) : string :=
  let text := traj_text ev in
  let event_type := traj_event_type ev in
  let metadata := traj_metadata ev in
  let source_agent := md_get source_agent metadata in
  let is_propagated := or_default (md_get is_propagated metadata) false in
  let src := or_default source_agent "" in
  let agent_prefix :=
    if text_truthy source_agent then "[" ++ src ++ "] " else "" in
  if String.eqb event_type "tool_start" then
    let tool_name := or_default (md_get tool_name metadata) "unknown" in
    match md_get input metadata with
    | Some ((k, v) :: more) =>
        let input_preview :=
          Str.join ", "
            (map (fun kv => fst kv ++ "=" ++ snd kv) (firstn 2 ((k, v) :: more))) in
        "🔧 " ++ agent_prefix ++ "`" ++ tool_name ++ "(" ++ input_preview ++ ")`"
    | Some [] | None =>
        "🔧 " ++ agent_prefix ++ "`" ++ tool_name ++ "()`"
    end
  else if String.eqb event_type "tool_end" then
    let tool_name := or_default (md_get tool_name metadata) "unknown" in
    let duration_ms := or_default (md_get duration_ms metadata) "0" in
    "✅ " ++ agent_prefix ++ "`" ++ tool_name ++ "` (" ++ duration_ms ++ "ms)"
  else if String.eqb event_type "agent_start" then
    let agent_name := or_default (md_get agent_name metadata) "" in
    if is_propagated && text_truthy source_agent then
      "🚀 [" ++ src ++ "] Agent started"
    else if Str.contains "Delegating" text || Str.contains "📤" text then
      "📤 " ++ _strip_leading_emoji text
    else if Str.truthy agent_name then
      "🚀 " ++ agent_name ++ " started"
    else
      "🚀 " ++ _strip_leading_emoji text
  else if String.eqb event_type "llm_thinking" then
    if is_propagated && text_truthy source_agent then
      "🤔 [" ++ src ++ "] "
        ++ _strip_leading_emoji (_strip_agent_prefix text src)
    else "🤔 " ++ _strip_leading_emoji text
  else if String.eqb event_type "tool_decision" then
    if is_propagated && text_truthy source_agent then
      "💡 [" ++ src ++ "] "
        ++ _strip_leading_emoji (_strip_agent_prefix text src)
    else "💡 " ++ _strip_leading_emoji text
  else if String.eqb event_type "sub_agent_status" then
    "📋 " ++ _strip_leading_emoji text
  else
    "• " ++ text.

Section Request.
(** whether [pipe] passes an event emitter on ([None] for system requests) *)
Variable event_emitter : bool.
(** the text of [f"{duration:.1f}"], [duration] being the wall-clock time
    elapsed since [start_time] when the trajectory is rendered *)
Variable duration_1f : string.

Definition _emit_status (description : string) (done : bool) : list Output :=
  if event_emitter then [EmitStatus description done] else [].

Definition _render_trajectory (agent_tree : AgentTree) : string :=
  match trajectory agent_tree with
  | [] => ""
  | evs =>
      let items := map render_item evs in
      let summary :=
        "<summary>🔍 Agent Trajectory (" ++ duration_1f ++ "s)</summary>" in
      let lines :=
        (["<details>"; summary; ""]
         ++ map (String.append "- ") items
         ++ [""; "</details>"; ""])%list in
      Str.join newline lines
  end.

(** *** Updates of [agent_tree] *)

Definition set_agents (ags : list (string * AgentInfo)) (t : AgentTree)
    : AgentTree :=
  {| tree_root := tree_root t; agents := ags;
     current_path := current_path t; has_status := has_status t;
     answer_started := answer_started t; trajectory := trajectory t |}.

Definition set_has_status (b : bool) (t : AgentTree) : AgentTree :=
  {| tree_root := tree_root t; agents := agents t;
     current_path := current_path t; has_status := b;
     answer_started := answer_started t; trajectory := trajectory t |}.

Definition set_answer_started (b : bool) (t : AgentTree) : AgentTree :=
  {| tree_root := tree_root t; agents := agents t;
     current_path := current_path t; has_status := has_status t;
     answer_started := b; trajectory := trajectory t |}.

Definition trajectory_append (ev : TrajectoryEvent) (t : AgentTree)
    : AgentTree :=
  {| tree_root := tree_root t; agents := agents t;
     current_path := current_path t; has_status := has_status t;
     answer_started := answer_started t;
     trajectory := (trajectory t ++ [ev])%list |}.

(** [if agent_name in agents: agents[agent_name]["tools_called"].append(tool)] *)
Definition tools_called_append (agent_name tool : string) (t : AgentTree)
    : AgentTree :=
  match dict_get agent_name (agents t) with
  | Some info =>
      set_agents
        (dict_set agent_name
           {| agent_state := agent_state info;
              tools_called := (tools_called info ++ [tool])%list |}
           (agents t)) t
  | None => t
  end.

(** *** The body of [for part in parts] for a status message

    [_handle_sse_event] and [_extract_from_result] classify the parts of a
    status message alike; only the former records the tool of a
    [tool_start] part, against [tool_owner = Some agent_name]. *)
Definition status_part (tool_owner : option string) (t : AgentTree)
    (part : Part) : AgentTree * list Output :=
  let '(text, metadata) := _get_part_info part in
  match text with
  | None => (t, [])
  | Some text =>
      if negb (Str.truthy text) then (t, [])
      else if _is_hidden_event metadata then (t, [])
      else if _is_thinking_event metadata then
        let t := set_has_status true t in
        let t :=
          trajectory_append
            {| traj_text := text;
               traj_event_type := or_default (md_get event_type metadata) "";
               traj_metadata := metadata |} t in
        let t :=
          match tool_owner with
          | Some agent_name =>
              if String.eqb (or_default (md_get event_type metadata) "")
                   "tool_start"
              then tools_called_append agent_name
                     (or_default (md_get tool_name metadata) "unknown") t
              else t
          | None => t
          end in
        (t, _emit_status text false)
      else (t, [YieldText text])
  end.

Fixpoint status_parts (tool_owner : option string) (t : AgentTree)
    (ps : list Part) : AgentTree * list Output :=
  match ps with
  | [] => (t, [])
  | part :: rest =>
      let '(t1, out1) := status_part tool_owner t part in
      let '(t2, out2) := status_parts tool_owner t1 rest in
      (t2, (out1 ++ out2)%list)
  end.

(** [if agent_tree["has_status"] and not agent_tree["answer_started"]: ...] *)
Definition answer_starts (t : AgentTree) : AgentTree * list Output :=
  if has_status t && negb (answer_started t) then
    let t := set_answer_started true t in
    let trajectory_section := _render_trajectory t in
    (t, (_emit_status "Completed" true
         ++ (if Str.truthy trajectory_section
             then [YieldTrajectory trajectory_section] else []))%list)
  else (t, []).

Definition message_parts (m : option Message) : list Part :=
  match m with Some msg => parts msg | None => [] end.

Definition kind_is (k : string) (p : Payload) : bool :=
  match payload_kind p with Some k' => String.eqb k' k | None => false end.

Definition _extract_from_result (result : Payload) (t : AgentTree)
    : AgentTree * list Output :=
  if kind_is "message" result then
    (t, yield_part_texts (payload_parts result))
  else if kind_is "task" result then
    let task_id := or_default (id result) "unknown" in
    let state := or_default (md_get state (status result)) "" in
    let t :=
      set_agents
        (dict_set task_id {| agent_state := state; tools_called := [] |}
           (agents t)) t in
    let from_artifacts :=
      flat_map (fun a => yield_part_texts (artifact_parts a))
        (artifacts result) in
    let from_status :=
      match artifacts result with
      | [] => yield_part_texts (message_parts (md_get message (status result)))
      | _ :: _ => []
      end in
    (t, (from_artifacts ++ from_status)%list)
  else if kind_is "status-update" result then
    status_parts None t (message_parts (md_get message (status result)))
  else if kind_is "artifact-update" result then
    let '(t, out) := answer_starts t in
    (t, (out ++ yield_part_texts
                  (match artifact result with
                   | Some a => artifact_parts a
                   | None => []
                   end))%list)
  else (t, []).

Definition _handle_sse_event (data : Data) (t : AgentTree)
    : AgentTree * list Output :=
  match result data with
  | Some r => _extract_from_result r t
  | None =>
      match error data with
      | Some e =>
          (t, [YieldError
                 ("**Error:** " ++ or_default (error_message e) "Unknown error")])
      | None =>
          let data := event data in
          if kind_is "status-update" data then
            let state := or_default (md_get state (status data)) "" in
            let agent_name :=
              if text_truthy (agentName data)
              then or_default (agentName data) ""
              else or_default (taskId data) "unknown" in
            let t :=
              match dict_get agent_name (agents t) with
              | None =>
                  set_agents
                    (dict_set agent_name
                       {| agent_state := state; tools_called := [] |}
                       (agents t)) t
              | Some info =>
                  set_agents
                    (dict_set agent_name
                       {| agent_state := state;
                          tools_called := tools_called info |}
                       (agents t)) t
              end in
            status_parts (Some agent_name) t
              (message_parts (md_get message (status data)))
          else if kind_is "artifact-update" data then
            let '(t, out) := answer_starts t in
            (t, (out ++ yield_part_texts
                          (match artifact data with
                           | Some a => artifact_parts a
                           | None => []
                           end))%list)
          else if kind_is "tool-call" data then
            (tools_called_append (or_default (agentName data) "unknown")
               (or_default (toolName data) "unknown") t, [])
          else if kind_is "message" data then
            (t, yield_part_texts (payload_parts data))
          else (t, [])
      end
  end.

(** The body of [for line in response.iter_lines(...)]. *)
Definition handle_line (line : SseLine) (t : AgentTree)
    : AgentTree * list Output :=
  match line with
  | EmptyLine | OtherLine | DataLine None => (t, [])
  | DataLine (Some data) => _handle_sse_event data t
  end.

(** [_process_sse_stream]: every line of the response is read in turn. *)
Fixpoint _process_sse_stream (lines : list SseLine) (t : AgentTree)
    : AgentTree * list Output :=
  match lines with
  | [] => (t, [])
  | line :: rest =>
      let '(t1, out1) := handle_line line t in
      let '(t2, out2) := _process_sse_stream rest t1 in
      (t2, (out1 ++ out2)%list)
  end.

(** The value of [agent_tree["answer_started"]] after each line. *)
Fixpoint answer_trace (lines : list SseLine) (t : AgentTree) : list bool :=
  match lines with
  | [] => []
  | line :: rest =>
      let t1 := fst (handle_line line t) in
      answer_started t1 :: answer_trace rest t1
  end.

End Request.

(** The [agent_tree] that [pipe] creates for a request. *)
Definition new_agent_tree (model_id : string) : AgentTree :=
  {| tree_root := if String.eqb model_id "auto" then "orchestrator" else model_id;
     agents := [];
     current_path := [];
     has_status := false;
     answer_started := false;
     trajectory := [] |}.

(** *** Notions used by the properties *)

(** The dictionary whose ["kind"] decides how a line is handled: the
    JSON-RPC result if there is one, the event itself if there is neither a
    result nor an error. *)
Definition handled_payload (line : SseLine) : option Payload :=
  match line with
  | DataLine (Some data) =>
      match result data, error data with
      | Some r, _ => Some r
      | None, Some _ => None
      | None, None => Some (event data)
      end
  | _ => None
  end.

Definition is_status_update (line : SseLine) : bool :=
  match handled_payload line with
  | Some p => kind_is "status-update" p
  | None => false
  end.

Definition is_artifact_update (line : SseLine) : bool :=
  match handled_payload line with
  | Some p => kind_is "artifact-update" p
  | None => false
  end.

(** An error event: an ["error"] and no ["result"]. *)
Definition is_error_event (data : Data) : bool :=
  match result data, error data with
  | None, Some _ => true
  | _, _ => false
  end.

(** A part with text that is classified as a thinking event. *)
Definition thinking_part (part : Part) : bool :=
  let '(text, metadata) := _get_part_info part in
  text_truthy text
  && negb (_is_hidden_event metadata)
  && _is_thinking_event metadata.

Definition status_parts_of (line : SseLine) : list Part :=
  match handled_payload line with
  | Some p => message_parts (md_get message (status p))
  | None => []
  end.

(** A status event with a part classified as a thinking event. *)
Definition is_thinking_status (line : SseLine) : bool :=
  is_status_update line && existsb thinking_part (status_parts_of line).

Definition artifact_parts_of (line : SseLine) : list Part :=
  match handled_payload line with
  | Some p =>
      match artifact p with Some a => artifact_parts a | None => [] end
  | None => []
  end.

Definition is_message (line : SseLine) : bool :=
  match handled_payload line with
  | Some p => kind_is "message" p
  | None => false
  end.

(** [data.get("parts", [])] of the dictionary a line is handled by. *)
Definition message_parts_of (line : SseLine) : list Part :=
  match handled_payload line with
  | Some p => payload_parts p
  | None => []
  end.

(** Some thinking status event is followed by an artifact-update event. *)
Fixpoint artifact_after_thinking (seen : bool) (lines : list SseLine) : bool :=
  match lines with
  | [] => false
  | line :: rest =>
      (seen && is_artifact_update line)
      || artifact_after_thinking (seen || is_thinking_status line) rest
  end.

(** Whenever a status has been shown, the trajectory has an entry. *)
Definition trajectory_recorded (t : AgentTree) : bool :=
  negb (has_status t)
  || match trajectory t with [] => false | _ :: _ => true end.

Definition is_trajectory (o : Output) : bool :=
  match o with YieldTrajectory _ => true | _ => false end.

Definition count_trajectory (out : list Output) : nat :=
  length (filter is_trajectory out).

(** The effect on the request state of handling a dictionary [p], by its
    ["kind"]: [t] and [t'] are the state before and after, [out] is what is
    sent.  It holds of [_extract_from_result] and of the event branches of
    [_handle_sse_event], which differ in the agent bookkeeping only. *)
Definition payload_spec (event_emitter : bool) (duration_1f : string)
    (p : Payload) (t t' : AgentTree) (out : list Output) : Prop :=
  (kind_is "artifact-update" p = false ->
   answer_started t' = answer_started t /\ count_trajectory out = 0%nat) /\
  has_status t' =
    has_status t
    || (kind_is "status-update" p
        && existsb thinking_part (message_parts (md_get message (status p)))) /\
  (trajectory_recorded t = true -> trajectory_recorded t' = true) /\
  (kind_is "artifact-update" p = true ->
   (t', out) =
     (fst (answer_starts event_emitter duration_1f t),
      (snd (answer_starts event_emitter duration_1f t)
       ++ yield_part_texts
            (match artifact p with Some a => artifact_parts a | None => [] end))%list)).

(** A part whose metadata has the event type "agent_end". *)
Definition agent_end_part (part : Part) : bool :=
  match snd (_get_part_info part) with
  | Some m =>
      match event_type m with
      | Some et => String.eqb et "agent_end"
      | None => false
      end
  | None => false
  end.

(** A status-update dictionary without the "agent_end" parts of its status
    message; any other dictionary as it is. *)
Definition without_agent_end (p : Payload) : Payload :=
  if kind_is "status-update" p then
    {| payload_kind := payload_kind p;
       status :=
         match status p with
         | Some st =>
             Some {| state := state st;
                     message :=
                       match message st with
                       | Some m =>
                           Some {| parts :=
                                     filter (fun part => negb (agent_end_part part))
                                       (parts m) |}
                       | None => None
                       end |}
         | None => None
         end;
       agentName := agentName p;
       taskId := taskId p;
       artifact := artifact p;
       toolName := toolName p;
       payload_parts := payload_parts p;
       id := id p;
       artifacts := artifacts p |}
  else p.

Definition hide_agent_end (line : SseLine) : SseLine :=
  match line with
  | DataLine (Some data) =>
      DataLine
        (Some {| result := option_map without_agent_end (result data);
                 error := error data;
                 event := without_agent_end (event data) |})
  | _ => line
  end.

(** *** Scenarios *)

Definition meta (et : string) : option Metadata :=
  Some {| event_type := Some et; is_propagated := None;
          source_agent := None; tool_name := None; input := None;
          duration_ms := None; agent_name := None |}.

Definition text_part (txt : string) (md : option Metadata) : Part :=
  PartDict (Some "text") None {| text := Some txt; metadata := md |}.

Definition event_line (p : Payload) : SseLine :=
  DataLine (Some {| result := None; error := None; event := p |}).

Definition status_event (ps : list Part) : SseLine :=
  event_line
    {| payload_kind := Some "status-update";
       status := Some {| state := Some "working";
                         message := Some {| parts := ps |} |};
       agentName := None; taskId := Some "task-1"; artifact := None;
       toolName := None; payload_parts := []; id := None; artifacts := [] |}.

Definition artifact_event (ps : list Part) : SseLine :=
  event_line
    {| payload_kind := Some "artifact-update"; status := None;
       agentName := None; taskId := Some "task-1";
       artifact := Some {| artifact_parts := ps |};
       toolName := None; payload_parts := []; id := None; artifacts := [] |}.

Definition message_event (ps : list Part) : SseLine :=
  event_line
    {| payload_kind := Some "message"; status := None;
       agentName := None; taskId := None; artifact := None;
       toolName := None; payload_parts := ps; id := None; artifacts := [] |}.

Definition error_data (msg : string) : Data :=
  {| result := None;
     error := Some {| error_message := Some msg |};
     event := {| payload_kind := None; status := None;
                 agentName := None; taskId := None; artifact := None;
                 toolName := None; payload_parts := []; id := None;
                 artifacts := [] |} |}.

Definition error_event (msg : string) : SseLine :=
  DataLine (Some (error_data msg)).

(** Scenario D of the specification. *)
Definition scenario_D : list SseLine :=
  [status_event [text_part "Analyzing..." (meta "llm_thinking")];
   status_event
     [text_part "Calling search"
        (Some {| event_type := Some "tool_start"; is_propagated := None;
                 source_agent := None; tool_name := Some "search";
                 input := None; duration_ms := None; agent_name := None |})];
   artifact_event [text_part "answer" None]].

(** An artifact arrives before the first thinking event. *)
Definition early_artifact : list SseLine :=
  [artifact_event [text_part "early" None];
   status_event [text_part "Analyzing..." (meta "llm_thinking")];
   artifact_event [text_part "answer" None]].

End Pipe.

(** * Routing: notions used by the properties *)

(** The override: [handoff_context.context_data.target_agent]. *)
Definition override_of (handoff_context : option HandoffContext)
    : option string :=
  match handoff_context with
  | None => None
  | Some hc =>
      dict_get "target_agent"
        (match context_data hc with Some d => d | None => [] end)
  end.

(** Some keyword of the rules occurs in the query, case-insensitively. *)
Definition keyword_matches (lower : string -> string) (query : string)
    (rules : RoutingRule) : bool :=
  existsb (fun k => Str.contains (lower k) (lower query)) (keywords rules).

(** Some pattern of the rules matches the query. *)
Definition pattern_matches (re_search : string -> string -> re_outcome)
    (query : string) (rules : RoutingRule) : bool :=
  existsb
    (fun p => match re_search p query with ReMatch => true | _ => false end)
    (patterns rules).

(** No active expert of the catalog matches the query. *)
Definition no_active_match (lower : string -> string)
    (re_search : string -> string -> re_outcome)
    (agents : list (string * AgentConfig)) (query : string) : bool :=
  forallb
    (fun item =>
       negb (AgentStatus_eqb (status (snd item)) ACTIVE)
       || (negb (keyword_matches lower query (routing_rules (snd item)))
           && negb (pattern_matches re_search query (routing_rules (snd item)))))
    agents.

(** The override names an expert that is missing from the catalog or
    present with a status other than active. *)
Definition override_unusable (target : string)
    (agents : list (string * AgentConfig)) : bool :=
  match dict_get target agents with
  | None => true
  | Some cfg => negb (AgentStatus_eqb (status cfg) ACTIVE)
  end.

(** Every expert of the catalog has a non-empty name
    ([AgentConfig.name] has [min_length=1]). *)
Definition names_nonempty (agents : list (string * AgentConfig)) : bool :=
  forallb (fun item => Str.truthy (fst item)) agents.

(** Every active expert has a priority of at least [z]. *)
Definition active_priorities_ge (z : Z)
    (agents : list (string * AgentConfig)) : bool :=
  forallb
    (fun item =>
       negb (AgentStatus_eqb (status (snd item)) ACTIVE)
       || (z <=? priority (routing_rules (snd item)))%Z)
    agents.

(** The priority of every active expert converts to [float]. *)
Definition active_priorities_convert
    (agents : list (string * AgentConfig)) : bool :=
  forallb
    (fun item =>
       negb (AgentStatus_eqb (status (snd item)) ACTIVE)
       || negb (float_overflows (priority (routing_rules (snd item)))))
    agents.

(** The scores of [route] at a priority that converts to [float]. *)
Definition keyword_value (p : Z) : Q := 0.9 + py_min (inject_Z p * 0.01) 0.09.
Definition pattern_value (p : Z) : Q := 0.8 + py_min (inject_Z p * 0.01) 0.09.

Section Ranking.
Variable lower : string -> string.
Variable re_search : string -> string -> re_outcome.

(** The candidate that an expert stands for, if it is active and matches
    the query: the one of its first matching keyword, or, if no keyword
    matches, of its first matching pattern. *)
Definition expert_match (query : string) (item : string * AgentConfig)
    : list Candidate :=
  let '(name, config) := item in
  if negb (AgentStatus_eqb (status config) ACTIVE) then []
  else
    let rules := routing_rules config in
    match first_keyword lower (lower query) (keywords rules) with
    | Some keyword =>
        [(name, keyword_value (priority rules), "keyword_match:" ++ keyword)]
    | None =>
        match first_pattern re_search query (patterns rules) with
        | Some pattern =>
            [(name, pattern_value (priority rules),
              "pattern_match:" ++ pattern)]
        | None => []
        end
    end.

(** The expert is active and matches the query, and its priority does not
    convert to [float]. *)
Definition score_overflows (query : string) (item : string * AgentConfig)
    : bool :=
  match expert_match query item with
  | [] => false
  | _ :: _ => float_overflows (priority (routing_rules (snd item)))
  end.

(** Some expert of the catalog is active and matches the query, and its
    priority does not convert to [float]. *)
Definition some_score_overflows (agents : list (string * AgentConfig))
    (query : string) : bool :=
  existsb (score_overflows query) agents.

(** The candidates of the catalog, by descending score. *)
Definition ranking (agents : list (string * AgentConfig)) (query : string)
    : list Candidate :=
  sort_desc Qltb cand_score
    (flat_map (expert_match query) (sorted_agents agents)).

(** What [route] makes of the ranked candidates. *)
Definition selection (self : OrchestratorAgent) (candidates : list Candidate)
    : outcome RoutingResult :=
  match candidates with
  | (selected, conf, reason) :: rest =>
      let fallbacks := map cand_name (firstn 2 rest) in
      let fallbacks :=
        if Str.truthy (_fallback_agent self)
           && negb (Str.mem (_fallback_agent self) fallbacks)
        then (fallbacks ++ [_fallback_agent self])%list
        else fallbacks in
      new_RoutingResult selected conf reason fallbacks
  | [] =>
      new_RoutingResult (_fallback_agent self) 0.5 "no_match:fallback" []
  end.
End Ranking.

(** ** Scenarios *)

(** [str.lower()] on strings whose cased letters are all ASCII. *)
Definition ascii_lower_char (c : ascii) : ascii :=
  let n := nat_of_ascii c in
  if ((65 <=? n) && (n <=? 90))%nat then ascii_of_nat (n + 32) else c.

Fixpoint ascii_lower (s : string) : string :=
  match s with
  | EmptyString => EmptyString
  | String c rest => String (ascii_lower_char c) (ascii_lower rest)
  end.

(** [re.search] for a catalog without patterns. *)
Definition never_matches (pattern query : string) : re_outcome := ReNoMatch.

Definition expert (n : string) (kws : list string) (prio : Z)
    (st : AgentStatus) : string * AgentConfig :=
  (n, {| name := n;
         url := "http://" ++ n ++ ":10001";
         description := n;
         tags := [];
         routing_rules := {| keywords := kws; patterns := []; priority := prio |};
         owner := "platform";
         status := st |}).

Definition override (target : string) : option HandoffContext :=
  Some {| context_data := Some [("target_agent", target)] |}.

(** Scenario A of the specification. *)
Definition scenario_A (fallback : string) : OrchestratorAgent :=
  {| _agents := [expert "hr-expert" ["請假"] 10 ACTIVE];
     _fallback_agent := fallback |}.

Definition jira_catalog : OrchestratorAgent :=
  {| _agents := [expert "jira-agent" ["ticket"] 0 ACTIVE;
                 expert "old-agent" ["legacy"] 0 INACTIVE];
     _fallback_agent := "general-assistant" |}.


Definition negative_priorities : OrchestratorAgent :=
  {| _agents := [expert "hr-expert" ["leave"] (-100) ACTIVE;
                 expert "payroll-expert" ["leave"] (-200) ACTIVE];
     _fallback_agent := "general-assistant" |}.

(** An active expert whose priority is an [int] beyond the range of
    [float]. *)
Definition huge_priority : OrchestratorAgent :=
  {| _agents := [expert "hr-expert" ["leave"] (10 ^ 400) ACTIVE];
     _fallback_agent := "general-assistant" |}.

(** * Further code of the repository *)

(** ** agent.py: [OrchestratorAgent.available_agents] *)

Definition is_active (item : string * AgentConfig) : bool :=
  AgentStatus_eqb (status (snd item)) ACTIVE.

(** [[name for name, config in self._agents.items()
      if config.status == AgentStatus.ACTIVE]] *)
Definition available_agents (self : OrchestratorAgent) : list string :=
  map fst (filter is_active (_agents self)).

(** The candidate that [route] records for an expert that matches by
    keyword [k], and the one for an expert that matches by pattern [p]. *)
Definition keyword_candidate (n : string) (cfg : AgentConfig) (k : string)
    : Candidate :=
  (n, keyword_value (priority (routing_rules cfg)), "keyword_match:" ++ k).

Definition pattern_candidate (n : string) (cfg : AgentConfig) (p : string)
    : Candidate :=
  (n, pattern_value (priority (routing_rules cfg)), "pattern_match:" ++ p).

(** What [route] returns for "Open a TICKET" over [jira_catalog]. *)
Definition ticket_result : RoutingResult :=
  {| selected_agent := "jira-agent";
     confidence := keyword_value 0;
     routing_reason := "keyword_match:ticket";
     fallback_agents := ["general-assistant"] |}.

Definition jira_agent : AgentConfig :=
  snd (expert "jira-agent" ["ticket"] 0 ACTIVE).

(** Three experts answer to "leave", two of them with the same priority. *)
Definition leave_catalog : OrchestratorAgent :=
  {| _agents := [expert "payroll-expert" ["leave"] 10 ACTIVE;
                 expert "hr-expert" ["leave"] 20 ACTIVE;
                 expert "benefits-expert" ["leave"] 20 ACTIVE;
                 expert "jira-agent" ["ticket"] 0 ACTIVE];
     _fallback_agent := "general-assistant" |}.

(** What [route] returns for "annual leave" over [leave_catalog]. *)
Definition leave_result : RoutingResult :=
  {| selected_agent := "hr-expert";
     confidence := keyword_value 20;
     routing_reason := "keyword_match:leave";
     fallback_agents :=
       ["benefits-expert"; "payroll-expert"; "general-assistant"] |}.


(** [re.search(pattern, query, re.IGNORECASE)] for a pattern without
    metacharacters, over strings whose cased letters are ASCII: the pattern
    occurs in the query, case ignored. *)
Definition literal_search (pattern query : string) : re_outcome :=
  if Str.contains (ascii_lower pattern) (ascii_lower query) then ReMatch
  else ReNoMatch.

Definition rule_expert (n : string) (kws pats : list string) (prio : Z)
    : string * AgentConfig :=
  (n, {| name := n;
         url := "http://" ++ n ++ ":10001";
         description := n;
         tags := [];
         routing_rules :=
           {| keywords := kws; patterns := pats; priority := prio |};
         owner := "platform";
         status := ACTIVE |}).

(** For "annual leave": "hr-expert" matches by keyword and by pattern,
    "payroll-expert" by keyword with a lower priority, "forms-expert" by
    pattern only, with the highest priority of all. *)
Definition payroll_rules : AgentConfig :=
  snd (rule_expert "payroll-expert" ["leave"] [] 1).
Definition hr_rules : AgentConfig :=
  snd (rule_expert "hr-expert" ["leave"; "vacation"] ["leave"] 5).
Definition forms_rules : AgentConfig :=
  snd (rule_expert "forms-expert" ["form"] ["leave"] 9).

Definition rules_catalog : OrchestratorAgent :=
  {| _agents := [("payroll-expert", payroll_rules);
                 ("hr-expert", hr_rules);
                 ("forms-expert", forms_rules);
                 rule_expert "jira-agent" ["ticket"] ["ticket"] 0];
     _fallback_agent := "general-assistant" |}.

(** What [route] returns for "annual leave" over [rules_catalog]. *)
Definition rules_result : RoutingResult :=
  {| selected_agent := "hr-expert";
     confidence := keyword_value 5;
     routing_reason := "keyword_match:leave";
     fallback_agents :=
       ["payroll-expert"; "forms-expert"; "general-assistant"] |}.

(** ** pipes/aaif_orchestrator_pipe.py: the request and the fallback *)

Module PipeRequest.
Import Pipe.

(** [s.split(sep)] for a separator [sep] of one character *)
Fixpoint split (sep : ascii) (s : string) : list string :=
  match s with
  | EmptyString => [""]
  | String c rest =>
      if Ascii.eqb c sep then "" :: split sep rest
      else
        match split sep rest with
        | first :: more => String c first :: more
        | [] => [String c ""]
        end
  end.

(** The model of a request, as [pipe] reads it:
    [model_id = body.get("model", "auto")], then
    [if "." in model_id: model_id = model_id.split(".")[-1]]. *)
Definition model_id_of (model : option string) : string :=
  let model_id := or_default model "auto" in
  if Str.contains "." model_id then last (split "." model_id) ""
  else model_id.

(** [params.get("metadata")] of the request that [pipe] sends: the value of
    [metadata.handoff_context.context_data.target_agent], absent when the
    model is "auto". *)
Definition target_agent_param (model_id : string) : option string :=
  if negb (String.eqb model_id "auto") then Some model_id else None.

(** The dictionary [{}], as a payload. *)
Definition empty_payload : Payload :=
  {| payload_kind := None; status := None; agentName := None;
     taskId := None; artifact := None; toolName := None;
     payload_parts := []; id := None; artifacts := [] |}.

(** The non-streaming fallback; [result] is the JSON body of the response. *)
Definition _extract_response_text (result : Data) : list Output :=
  let response_result := or_default (Pipe.result result) empty_payload in
  if kind_is "message" response_result then
    yield_part_texts (payload_parts response_result)
  else if kind_is "task" response_result then
    let artifacts := artifacts response_result in
    (flat_map (fun a => yield_part_texts (artifact_parts a)) artifacts
     ++ match artifacts with
        | [] =>
            yield_part_texts
              (message_parts (md_get message (status response_result)))
        | _ :: _ => []
        end)%list
  else [].

(** *** Notions used by the properties *)

Definition is_emit (o : Output) : bool :=
  match o with EmitStatus _ _ => true | _ => false end.

(** What the generators yield: the output without the calls of the event
    emitter. *)
Definition yielded (out : list Output) : list Output :=
  filter (fun o => negb (is_emit o)) out.

(** The string an output carries. *)
Definition output_text (o : Output) : string :=
  match o with
  | EmitStatus description _ => description
  | YieldTrajectory s | YieldText s | YieldError s => s
  end.

(** The trajectory entry recorded for a part of a status message. *)
Definition part_events (part : Part) : list TrajectoryEvent :=
  if thinking_part part then
    [{| traj_text := or_default (fst (_get_part_info part)) "";
        traj_event_type :=
          or_default (md_get event_type (snd (_get_part_info part))) "";
        traj_metadata := snd (_get_part_info part) |}]
  else [].

(** The trajectory entries recorded for a line: those of the parts of a
    status update. *)
Definition line_events (line : SseLine) : list TrajectoryEvent :=
  if is_status_update line then flat_map part_events (status_parts_of line)
  else [].



(** Every string that is sent is non-empty. *)
Definition nonempty (out : list Output) : Prop :=
  Forall (fun o => Str.truthy (output_text o) = true) out.

(** *** Scenarios *)

(** The answer arrives first, a thinking event after it. *)
Definition late_thinking : list SseLine :=
  [artifact_event [text_part "answer" None];
   status_event [text_part "Analyzing..." (meta "llm_thinking")]].

End PipeRequest.

(** ** models.py: the constraints of [AgentConfig]

    An entry of the [agents] list of agents.yaml as [yaml.safe_load]
    returns it, for entries whose values have the types of their fields;
    [None] stands for an absent key. *)

Module Validation.

Record RoutingRuleData : Type := {
  keywords_data : option (list string);
  patterns_data : option (list string);
  priority_data : option Z
}.

Record AgentData : Type := {
  name_data : option string;
  url_data : option string;
  description_data : option string;
  tags_data : option (list string);
  routing_rules_data : option RoutingRuleData;
  owner_data : option string;
  status_data : option string
}.

(** [len(s)]: the number of code points, that is of the bytes that do not
    continue a UTF-8 sequence *)
Definition is_continuation (c : ascii) : bool :=
  match c with Ascii _ _ _ _ _ _ b6 b7 => b7 && negb b6 end.

Fixpoint len (s : string) : nat :=
  match s with
  | EmptyString => 0
  | String c rest => (if is_continuation c then 0 else 1) + len rest
  end.

Definition in_range (lo hi : nat) (c : ascii) : bool :=
  (lo <=? nat_of_ascii c)%nat && (nat_of_ascii c <=? hi)%nat.

(** [[a-z]] *)
Definition is_lower_letter (c : ascii) : bool := in_range 97 122 c.

(** [[a-z0-9-]] *)
Definition is_name_char (c : ascii) : bool :=
  is_lower_letter c || in_range 48 57 c || Ascii.eqb c "-".

Fixpoint all_chars (f : ascii -> bool) (s : string) : bool :=
  match s with
  | EmptyString => true
  | String c rest => f c && all_chars f rest
  end.

(** [pattern=r"^[a-z][a-z0-9-]*$"], the whole string being matched *)
Definition name_pattern (s : string) : bool :=
  match s with
  | EmptyString => false
  | String c rest => is_lower_letter c && all_chars is_name_char rest
  end.

(** [name: str = Field(..., min_length=1, max_length=64, pattern=...)] *)
Definition name_ok (s : string) : bool :=
  (1 <=? len s)%nat && (len s <=? 64)%nat && name_pattern s.

(** [description: str = Field(..., max_length=1024)] *)
Definition description_ok (s : string) : bool := (len s <=? 1024)%nat.

(** [AgentStatus(value)] *)
Definition AgentStatus_of (value : string) : option AgentStatus :=
  if String.eqb value "active" then Some ACTIVE
  else if String.eqb value "inactive" then Some INACTIVE
  else if String.eqb value "degraded" then Some DEGRADED
  else None.

(** [RoutingRule] built from the keys of a mapping: every field has a
    default *)
Definition new_RoutingRule (data : RoutingRuleData) : RoutingRule :=
  {| keywords := Pipe.or_default (keywords_data data) [];
     patterns := Pipe.or_default (patterns_data data) [];
     priority := Pipe.or_default (priority_data data) 0%Z |}.

(** The fields of [AgentConfig] that fail validation, in the order of
    their declaration: [name], [url] and [description] are required and
    constrained, [status] must be a value of [AgentStatus]; the other
    fields have defaults and no constraint. *)
Definition failing_fields (agent_data : AgentData) : list string :=
  ((match name_data agent_data with
    | Some n => if name_ok n then [] else ["name"]
    | None => ["name"]
    end)
   ++ (match url_data agent_data with
       | Some _ => []
       | None => ["url"]
       end)
   ++ (match description_data agent_data with
       | Some d => if description_ok d then [] else ["description"]
       | None => ["description"]
       end)
   ++ (match status_data agent_data with
       | Some value =>
           match AgentStatus_of value with Some _ => [] | None => ["status"] end
       | None => []
       end))%list.

(** [AgentConfig] built from the keys of [agent_data]: pydantic raises
    [ValidationError] when a required field is missing or a constraint
    fails, and fills in the defaults otherwise. *)
Definition new_AgentConfig (agent_data : AgentData) : outcome AgentConfig :=
  match failing_fields agent_data with
  | [] =>
      Returns
        {| name := Pipe.or_default (name_data agent_data) "";
           url := Pipe.or_default (url_data agent_data) "";
           description := Pipe.or_default (description_data agent_data) "";
           tags := Pipe.or_default (tags_data agent_data) [];
           routing_rules :=
             match routing_rules_data agent_data with
             | Some rules => new_RoutingRule rules
             | None => new_RoutingRule
                         {| keywords_data := None;
                            patterns_data := None;
                            priority_data := None |}
             end;
           owner := Pipe.or_default (owner_data agent_data) "platform";
           status :=
             match status_data agent_data with
             | Some value => Pipe.or_default (AgentStatus_of value) ACTIVE
             | None => ACTIVE
             end |}
  | fields => Raises (ValidationError fields)
  end.

End Validation.

(** ** config_loader.py *)

Module ConfigLoader.

(** An element of the list under ["agents"]: a mapping, or another YAML
    value (a string, a number, a list, null). *)
Inductive Entry (D : Type) : Type :=
| Mapping (agent_data : D)
| NotMapping.
Arguments Mapping {D} agent_data.
Arguments NotMapping {D}.

(** What [load_agents_config] finds at [config_path]: no file, a document
    that [yaml.safe_load] reads as [None], or a mapping of which
    [agents_data] is the value of [data.get("agents", [])], a list. *)
Inductive ConfigFile (D : Type) : Type :=
| Missing
| EmptyDocument
| Document (agents_data : list (Entry D)).
Arguments Missing {D}.
Arguments EmptyDocument {D}.
Arguments Document {D} agents_data.

Section Loader.
Context {D : Type}.
(** The body of the [try] up to [config], for a mapping: the conversion of
    ["routing_rules"] and the construction of the [AgentConfig]. *)
Variable parse : D -> outcome AgentConfig.

(** [for agent_data in agents_data: ...], from the catalog [agents] built
    so far.  For a value that is no mapping the [try] raises [TypeError]
    (in the membership test, the subscript or the call); the handler raises
    it again if [validate], and otherwise fails on [agent_data.get] with
    [AttributeError]. *)
Fixpoint load_entries (validate : bool) (agents_data : list (Entry D))
    (agents : list (string * AgentConfig))
    : outcome (list (string * AgentConfig)) :=
  match agents_data with
  | [] => Returns agents
  | Mapping agent_data :: rest =>
      match parse agent_data with
      | Returns config =>
          load_entries validate rest (Pipe.dict_set (name config) config agents)
      | Raises e =>
          if validate then Raises e
          else load_entries validate rest agents
      end
  | NotMapping :: rest =>
      if validate then Raises TypeError else Raises AttributeError
  end.

Definition load_agents_config (config_file : ConfigFile D) (validate : bool)
    : outcome (list (string * AgentConfig)) :=
  match config_file with
  | Missing => Returns []
  | EmptyDocument => Returns []
  | Document agents_data => load_entries validate agents_data []
  end.


(** *** Notions used by the properties *)

Definition entries (config_file : ConfigFile D) : list (Entry D) :=
  match config_file with
  | Missing | EmptyDocument => []
  | Document agents_data => agents_data
  end.

Definition is_mapping (entry : Entry D) : bool :=
  match entry with Mapping _ => true | NotMapping => false end.

(** The configurations of the entries that pass validation, in order. *)
Definition valid_configs (agents_data : list (Entry D)) : list AgentConfig :=
  flat_map
    (fun entry =>
       match entry with
       | Mapping agent_data =>
           match parse agent_data with
           | Returns config => [config]
           | Raises _ => []
           end
       | NotMapping => []
       end) agents_data.

(** The error of the first entry that fails in the [try]. *)
Fixpoint first_error (agents_data : list (Entry D)) : option exn :=
  match agents_data with
  | [] => None
  | Mapping agent_data :: rest =>
      match parse agent_data with
      | Returns _ => first_error rest
      | Raises e => Some e
      end
  | NotMapping :: rest => Some TypeError
  end.



End Loader.

(** *** Scenarios *)

Definition agent_entry (n : string) (kws : list string) (st : option string)
    : Validation.AgentData :=
  {| Validation.name_data := Some n;
     Validation.url_data := Some "http://agent:10001";
     Validation.description_data := Some "expert";
     Validation.tags_data := None;
     Validation.routing_rules_data :=
       Some {| Validation.keywords_data := Some kws;
               Validation.patterns_data := None;
               Validation.priority_data := None |};
     Validation.owner_data := None;
     Validation.status_data := st |}.

(** An entry without the required ["url"], with a status that is no value
    of [AgentStatus]. *)
Definition incomplete_entry (n : string) : Validation.AgentData :=
  {| Validation.name_data := Some n;
     Validation.url_data := None;
     Validation.description_data := Some "expert";
     Validation.tags_data := None;
     Validation.routing_rules_data := None;
     Validation.owner_data := None;
     Validation.status_data := Some "paused" |}.

(** Two entries share the name "hr-expert"; one entry has an invalid name. *)
Definition sample_file : ConfigFile Validation.AgentData :=
  Document
    [Mapping (agent_entry "hr-expert" ["leave"] None);
     Mapping (agent_entry "HR Expert" ["salary"] None);
     Mapping (agent_entry "finance-expert" ["invoice"] None);
     Mapping (agent_entry "hr-expert" ["payroll"] (Some "degraded"))].


(** Three entries fail, each in its own way: an invalid name, a missing
    url with an unknown status, and a value that is no mapping. *)
Definition broken_file : ConfigFile Validation.AgentData :=
  Document
    [Mapping (agent_entry "hr-expert" ["leave"] None);
     Mapping (agent_entry "HR Expert" ["salary"] None);
     Mapping (incomplete_entry "finance-expert");
     NotMapping].

End ConfigLoader.

(** ** agent.py: the delegation tool of an expert *)

(** [s.replace(old, new)] for [old] and [new] of one character *)
Fixpoint replace (old new : ascii) (s : string) : string :=
  match s with
  | EmptyString => EmptyString
  | String c rest =>
      String (if Ascii.eqb c old then new else c) (replace old new rest)
  end.

(** [tool_name = f"delegate_to_{target_agent.replace('-', '_')}"] in
    [_delegate_directly] *)
Definition delegation_tool_name (target_agent : string) : string :=
  "delegate_to_" ++ replace "-" "_" target_agent.
(** * Routing: properties *)

Lemma truthy_iff (s : string) : Str.truthy s = true <-> s <> "".
Proof. destruct s; simpl; split; congruence. Qed.

Lemma truthy_false_iff (s : string) : Str.truthy s = false <-> s = "".
Proof. destruct s; simpl; split; congruence. Qed.

(** ** Scores *)

Lemma bonus_closed (p : Z) :
  py_min (inject_Z p * 0.01) 0.09 == (Z.min p 9 # 100).
Proof.
  unfold py_min, Qle_bool. cbn.
  destruct (Z.leb_spec (p * 1 * 100) 900); unfold Qeq; cbn; lia.
Qed.

Lemma keyword_value_closed (p : Z) :
  keyword_value p == (90 + Z.min p 9 # 100).
Proof.
  unfold keyword_value. rewrite bonus_closed.
  unfold Qeq, Qplus. cbn [Qnum Qden]. lia.
Qed.

Lemma pattern_value_closed (p : Z) :
  pattern_value p == (80 + Z.min p 9 # 100).
Proof.
  unfold pattern_value. rewrite bonus_closed.
  unfold Qeq, Qplus. cbn [Qnum Qden]. lia.
Qed.

Lemma keyword_score_value (p : Z) :
  keyword_score p =
    if float_overflows p then Raises OverflowError
    else Returns (keyword_value p).
Proof.
  unfold keyword_score, int_times_float, keyword_value.
  destruct (float_overflows p); reflexivity.
Qed.

Lemma pattern_score_value (p : Z) :
  pattern_score p =
    if float_overflows p then Raises OverflowError
    else Returns (pattern_value p).
Proof.
  unfold pattern_score, int_times_float, pattern_value.
  destruct (float_overflows p); reflexivity.
Qed.

Lemma keyword_score_returns (p : Z) (s : Q) :
  keyword_score p = Returns s ->
  float_overflows p = false /\ s = keyword_value p.
Proof.
  rewrite keyword_score_value.
  destruct (float_overflows p); [discriminate|]. intros [= <-]. auto.
Qed.

Lemma pattern_score_returns (p : Z) (s : Q) :
  pattern_score p = Returns s ->
  float_overflows p = false /\ s = pattern_value p.
Proof.
  rewrite pattern_score_value.
  destruct (float_overflows p); [discriminate|]. intros [= <-]. auto.
Qed.

Lemma keyword_value_mono (p1 p2 : Z) :
  (p1 <= p2)%Z -> keyword_value p1 <= keyword_value p2.
Proof.
  intros Hp. rewrite !keyword_value_closed. unfold Qle. cbn [Qnum Qden]. lia.
Qed.

Lemma keyword_value_tie (p1 p2 : Z) :
  (p1 < p2)%Z ->
  (keyword_value p1 == keyword_value p2 <-> (9 <= p1)%Z).
Proof.
  intros Hp. rewrite !keyword_value_closed. unfold Qeq. cbn [Qnum Qden]. lia.
Qed.

(** The keyword score grows with the priority, strictly so below the cap
    of the bonus. *)
Lemma keyword_score_mono (p1 p2 : Z) (s1 s2 : Q) :
  (p1 <= p2)%Z ->
  keyword_score p1 = Returns s1 -> keyword_score p2 = Returns s2 ->
  s1 <= s2.
Proof.
  intros Hp H1 H2.
  apply keyword_score_returns in H1 as [_ ->], H2 as [_ ->].
  now apply keyword_value_mono.
Qed.

Lemma keyword_score_tie (p1 p2 : Z) (s1 s2 : Q) :
  (p1 < p2)%Z ->
  keyword_score p1 = Returns s1 -> keyword_score p2 = Returns s2 ->
  (s1 == s2 <-> (9 <= p1)%Z).
Proof.
  intros Hp H1 H2.
  apply keyword_score_returns in H1 as [_ ->], H2 as [_ ->].
  now apply keyword_value_tie.
Qed.

Lemma keyword_value_valid (p : Z) :
  (-90 <= p)%Z -> confidence_in_range (keyword_value p) = true.
Proof.
  intros Hp. unfold confidence_in_range.
  rewrite !keyword_value_closed. unfold Qle_bool. cbn [Qnum Qden].
  apply andb_true_iff. split; apply Z.leb_le; lia.
Qed.


(** ** Stable sorting keeps the elements *)

Section StableSortFacts.
Context {A K : Type}.
Variable ltb : K -> K -> bool.
Variable key : A -> K.

Lemma In_insert_desc (x a : A) (l : list A) :
  In x (insert_desc ltb key a l) <-> x = a \/ In x l.
Proof.
  induction l as [|y ys IH]; simpl.
  - intuition congruence.
  - destruct (ltb (key a) (key y)); simpl; rewrite ?IH; intuition congruence.
Qed.

Lemma In_sort_desc (x : A) (l : list A) :
  In x (sort_desc ltb key l) <-> In x l.
Proof.
  induction l as [|a l IH]; simpl.
  - tauto.
  - rewrite In_insert_desc, IH. intuition congruence.
Qed.
End StableSortFacts.


Section RoutingProperties.
Variable lower : string -> string.
Variable re_search : string -> string -> re_outcome.








Lemma first_keyword_some (ql : string) (kws : list string) :
  existsb (fun k => Str.contains (lower k) ql) kws = true ->
  exists k, first_keyword lower ql kws = Some k.
Proof.
  induction kws as [|k kws IH]; simpl; [discriminate|].
  destruct (Str.contains (lower k) ql); simpl; eauto.
Qed.

Lemma expert_match_keyword (q n : string) (cfg : AgentConfig) :
  status cfg = ACTIVE ->
  keyword_matches lower q (routing_rules cfg) = true ->
  exists k,
    expert_match lower re_search q (n, cfg) =
      [(n, keyword_value (priority (routing_rules cfg)), "keyword_match:" ++ k)].
Proof.
  intros Hs Hk. apply first_keyword_some in Hk as [k Hk].
  exists k. unfold expert_match. rewrite Hs, Hk. reflexivity.
Qed.

(** ** The loop with and without overflow *)

Lemma agent_candidates_value (q : string) (item : string * AgentConfig) :
  agent_candidates lower re_search q item =
    if score_overflows lower re_search q item then Raises OverflowError
    else Returns (expert_match lower re_search q item).
Proof.
  destruct item as [n cfg].
  unfold score_overflows, expert_match, agent_candidates. cbn [snd].
  destruct (negb (AgentStatus_eqb (status cfg) ACTIVE)); [reflexivity|].
  cbv zeta.
  destruct (first_keyword lower (lower q) (keywords (routing_rules cfg))).
  - rewrite keyword_score_value.
    destruct (float_overflows (priority (routing_rules cfg))); reflexivity.
  - destruct (first_pattern re_search q (patterns (routing_rules cfg)));
      [|reflexivity].
    rewrite pattern_score_value.
    destruct (float_overflows (priority (routing_rules cfg))); reflexivity.
Qed.

Lemma collect_candidates_value (q : string)
    (items : list (string * AgentConfig)) :
  collect_candidates lower re_search q items =
    if existsb (score_overflows lower re_search q) items
    then Raises OverflowError
    else Returns (flat_map (expert_match lower re_search q) items).
Proof.
  induction items as [|item items IH]; [reflexivity|].
  cbn [collect_candidates existsb flat_map].
  rewrite agent_candidates_value, IH.
  destruct (score_overflows lower re_search q item); [reflexivity|].
  cbn [orb]. destruct (existsb _ items); reflexivity.
Qed.

Lemma existsb_sort_desc {A K : Type} (ltb : K -> K -> bool) (key : A -> K)
    (f : A -> bool) (l : list A) :
  existsb f (sort_desc ltb key l) = existsb f l.
Proof.
  apply eq_true_iff_eq. rewrite !existsb_exists.
  split; intros (x & Hx & Hf); exists x; split; auto;
    now apply (In_sort_desc ltb key).
Qed.

Lemma ranked_candidates_value (agents : list (string * AgentConfig))
    (q : string) :
  ranked_candidates lower re_search agents q =
    if some_score_overflows lower re_search agents q
    then Raises OverflowError
    else Returns (ranking lower re_search agents q).
Proof.
  unfold ranked_candidates, some_score_overflows, ranking, sorted_agents.
  rewrite collect_candidates_value, existsb_sort_desc.
  destruct (existsb _ agents); reflexivity.
Qed.

(** [route] raises [OverflowError] if a score overflows, and otherwise
    makes its result of the ranking; it never writes the orchestrator. *)
Lemma route_value (self : OrchestratorAgent) (q : string) :
  route lower re_search q self =
    (if some_score_overflows lower re_search (_agents self) q
     then Raises OverflowError
     else selection self (ranking lower re_search (_agents self) q),
     self).
Proof.
  unfold route, bind, this, lift. rewrite ranked_candidates_value.
  destruct (some_score_overflows lower re_search (_agents self) q);
    [reflexivity|].
  unfold selection.
  destruct (ranking lower re_search (_agents self) q)
    as [|[[selected conf] reason] rest]; reflexivity.
Qed.

Lemma route_leaves_orchestrator (self : OrchestratorAgent) (q : string) :
  snd (route lower re_search q self) = self.
Proof. now rewrite route_value. Qed.




(** An active expert that matches has a priority that converts to
    [float], whenever no score overflows. *)
Lemma matching_priority_converts (agents : list (string * AgentConfig))
    (q n : string) (cfg : AgentConfig) :
  some_score_overflows lower re_search agents q = false ->
  In (n, cfg) agents ->
  expert_match lower re_search q (n, cfg) <> [] ->
  float_overflows (priority (routing_rules cfg)) = false.
Proof.
  intros Hno Hin Hm.
  destruct (float_overflows (priority (routing_rules cfg))) eqn:Ef;
    [|reflexivity].
  assert (Ht : some_score_overflows lower re_search agents q = true).
  { unfold some_score_overflows. apply existsb_exists. exists (n, cfg).
    split; [exact Hin|]. unfold score_overflows.
    destruct (expert_match lower re_search q (n, cfg)); [congruence|].
    exact Ef. }
  congruence.
Qed.


(** Parameter routing never raises and leaves the orchestrator as it is;
    what it returns, if anything, names the override. *)
Lemma route_by_parameter_cases (self : OrchestratorAgent)
    (hc : option HandoffContext) :
  route_by_parameter hc self = (Returns None, self) \/
  exists r,
    route_by_parameter hc self = (Returns (Some r), self) /\
    override_of hc = Some (selected_agent r) /\
    selected_agent r <> "" /\
    override_unusable (selected_agent r) (_agents self) = false.
Proof.
  unfold route_by_parameter, override_of, override_unusable, bind, this, ret, lift.
  destruct hc as [h|]; [|now left].
  destruct (dict_get "target_agent" _) as [target|]; [|now left].
  destruct (Str.truthy target) eqn:Et; simpl; [|now left].
  destruct (dict_get target (_agents self)) as [cfg|] eqn:Eg; [|now left].
  destruct (AgentStatus_eqb (status cfg) ACTIVE) eqn:Ea; simpl; [|now left].
  right. eexists. split; [reflexivity|]. simpl.
  rewrite Eg, Ea. repeat split. now apply truthy_iff.
Qed.

(** C1 (amended). If the override names an expert that is present in the
    catalog with status active, [smart_route] returns a result that selects
    this expert with confidence 1.0 and routing reason
    "parameter:target_agent", whatever the query; its fallback list holds
    the configured fallback agent, if there is one. *)
Theorem smart_route_parameter_override
    (self : OrchestratorAgent) (query : string)
    (hc : option HandoffContext) (target : string) (cfg : AgentConfig) :
  override_of hc = Some target ->
  target <> "" ->
  dict_get target (_agents self) = Some cfg ->
  status cfg = ACTIVE ->
  exists r,
    smart_route lower re_search query hc self = (Returns r, self) /\
    selected_agent r = target /\
    confidence r == 1.0 /\
    routing_reason r = "parameter:target_agent" /\
    fallback_agents r =
      (if Str.truthy (_fallback_agent self) then [_fallback_agent self] else []).
Proof.
  intros Hov Hne Hget Hact.
  destruct hc as [h|]; [|discriminate].
  unfold override_of in Hov.
  apply truthy_iff in Hne.
  eexists. split.
  - unfold smart_route, route_by_parameter, bind, this, ret, lift.
    rewrite Hov, Hne, Hget, Hact. simpl. reflexivity.
  - simpl. repeat split; reflexivity.
Qed.



(** C5 (amended). Over the catalog of scenario A (the single active expert
    "hr-expert" with keyword "請假" and priority 10), routing the query
    "我想請假三天" without an override selects "hr-expert" with routing reason
    "keyword_match:請假" and confidence 0.99: the priority bonus is capped at
    0.09.  ([str.lower] leaves both strings as they are.) *)
Theorem scenario_A_routes_to_hr_expert (fallback : string) :
  lower "請假" = "請假" ->
  lower "我想請假三天" = "我想請假三天" ->
  exists r,
    smart_route lower re_search "我想請假三天" None (scenario_A fallback) =
      (Returns r, scenario_A fallback) /\
    selected_agent r = "hr-expert" /\
    routing_reason r = "keyword_match:請假" /\
    confidence r == 0.99 /\
    fallback_agents r = (if Str.truthy fallback then [fallback] else []).
Proof.
  intros Hk Hq.
  assert (Em : expert_match lower re_search "我想請假三天"
                 (expert "hr-expert" ["請假"] 10 ACTIVE)
               = [("hr-expert", keyword_value 10, "keyword_match:請假")]).
  { unfold expert_match, expert.
    cbn [status routing_rules keywords priority AgentStatus_eqb negb
         first_keyword].
    rewrite Hk, Hq.
    change (Str.contains "請假" "我想請假三天") with true. reflexivity. }
  unfold smart_route, route_by_parameter, bind, this, ret.
  rewrite route_value.
  unfold some_score_overflows, score_overflows, ranking, sorted_agents,
    scenario_A.
  cbn [_agents _fallback_agent existsb sort_desc fold_right insert_desc
       flat_map].
  rewrite Em.
  change (float_overflows
            (priority (routing_rules (snd (expert "hr-expert" ["請假"] 10 ACTIVE)))))
    with false.
  cbn [orb app sort_desc fold_right insert_desc selection firstn map
       Str.mem existsb negb andb].
  rewrite andb_true_r.
  change (new_RoutingResult "hr-expert" (keyword_value 10) "keyword_match:請假"
            (if Str.truthy fallback then ([] ++ [fallback])%list else []))
    with (Returns {| selected_agent := "hr-expert";
                     confidence := keyword_value 10;
                     routing_reason := "keyword_match:請假";
                     fallback_agents :=
                       if Str.truthy fallback
                       then ([] ++ [fallback])%list else [] |}).
  eexists. split; [reflexivity|].
  cbn [selected_agent routing_reason confidence fallback_agents].
  split; [reflexivity|]. split; [reflexivity|]. split.
  - unfold Qeq. reflexivity.
  - reflexivity.
Qed.

(** C8. If the override names an expert that is missing from the catalog or
    present with a status other than active, [smart_route] with this
    override does exactly what [route] does on the query alone. *)
Theorem smart_route_override_fallthrough
    (self : OrchestratorAgent) (query : string)
    (hc : option HandoffContext) (target : string) :
  override_of hc = Some target ->
  override_unusable target (_agents self) = true ->
  smart_route lower re_search query hc self =
    route lower re_search query self.
Proof.
  intros Hov Hun. unfold smart_route, bind.
  destruct (route_by_parameter_cases self hc) as [E|(r & E & Hov' & _ & Hus)];
    rewrite E; [reflexivity|].
  rewrite Hov in Hov'. injection Hov' as ->. congruence.
Qed.

(** Priority ordering, where the scores can be computed and are valid
    confidences: over a catalog of two active experts that both match the
    query by keyword, [route] selects the one of higher priority. *)
Lemma route_prefers_higher_priority
    (na nb : string) (a b : AgentConfig) (fallback query : string)
    (agents : list (string * AgentConfig)) :
  agents = [(na, a); (nb, b)] \/ agents = [(nb, b); (na, a)] ->
  status a = ACTIVE -> status b = ACTIVE ->
  keyword_matches lower query (routing_rules a) = true ->
  keyword_matches lower query (routing_rules b) = true ->
  (priority (routing_rules b) < priority (routing_rules a))%Z ->
  (-90 <= priority (routing_rules a))%Z ->
  float_overflows (priority (routing_rules a)) = false ->
  float_overflows (priority (routing_rules b)) = false ->
  exists r,
    fst (route lower re_search query
           {| _agents := agents; _fallback_agent := fallback |}) = Returns r /\
    selected_agent r = na /\
    keyword_score (priority (routing_rules a)) = Returns (confidence r).
Proof.
  intros Hag Ha Hb Hka Hkb Hlt Hvalid Hfa Hfb.
  destruct (expert_match_keyword query na a Ha Hka) as [ka Eca].
  destruct (expert_match_keyword query nb b Hb Hkb) as [kb Ecb].
  assert (Hs : sorted_agents agents = [(na, a); (nb, b)]).
  { unfold sorted_agents. destruct Hag as [-> | ->]; simpl.
    - destruct (Z.ltb_spec (priority (routing_rules a))
                  (priority (routing_rules b))); [lia|reflexivity].
    - destruct (Z.ltb_spec (priority (routing_rules b))
                  (priority (routing_rules a))); [reflexivity|lia]. }
  assert (Hle : Qltb (keyword_value (priority (routing_rules a)))
                  (keyword_value (priority (routing_rules b))) = false).
  { unfold Qltb. apply negb_false_iff, Qle_bool_iff, keyword_value_mono. lia. }
  assert (Hno : some_score_overflows lower re_search agents query = false).
  { unfold some_score_overflows, score_overflows.
    destruct Hag as [-> | ->]; cbn [existsb snd];
      rewrite Eca, Ecb, Hfa, Hfb; reflexivity. }
  rewrite route_value. cbn [_agents _fallback_agent fst].
  rewrite Hno. unfold ranking. rewrite Hs.
  cbn [flat_map]. rewrite Eca, Ecb.
  cbn [app sort_desc fold_right insert_desc cand_score fst snd].
  rewrite Hle. unfold selection, new_RoutingResult.
  rewrite (keyword_value_valid _ Hvalid).
  eexists. split; [reflexivity|]. split; [reflexivity|].
  cbn [confidence]. now rewrite keyword_score_value, Hfa.
Qed.

End RoutingProperties.

(** ** Instances and counterexamples *)

Lemma smart_route_parameter_override_witness :
  override_of (override "jira-agent") = Some "jira-agent" /\
  dict_get "jira-agent" (_agents jira_catalog)
    = Some (snd (expert "jira-agent" ["ticket"] 0 ACTIVE)) /\
  exists r,
    smart_route ascii_lower never_matches "建立 ticket"
      (override "jira-agent") jira_catalog = (Returns r, jira_catalog) /\
    selected_agent r = "jira-agent" /\
    confidence r == 1.0 /\
    routing_reason r = "parameter:target_agent" /\
    fallback_agents r = ["general-assistant"].
Proof.
  split; [reflexivity|]. split; [reflexivity|].
  apply (smart_route_parameter_override ascii_lower never_matches
           jira_catalog "建立 ticket" (override "jira-agent") "jira-agent"
           (snd (expert "jira-agent" ["ticket"] 0 ACTIVE)));
    [reflexivity | discriminate | reflexivity | reflexivity].
Defined.

(** C1 as stated fails: the routing reason of a valid override is
    "parameter:target_agent", not "parameter_override". *)
Lemma override_reason_is_not_parameter_override :
  exists r,
    fst (smart_route ascii_lower never_matches "建立 ticket"
           (override "jira-agent") jira_catalog) = Returns r /\
    routing_reason r = "parameter:target_agent" /\
    routing_reason r <> "parameter_override".
Proof.
  eexists. split; [reflexivity|]. split; [reflexivity|discriminate].
Qed.



(** Where a score cannot be computed, routing does not return: the
    priority 10^400 of a matching active expert does not convert to
    [float], and [route] raises [OverflowError]. *)
Lemma route_raises_on_huge_priority :
  names_nonempty (_agents huge_priority) = true /\
  active_priorities_ge (-80) (_agents huge_priority) = true /\
  active_priorities_convert (_agents huge_priority) = false /\
  fst (smart_route ascii_lower never_matches "annual leave" None
         huge_priority) = Raises OverflowError.
Proof. repeat split; vm_compute; reflexivity. Qed.



Lemma scenario_A_routes_to_hr_expert_witness :
  ascii_lower "請假" = "請假" /\
  ascii_lower "我想請假三天" = "我想請假三天" /\
  exists r,
    smart_route ascii_lower never_matches "我想請假三天" None
      (scenario_A "general") = (Returns r, scenario_A "general") /\
    selected_agent r = "hr-expert" /\
    routing_reason r = "keyword_match:請假" /\
    confidence r == 0.99 /\
    fallback_agents r = ["general"].
Proof.
  split; [reflexivity|]. split; [reflexivity|].
  apply (scenario_A_routes_to_hr_expert ascii_lower never_matches "general");
    reflexivity.
Defined.

(** C5 as stated fails: in scenario A the confidence is 0.99, which is not
    approximately 0.91 (it is 0.08 away). *)
Lemma scenario_A_confidence_is_not_0_91 :
  exists r,
    fst (smart_route ascii_lower never_matches "我想請假三天" None
           (scenario_A "general")) = Returns r /\
    selected_agent r = "hr-expert" /\
    confidence r == 0.99 /\
    ~ (Qabs (confidence r - 0.91) <= 0.05).
Proof.
  eexists. split; [reflexivity|]. split; [reflexivity|]. split.
  - unfold Qeq. reflexivity.
  - intros H. vm_compute in H. apply H. reflexivity.
Qed.

Lemma smart_route_override_fallthrough_witness :
  override_of (override "old-agent") = Some "old-agent" /\
  override_unusable "old-agent" (_agents jira_catalog) = true /\
  smart_route ascii_lower never_matches "Open a TICKET"
    (override "old-agent") jira_catalog =
  route ascii_lower never_matches "Open a TICKET" jira_catalog.
Proof.
  split; [reflexivity|]. split; [reflexivity|].
  apply (smart_route_override_fallthrough ascii_lower never_matches
           jira_catalog "Open a TICKET" (override "old-agent") "old-agent");
    reflexivity.
Defined.

(** C9 at a failing input: two active experts match "annual leave" by
    keyword, with priorities -100 and -200.  The score of the first,
    0.9 + min(-100 * 0.01, 0.09) = -0.1, is not a valid confidence, so
    [RoutingResult(...)] raises and [route] selects no expert. *)
Theorem route_raises_on_negative_priorities :
  (exists score, keyword_score (-100) = Returns score /\ score == -0.1) /\
  fst (route ascii_lower never_matches "annual leave" negative_priorities)
    = Raises (ValidationError ["confidence"]).
Proof.
  split; [|reflexivity].
  eexists. split; [reflexivity|]. unfold Qeq. reflexivity.
Qed.

(** ** The scenarios in binary64 arithmetic

    At the priorities of the scenarios above the binary64 score agrees with
    the rational one: priority 10 gives the float nearest to 0.99, priority 1
    the float nearest to 0.91, and priority -100 a negative score. *)

Module Binary64Facts.
Import PrimFloat.
#[local] Set Warnings "-inexact-float".

Example keyword_score_10 : eqb (Binary64.keyword_score 10) 0.99 = true.
Proof. reflexivity. Qed.

Example keyword_score_1 : eqb (Binary64.keyword_score 1) 0.91 = true.
Proof. reflexivity. Qed.

Example keyword_score_minus_100 :
  ltb (Binary64.keyword_score (-100)) 0 = true.
Proof. reflexivity. Qed.

End Binary64Facts.

(** * Event interpreter: properties *)

Module PipeProperties.
Import Pipe.

Lemma count_trajectory_app (a b : list Output) :
  count_trajectory (a ++ b) = (count_trajectory a + count_trajectory b)%nat.
Proof. unfold count_trajectory. now rewrite filter_app, length_app. Qed.

Lemma yield_part_texts_no_trajectory (ps : list Part) :
  count_trajectory (yield_part_texts ps) = 0%nat.
Proof.
  unfold yield_part_texts.
  induction ps as [|p ps IH]; [reflexivity|].
  cbn [flat_map]. rewrite count_trajectory_app, IH.
  destruct (_get_part_text p) as [s|]; [|reflexivity].
  destruct (Str.truthy s); reflexivity.
Qed.

Lemma kind_is_exclusive (k1 k2 : string) (p : Payload) :
  kind_is k1 p = true -> k1 <> k2 -> kind_is k2 p = false.
Proof.
  unfold kind_is. destruct (payload_kind p) as [k|]; [|discriminate].
  intros H1 Hne. apply String.eqb_eq in H1. subst k.
  now apply String.eqb_neq.
Qed.

Section Interpreter.
Variable event_emitter : bool.
Variable duration_1f : string.

Lemma emit_status_no_trajectory (description : string) (done : bool) :
  count_trajectory (_emit_status event_emitter description done) = 0%nat.
Proof. unfold _emit_status. destruct event_emitter; reflexivity. Qed.

Lemma render_trajectory_truthy (t : AgentTree) :
  trajectory t <> [] ->
  Str.truthy (_render_trajectory duration_1f t) = true.
Proof.
  unfold _render_trajectory. destruct (trajectory t); [congruence|].
  reflexivity.
Qed.

Lemma tools_called_append_fields (agent tool : string) (t : AgentTree) :
  has_status (tools_called_append agent tool t) = has_status t /\
  answer_started (tools_called_append agent tool t) = answer_started t /\
  trajectory (tools_called_append agent tool t) = trajectory t.
Proof.
  unfold tools_called_append. destruct (dict_get agent (agents t)); auto.
Qed.

(** What one part of a status message does to the request state. *)
Lemma status_part_spec (owner : option string) (t t' : AgentTree)
    (part : Part) (out : list Output) :
  status_part event_emitter owner t part = (t', out) ->
  answer_started t' = answer_started t /\
  count_trajectory out = 0%nat /\
  has_status t' = has_status t || thinking_part part /\
  (trajectory_recorded t = true -> trajectory_recorded t' = true).
Proof.
  unfold status_part, thinking_part.
  destruct (_get_part_info part) as [[text|] md]; cbn [text_truthy].
  2:{ intros [= <- <-]. rewrite orb_false_r. auto. }
  destruct (Str.truthy text); cbn [negb andb].
  2:{ intros [= <- <-]. rewrite orb_false_r. auto. }
  destruct (_is_hidden_event md); cbn [negb andb].
  { intros [= <- <-]. rewrite orb_false_r. auto. }
  destruct (_is_thinking_event md).
  2:{ intros [= <- <-]. rewrite orb_false_r. auto. }
  intros [= <- <-]. rewrite orb_true_r.
  assert (H : forall t1,
             has_status t1 = true ->
             answer_started t1 = answer_started t ->
             trajectory t1 <> [] ->
             answer_started t1 = answer_started t /\
             count_trajectory (_emit_status event_emitter text false) = 0%nat /\
             has_status t1 = true /\
             (trajectory_recorded t = true -> trajectory_recorded t1 = true)).
  { intros t1 H1 H2 H3. repeat split; auto using emit_status_no_trajectory.
    intros _. unfold trajectory_recorded. rewrite H1.
    destruct (trajectory t1); [congruence|reflexivity]. }
  destruct owner as [agent|];
    [destruct (String.eqb _ "tool_start")|]; apply H;
    rewrite ?(proj1 (tools_called_append_fields _ _ _)),
            ?(proj1 (proj2 (tools_called_append_fields _ _ _))),
            ?(proj2 (proj2 (tools_called_append_fields _ _ _)));
    cbn; auto; now destruct (trajectory t).
Qed.

Lemma status_parts_spec (owner : option string) (ps : list Part) :
  forall (t t' : AgentTree) (out : list Output),
  status_parts event_emitter owner t ps = (t', out) ->
  answer_started t' = answer_started t /\
  count_trajectory out = 0%nat /\
  has_status t' = has_status t || existsb thinking_part ps /\
  (trajectory_recorded t = true -> trajectory_recorded t' = true).
Proof.
  induction ps as [|p ps IH]; intros t t' out; cbn [status_parts existsb].
  - intros [= <- <-]. rewrite orb_false_r. auto.
  - destruct (status_part event_emitter owner t p) as [t1 out1] eqn:E1.
    destruct (status_parts event_emitter owner t1 ps) as [t2 out2] eqn:E2.
    intros [= <- <-].
    apply status_part_spec in E1 as (A1 & B1 & C1 & D1).
    apply IH in E2 as (A2 & B2 & C2 & D2).
    rewrite count_trajectory_app, B1, B2, A2, A1, C2, C1, orb_assoc.
    repeat split; auto.
Qed.

Lemma answer_starts_keeps (t : AgentTree) :
  has_status (fst (answer_starts event_emitter duration_1f t)) = has_status t /\
  trajectory_recorded (fst (answer_starts event_emitter duration_1f t))
    = trajectory_recorded t.
Proof.
  unfold answer_starts.
  destruct (has_status t && negb (answer_started t)); auto.
Qed.

Lemma artifact_texts_no_trajectory (l : list Artifact) :
  count_trajectory
    (flat_map (fun a => yield_part_texts (artifact_parts a)) l) = 0%nat.
Proof.
  induction l as [|a l IH]; [reflexivity|].
  cbn [flat_map].
  now rewrite count_trajectory_app, yield_part_texts_no_trajectory, IH.
Qed.

Lemma unchanged_spec (p : Payload) (t : AgentTree) (out : list Output) :
  kind_is "artifact-update" p = false ->
  kind_is "status-update" p = false ->
  count_trajectory out = 0%nat ->
  forall t',
    has_status t' = has_status t ->
    answer_started t' = answer_started t ->
    trajectory t' = trajectory t ->
    payload_spec event_emitter duration_1f p t t' out.
Proof.
  intros Ha Hs Hc t' H1 H2 H3. unfold payload_spec.
  rewrite Ha, Hs, H1, H2. cbn [andb]. rewrite orb_false_r.
  repeat split; auto; try discriminate.
  unfold trajectory_recorded. now rewrite H1, H3.
Qed.

Lemma status_update_spec (owner : option string) (p : Payload)
    (t0 t t' : AgentTree) (out : list Output) :
  kind_is "status-update" p = true ->
  has_status t = has_status t0 ->
  answer_started t = answer_started t0 ->
  trajectory t = trajectory t0 ->
  status_parts event_emitter owner t
    (message_parts (md_get message (status p))) = (t', out) ->
  payload_spec event_emitter duration_1f p t0 t' out.
Proof.
  intros Hs H1 H2 H3 E. unfold payload_spec.
  rewrite Hs, (kind_is_exclusive _ "artifact-update" _ Hs) by discriminate.
  apply status_parts_spec in E as (A & B & C & D).
  rewrite A, C, H1, H2. cbn [andb].
  repeat split; auto; try discriminate.
  intros Hr. apply D. unfold trajectory_recorded in *. now rewrite H1, H3.
Qed.

Lemma artifact_update_spec (p : Payload) (t : AgentTree) :
  kind_is "artifact-update" p = true ->
  payload_spec event_emitter duration_1f p t
    (fst (answer_starts event_emitter duration_1f t))
    (snd (answer_starts event_emitter duration_1f t)
     ++ yield_part_texts
          (match artifact p with Some a => artifact_parts a | None => [] end))%list.
Proof.
  intros Ha. unfold payload_spec.
  rewrite Ha, (kind_is_exclusive _ "status-update" _ Ha) by discriminate.
  destruct (answer_starts_keeps t) as [H1 H2]. rewrite H1, H2.
  cbn [andb]. rewrite orb_false_r.
  repeat split; auto; discriminate.
Qed.

Lemma extract_from_result_spec (p : Payload) (t t' : AgentTree)
    (out : list Output) :
  _extract_from_result event_emitter duration_1f p t = (t', out) ->
  payload_spec event_emitter duration_1f p t t' out.
Proof.
  unfold _extract_from_result.
  destruct (kind_is "message" p) eqn:Km.
  { intros [= <- <-]. apply unchanged_spec; auto;
      try (apply (kind_is_exclusive _ _ _ Km); discriminate).
    apply yield_part_texts_no_trajectory. }
  destruct (kind_is "task" p) eqn:Kt.
  { intros [= <- <-]. apply unchanged_spec; auto;
      try (apply (kind_is_exclusive _ _ _ Kt); discriminate).
    rewrite count_trajectory_app, artifact_texts_no_trajectory.
    destruct (artifacts p); [apply yield_part_texts_no_trajectory|reflexivity]. }
  destruct (kind_is "status-update" p) eqn:Ks.
  { intros E. now apply (status_update_spec None p t t). }
  destruct (kind_is "artifact-update" p) eqn:Ka.
  { destruct (answer_starts event_emitter duration_1f t) as [t1 o1] eqn:E.
    intros [= <- <-].
    pose proof (artifact_update_spec p t Ka) as H. now rewrite E in H. }
  intros [= <- <-]. now apply unchanged_spec.
Qed.

Lemma handle_event_spec (data : Data) (t t' : AgentTree)
    (out : list Output) :
  result data = None -> error data = None ->
  _handle_sse_event event_emitter duration_1f data t = (t', out) ->
  payload_spec event_emitter duration_1f (event data) t t' out.
Proof.
  intros Hr He. unfold _handle_sse_event. rewrite Hr, He.
  set (p := event data).
  destruct (kind_is "status-update" p) eqn:Ks.
  { intros E. apply (status_update_spec _ p t _ _ _ Ks) in E; auto;
      destruct (dict_get _ (agents t)); reflexivity. }
  destruct (kind_is "artifact-update" p) eqn:Ka.
  { destruct (answer_starts event_emitter duration_1f t) as [t1 o1] eqn:E.
    intros [= <- <-].
    pose proof (artifact_update_spec p t Ka) as H. now rewrite E in H. }
  destruct (kind_is "tool-call" p) eqn:Kc.
  { intros [= <- <-].
    destruct (tools_called_append_fields (or_default (agentName p) "unknown")
                (or_default (toolName p) "unknown") t) as (H1 & H2 & H3).
    now apply unchanged_spec. }
  destruct (kind_is "message" p) eqn:Km.
  { intros [= <- <-]. apply unchanged_spec; auto.
    apply yield_part_texts_no_trajectory. }
  intros [= <- <-]. now apply unchanged_spec.
Qed.

(** What one line of the stream does to the request state. *)
Lemma handle_line_spec (line : SseLine) (t t' : AgentTree)
    (out : list Output) :
  handle_line event_emitter duration_1f line t = (t', out) ->
  (is_artifact_update line = false ->
   answer_started t' = answer_started t /\ count_trajectory out = 0%nat) /\
  has_status t' = has_status t || is_thinking_status line /\
  (trajectory_recorded t = true -> trajectory_recorded t' = true) /\
  (is_artifact_update line = true ->
   (t', out) =
     (fst (answer_starts event_emitter duration_1f t),
      (snd (answer_starts event_emitter duration_1f t)
       ++ yield_part_texts (artifact_parts_of line))%list)).
Proof.
  assert (Hskip : forall l, handled_payload l = None ->
            forall o, count_trajectory o = 0%nat ->
            (is_artifact_update l = false ->
             answer_started t = answer_started t /\ count_trajectory o = 0%nat) /\
            has_status t = has_status t || is_thinking_status l /\
            (trajectory_recorded t = true -> trajectory_recorded t = true) /\
            (is_artifact_update l = true ->
             (t, o) =
               (fst (answer_starts event_emitter duration_1f t),
                (snd (answer_starts event_emitter duration_1f t)
                 ++ yield_part_texts (artifact_parts_of l))%list))).
  { intros l Hl o Ho.
    unfold is_artifact_update, is_thinking_status, is_status_update.
    rewrite Hl. cbn [andb]. rewrite orb_false_r.
    repeat split; auto; discriminate. }
  unfold handle_line.
  destruct line as [| |[data|]]; try (intros [= <- <-]; now apply Hskip).
  unfold is_artifact_update, is_thinking_status, is_status_update,
    status_parts_of, artifact_parts_of.
  destruct (result data) as [r|] eqn:Hr.
  - intros E. cbn [handled_payload]. rewrite Hr.
    unfold _handle_sse_event in E. rewrite Hr in E.
    now apply extract_from_result_spec in E.
  - destruct (error data) as [e|] eqn:He.
    + intros E. unfold _handle_sse_event in E. rewrite Hr, He in E.
      injection E as <- <-.
      change (DataLine (Some data)) with (DataLine (Some data)).
      specialize (Hskip (DataLine (Some data))).
      unfold is_artifact_update, is_thinking_status, is_status_update,
        status_parts_of, artifact_parts_of in Hskip.
      apply Hskip; [cbn [handled_payload]; now rewrite Hr, He|reflexivity].
    + intros E. cbn [handled_payload]. rewrite Hr, He.
      now apply handle_event_spec in E.
Qed.

(** ** The stream *)

Local Abbreviation process := (_process_sse_stream event_emitter duration_1f).
Local Abbreviation step := (handle_line event_emitter duration_1f).
Local Abbreviation trace := (answer_trace event_emitter duration_1f).

Lemma process_cons (line : SseLine) (rest : list SseLine) (t : AgentTree) :
  process (line :: rest) t =
    (fst (process rest (fst (step line t))),
     (snd (step line t) ++ snd (process rest (fst (step line t))))%list).
Proof.
  cbn [_process_sse_stream].
  destruct (step line t) as [t1 out1]. cbn [fst snd].
  destruct (process rest t1) as [t2 out2]. reflexivity.
Qed.

Lemma process_app (l1 l2 : list SseLine) :
  forall t,
    process (l1 ++ l2) t =
      (fst (process l2 (fst (process l1 t))),
       (snd (process l1 t) ++ snd (process l2 (fst (process l1 t))))%list).
Proof.
  induction l1 as [|line l1 IH]; intros t.
  - cbn [app _process_sse_stream fst snd]. now destruct (process l2 t).
  - cbn [app]. rewrite !process_cons, IH. cbn [fst snd].
    now rewrite app_assoc.
Qed.

Lemma trace_app (l1 l2 : list SseLine) :
  forall t,
    trace (l1 ++ l2) t = (trace l1 t ++ trace l2 (fst (process l1 t)))%list.
Proof.
  induction l1 as [|line l1 IH]; intros t.
  - reflexivity.
  - cbn [app answer_trace]. rewrite IH, process_cons. reflexivity.
Qed.

(** A line that is no artifact update, or that comes before any status was
    shown, or after the answer has started, does not flush the trajectory. *)
Lemma step_quiet (line : SseLine) (t : AgentTree) :
  is_artifact_update line = false \/ has_status t = false
  \/ answer_started t = true ->
  answer_started (fst (step line t)) = answer_started t /\
  count_trajectory (snd (step line t)) = 0%nat.
Proof.
  intros H.
  destruct (step line t) as [t' out] eqn:E.
  apply handle_line_spec in E as (A & _ & _ & D). cbn [fst snd].
  destruct (is_artifact_update line); [|now apply A].
  assert (Hn : has_status t && negb (answer_started t) = false).
  { destruct H as [H|[H|H]]; [discriminate| |]; rewrite H;
      [reflexivity|apply andb_false_r]. }
  specialize (D eq_refl). unfold answer_starts in D. rewrite Hn in D.
  injection D as -> ->. cbn [fst snd app].
  split; [reflexivity|apply yield_part_texts_no_trajectory].
Qed.

Lemma step_has_status (line : SseLine) (t : AgentTree) :
  has_status (fst (step line t)) = has_status t || is_thinking_status line.
Proof.
  destruct (step line t) as [t' out] eqn:E.
  now apply handle_line_spec in E as (_ & B & _).
Qed.

Lemma step_recorded (line : SseLine) (t : AgentTree) :
  trajectory_recorded t = true ->
  trajectory_recorded (fst (step line t)) = true.
Proof.
  destruct (step line t) as [t' out] eqn:E.
  now apply handle_line_spec in E as (_ & _ & C & _).
Qed.

Lemma process_recorded (lines : list SseLine) :
  forall t,
    trajectory_recorded t = true ->
    trajectory_recorded (fst (process lines t)) = true.
Proof.
  induction lines as [|line lines IH]; intros t H; [exact H|].
  rewrite process_cons. cbn [fst]. now apply IH, step_recorded.
Qed.

(** Before the first thinking event no status has been shown, and nothing
    is flushed. *)
Lemma quiet_before_thinking (lines : list SseLine) :
  forall t,
    forallb (fun l => negb (is_thinking_status l)) lines = true ->
    has_status t = false ->
    has_status (fst (process lines t)) = false /\
    answer_started (fst (process lines t)) = answer_started t /\
    count_trajectory (snd (process lines t)) = 0%nat /\
    trace lines t = repeat (answer_started t) (length lines).
Proof.
  induction lines as [|line lines IH]; intros t Hq Hs.
  - cbn. auto.
  - cbn [forallb] in Hq. apply andb_true_iff in Hq as [Hl Hq].
    apply negb_true_iff in Hl.
    destruct (step_quiet line t) as [A B]; [auto|].
    assert (Hs1 : has_status (fst (step line t)) = false)
      by (now rewrite step_has_status, Hs, Hl).
    destruct (IH _ Hq Hs1) as (I1 & I2 & I3 & I4).
    rewrite process_cons. cbn [fst snd answer_trace length repeat].
    rewrite count_trajectory_app, B, I3, I4, I2, A. auto.
Qed.

(** Without an artifact update the answer does not start. *)
Lemma quiet_without_artifact (lines : list SseLine) :
  forall t,
    forallb (fun l => negb (is_artifact_update l)) lines = true ->
    (has_status t = true -> has_status (fst (process lines t)) = true) /\
    answer_started (fst (process lines t)) = answer_started t /\
    count_trajectory (snd (process lines t)) = 0%nat /\
    trace lines t = repeat (answer_started t) (length lines).
Proof.
  induction lines as [|line lines IH]; intros t Hq.
  - cbn. auto.
  - cbn [forallb] in Hq. apply andb_true_iff in Hq as [Hl Hq].
    apply negb_true_iff in Hl.
    destruct (step_quiet line t) as [A B]; [auto|].
    destruct (IH (fst (step line t)) Hq) as (I1 & I2 & I3 & I4).
    rewrite process_cons. cbn [fst snd answer_trace length repeat].
    rewrite count_trajectory_app, B, I3, I4, I2, A.
    repeat split; auto.
    intros Hs. apply I1. now rewrite step_has_status, Hs.
Qed.

(** Once the answer has started nothing is flushed any more. *)
Lemma quiet_after_answer (lines : list SseLine) :
  forall t,
    answer_started t = true ->
    answer_started (fst (process lines t)) = true /\
    count_trajectory (snd (process lines t)) = 0%nat /\
    trace lines t = repeat true (length lines).
Proof.
  induction lines as [|line lines IH]; intros t Ha.
  - cbn. auto.
  - destruct (step_quiet line t) as [A B]; [auto|].
    rewrite Ha in A.
    destruct (IH _ A) as (I1 & I2 & I3).
    rewrite process_cons. cbn [fst snd answer_trace length repeat].
    rewrite count_trajectory_app, B, I2, I3, A. auto.
Qed.

(** The first artifact update after a status was shown starts the answer:
    it completes the status, yields the rendered trajectory, then the text
    of the artifact. *)
Lemma step_flush (line : SseLine) (t : AgentTree) :
  is_artifact_update line = true ->
  has_status t = true ->
  answer_started t = false ->
  trajectory_recorded t = true ->
  step line t =
    (set_answer_started true t,
     (_emit_status event_emitter "Completed" true
      ++ YieldTrajectory
           (_render_trajectory duration_1f (set_answer_started true t))
         :: yield_part_texts (artifact_parts_of line))%list).
Proof.
  intros Ha Hs Hn Hr.
  destruct (step line t) as [t' out] eqn:E.
  apply handle_line_spec in E as (_ & _ & _ & D).
  rewrite (D Ha). unfold answer_starts. rewrite Hs, Hn. cbn [andb negb fst snd].
  rewrite render_trajectory_truthy.
  - now rewrite <- app_assoc.
  - unfold trajectory_recorded in Hr. rewrite Hs in Hr. cbn in Hr.
    cbn [trajectory set_answer_started].
    destruct (trajectory t); [discriminate|congruence].
Qed.

(** ** Finding the first thinking event and the artifact that follows *)

Lemma first_artifact_update (lines : list SseLine) :
  artifact_after_thinking true lines = true ->
  exists mid a post,
    lines = (mid ++ a :: post)%list /\
    forallb (fun l => negb (is_artifact_update l)) mid = true /\
    is_artifact_update a = true.
Proof.
  induction lines as [|line lines IH]; cbn [artifact_after_thinking orb andb];
    [discriminate|].
  destruct (is_artifact_update line) eqn:Ea; cbn [orb].
  - intros _. exists [], line, lines. auto.
  - intros H. destruct (IH H) as (mid & a & post & -> & Hm & Ha).
    exists (line :: mid), a, post. cbn [forallb app]. rewrite Ea, Hm. auto.
Qed.

Lemma first_thinking_status (lines : list SseLine) :
  artifact_after_thinking false lines = true ->
  exists pre t rest,
    lines = (pre ++ t :: rest)%list /\
    forallb (fun l => negb (is_thinking_status l)) pre = true /\
    is_thinking_status t = true /\
    artifact_after_thinking true rest = true.
Proof.
  induction lines as [|line lines IH]; cbn [artifact_after_thinking orb andb];
    [discriminate|].
  destruct (is_thinking_status line) eqn:Et.
  - intros H. exists [], line, lines. auto.
  - intros H. destruct (IH H) as (pre & t & rest & -> & Hp & Ht & Hr).
    exists (line :: pre), t, rest. cbn [forallb app]. rewrite Et, Hp. auto.
Qed.

(** C2 (amended). Take an event sequence in which a status event with a
    thinking part is followed by an artifact-update event; let [t] be the
    first such status event and [a] the first artifact-update event after
    it.  Then, for a new request, exactly one trajectory item is produced
    over the whole sequence; it is produced by [a], after everything the
    events before [a] produced and before the text of [a] and everything the
    events after [a] produce; and [answer_started] is false after every event
    before [a] and true after [a] and after every later event. *)
Theorem trajectory_single_flush (model_id : string) (lines : list SseLine) :
  artifact_after_thinking false lines = true ->
  exists pre t mid a post,
    lines = (pre ++ t :: mid ++ a :: post)%list /\
    forallb (fun l => negb (is_thinking_status l)) pre = true /\
    is_thinking_status t = true /\
    forallb (fun l => negb (is_artifact_update l)) mid = true /\
    is_artifact_update a = true /\
    let before := process (pre ++ t :: mid) (new_agent_tree model_id) in
    let flushed := set_answer_started true (fst before) in
    let after := process post flushed in
    snd (process lines (new_agent_tree model_id)) =
      (snd before
       ++ _emit_status event_emitter "Completed" true
       ++ YieldTrajectory (_render_trajectory duration_1f flushed)
          :: yield_part_texts (artifact_parts_of a)
       ++ snd after)%list /\
    count_trajectory (snd before) = 0%nat /\
    count_trajectory (snd after) = 0%nat /\
    count_trajectory (snd (process lines (new_agent_tree model_id))) = 1%nat /\
    trace lines (new_agent_tree model_id) =
      (repeat false (length (pre ++ t :: mid))
       ++ repeat true (S (length post)))%list.
Proof.
  intros H.
  destruct (first_thinking_status _ H) as (pre & t & rest & -> & Hpre & Ht & Hr).
  destruct (first_artifact_update _ Hr) as (mid & a & post & -> & Hmid & Ha).
  exists pre, t, mid, a, post.
  do 5 (split; [assumption || reflexivity|]).
  set (t0 := new_agent_tree model_id).
  (* the events before [t] *)
  destruct (quiet_before_thinking pre t0 Hpre eq_refl) as (P1 & P2 & P3 & P4).
  pose proof (process_recorded pre t0 eq_refl) as P5.
  (* [t] itself *)
  destruct (step_quiet t (fst (process pre t0))) as [T1 T2]; [auto|].
  pose proof (step_has_status t (fst (process pre t0))) as T3.
  rewrite Ht, orb_true_r in T3.
  pose proof (step_recorded t _ P5) as T4.
  (* the events between [t] and [a] *)
  destruct (quiet_without_artifact mid (fst (step t (fst (process pre t0)))) Hmid)
    as (M1 & M2 & M3 & M4).
  specialize (M1 T3).
  pose proof (process_recorded mid _ T4) as M5.
  (* the state before [a] *)
  assert (Eb : process (pre ++ t :: mid) t0 =
               (fst (process mid (fst (step t (fst (process pre t0))))),
                (snd (process pre t0)
                 ++ snd (step t (fst (process pre t0)))
                 ++ snd (process mid (fst (step t (fst (process pre t0))))))%list)).
  { rewrite process_app, process_cons. reflexivity. }
  assert (Et : trace (pre ++ t :: mid) t0 =
               repeat false (length (pre ++ t :: mid))).
  { rewrite trace_app. cbn [answer_trace]. rewrite P4, M4, T1, P2.
    change (answer_started t0) with false.
    rewrite length_app. cbn [length].
    rewrite repeat_app. reflexivity. }
  cbv zeta. rewrite Eb. cbn [fst snd].
  set (tb := fst (process mid (fst (step t (fst (process pre t0)))))) in *.
  assert (Hn : answer_started tb = false).
  { rewrite M2, T1, P2. reflexivity. }
  pose proof (step_flush a tb Ha M1 Hn M5) as Ef.
  destruct (quiet_after_answer post (set_answer_started true tb) eq_refl)
    as (A1 & A2 & A3).
  assert (Eall : process ((pre ++ t :: mid) ++ a :: post) t0 =
                 (fst (process post (set_answer_started true tb)),
                  (snd (process (pre ++ t :: mid) t0)
                   ++ snd (step a tb)
                   ++ snd (process post (set_answer_started true tb)))%list)).
  { rewrite process_app, process_cons, Eb. cbn [fst snd].
    fold tb. rewrite Ef. reflexivity. }
  replace (pre ++ t :: mid ++ a :: post)%list
    with ((pre ++ t :: mid) ++ a :: post)%list
    by (rewrite <- app_assoc; reflexivity).
  rewrite Eall, Eb, Ef. cbn [fst snd].
  split; [now rewrite <- !app_assoc|].
  split; [now rewrite !count_trajectory_app, P3, T2, M3|].
  split; [exact A2|].
  split.
  - rewrite !count_trajectory_app, P3, T2, M3, emit_status_no_trajectory.
    cbn [count_trajectory filter is_trajectory length].
    fold (count_trajectory (yield_part_texts (artifact_parts_of a))).
    now rewrite yield_part_texts_no_trajectory, A2.
  - rewrite trace_app, Et, Eb. cbn [fst answer_trace]. fold tb.
    rewrite Ef. cbn [fst answer_started set_answer_started repeat].
    now rewrite A3.
Qed.

(** C6 (amended). An error event makes the interpreter yield exactly one
    item, the text "**Error:** " followed by the message of the error
    ("Unknown error" if it has none), and changes nothing else: the events
    after it are handled as if it had not occurred. *)
Theorem error_event_yields_one_error (before after : list SseLine)
    (data : Data) (t : AgentTree) :
  is_error_event data = true ->
  process (before ++ DataLine (Some data) :: after) t =
    (fst (process (before ++ after) t),
     (snd (process before t)
      ++ YieldError
           ("**Error:** "
            ++ or_default (md_get error_message (error data)) "Unknown error")
         :: snd (process after (fst (process before t))))%list).
Proof.
  intros He. unfold is_error_event in He.
  destruct (result data) eqn:Hr; [discriminate|].
  destruct (error data) as [e|] eqn:Hd; [|discriminate].
  rewrite !process_app, process_cons. cbn [fst snd].
  unfold handle_line, _handle_sse_event. rewrite Hr, Hd. reflexivity.
Qed.

(** ** Hidden parts *)

Lemma agent_end_part_hidden (part : Part) :
  agent_end_part part = _is_hidden_event (snd (_get_part_info part)).
Proof.
  unfold agent_end_part, _is_hidden_event, _HIDDEN_EVENT_TYPES, Str.mem.
  destruct (snd (_get_part_info part)) as [m|]; [|reflexivity].
  destruct (event_type m) as [et|]; cbn [or_default existsb];
    [now rewrite orb_false_r|reflexivity].
Qed.

Lemma status_part_agent_end (owner : option string) (t : AgentTree)
    (part : Part) :
  agent_end_part part = true ->
  status_part event_emitter owner t part = (t, []).
Proof.
  rewrite agent_end_part_hidden. unfold status_part.
  destruct (_get_part_info part) as [[text|] md]; cbn [snd]; [|reflexivity].
  intros ->. now destruct (Str.truthy text).
Qed.

Lemma status_parts_without_agent_end (owner : option string)
    (ps : list Part) :
  forall t,
    status_parts event_emitter owner t
      (filter (fun part => negb (agent_end_part part)) ps)
    = status_parts event_emitter owner t ps.
Proof.
  induction ps as [|p ps IH]; intros t; [reflexivity|].
  cbn [filter]. destruct (agent_end_part p) eqn:E; cbn [negb].
  - cbn [status_parts]. rewrite (status_part_agent_end _ _ _ E), IH.
    now destruct (status_parts event_emitter owner t ps).
  - cbn [status_parts].
    destruct (status_part event_emitter owner t p) as [t1 out1].
    now rewrite IH.
Qed.

Lemma without_agent_end_parts (p : Payload) :
  kind_is "status-update" p = true ->
  message_parts (md_get message (status (without_agent_end p))) =
    filter (fun part => negb (agent_end_part part))
      (message_parts (md_get message (status p))).
Proof.
  intros Hk. unfold without_agent_end. rewrite Hk. cbn [status].
  destruct (status p) as [st|]; [|reflexivity]. cbn [md_get message].
  destruct (message st); reflexivity.
Qed.

Lemma without_agent_end_fields (p : Payload) :
  payload_kind (without_agent_end p) = payload_kind p /\
  md_get state (status (without_agent_end p)) = md_get state (status p) /\
  agentName (without_agent_end p) = agentName p /\
  taskId (without_agent_end p) = taskId p.
Proof.
  unfold without_agent_end. destruct (kind_is "status-update" p); auto.
  cbn. destruct (status p); auto.
Qed.

Lemma without_agent_end_other (p : Payload) :
  kind_is "status-update" p = false -> without_agent_end p = p.
Proof. intros Hk. unfold without_agent_end. now rewrite Hk. Qed.

Lemma extract_without_agent_end (p : Payload) (t : AgentTree) :
  _extract_from_result event_emitter duration_1f (without_agent_end p) t
  = _extract_from_result event_emitter duration_1f p t.
Proof.
  destruct (kind_is "status-update" p) eqn:Hk.
  - unfold _extract_from_result.
    assert (Hkind : forall k, kind_is k (without_agent_end p) = kind_is k p).
    { intros k. unfold kind_is.
      now rewrite (proj1 (without_agent_end_fields p)). }
    rewrite !Hkind, Hk.
    rewrite !(kind_is_exclusive _ _ _ Hk) by discriminate.
    rewrite (without_agent_end_parts _ Hk).
    apply status_parts_without_agent_end.
  - unfold without_agent_end. now rewrite Hk.
Qed.

Lemma handle_line_without_agent_end (line : SseLine) (t : AgentTree) :
  step (hide_agent_end line) t = step line t.
Proof.
  destruct line as [| |[data|]]; try reflexivity.
  unfold hide_agent_end, handle_line, _handle_sse_event.
  cbn [result error event].
  destruct (result data) as [r|]; cbn [option_map].
  - apply extract_without_agent_end.
  - destruct (error data); [reflexivity|]. cbv zeta.
    destruct (kind_is "status-update" (event data)) eqn:Hk.
    + assert (Hkind : forall k,
                kind_is k (without_agent_end (event data))
                = kind_is k (event data)).
      { intros k. unfold kind_is.
        now rewrite (proj1 (without_agent_end_fields (event data))). }
      rewrite !Hkind, Hk.
      destruct (without_agent_end_fields (event data)) as (_ & -> & -> & ->).
      rewrite (without_agent_end_parts _ Hk).
      apply status_parts_without_agent_end.
    + rewrite (without_agent_end_other _ Hk), Hk. reflexivity.
Qed.

(** ** Parts that are sent as text *)

Lemma In_yield_part_texts (ps : list Part) (part : Part) (s : string) :
  In part ps -> _get_part_text part = Some s -> Str.truthy s = true ->
  In (YieldText s) (yield_part_texts ps).
Proof.
  intros Hin Hs Ht. unfold yield_part_texts. apply in_flat_map.
  exists part. split; [exact Hin|]. rewrite Hs, Ht. now left.
Qed.

Lemma step_message (line : SseLine) (t : AgentTree) :
  is_message line = true ->
  step line t = (t, yield_part_texts (message_parts_of line)).
Proof.
  unfold is_message, message_parts_of.
  destruct line as [| |[data|]]; try discriminate.
  cbn [handled_payload handle_line]. unfold _handle_sse_event.
  destruct (result data) as [r|].
  - intros Hm. unfold _extract_from_result. now rewrite Hm.
  - destruct (error data); [discriminate|]. intros Hm. cbv zeta.
    rewrite !(kind_is_exclusive _ _ _ Hm) by discriminate.
    now rewrite Hm.
Qed.

Lemma step_artifact_update (line : SseLine) (t : AgentTree) :
  is_artifact_update line = true ->
  snd (step line t)
  = (snd (answer_starts event_emitter duration_1f t)
     ++ yield_part_texts (artifact_parts_of line))%list.
Proof.
  intros Ha. destruct (step line t) as [t' out] eqn:E.
  apply handle_line_spec in E as (_ & _ & _ & D).
  specialize (D Ha). now injection D as -> ->.
Qed.

Lemma In_process (lines : list SseLine) (line : SseLine) (o : Output) :
  In line lines ->
  (forall t, In o (snd (step line t))) ->
  forall t, In o (snd (process lines t)).
Proof.
  intros Hl Ho t. apply in_split in Hl as (l1 & l2 & ->).
  rewrite process_app, process_cons. cbn [fst snd].
  apply in_or_app. right. apply in_or_app. left. apply Ho.
Qed.

(** C7 (amended). In a status-update event, a part whose metadata has the
    event type "agent_end" contributes to nothing: removing these parts from
    the status-update events of a sequence changes neither what the
    interpreter sends (status notifications, trajectory, text) nor the state
    it ends in (the recorded trajectory included).  In an artifact-update
    and in a message event, bare or as a JSON-RPC result, every part with a
    non-empty text has its text sent as live text, whatever its metadata
    is, the event type "agent_end" included. *)
Theorem agent_end_hidden_in_status_updates (lines : list SseLine) :
  (forall t, process (map hide_agent_end lines) t = process lines t) /\
  (forall t line part s,
     In line lines ->
     (is_artifact_update line = true /\ In part (artifact_parts_of line)) \/
     (is_message line = true /\ In part (message_parts_of line)) ->
     _get_part_text part = Some s ->
     Str.truthy s = true ->
     In (YieldText s) (snd (process lines t))).
Proof.
  split.
  - induction lines as [|line lines IH]; intros t; [reflexivity|].
    cbn [map]. rewrite !process_cons, handle_line_without_agent_end.
    now rewrite IH.
  - intros t line part s Hl Hp Hs Ht. revert t.
    apply (In_process lines line); [exact Hl|]. intros t.
    destruct Hp as [[Ha Hp]|[Hm Hp]].
    + rewrite (step_artifact_update _ _ Ha).
      apply in_or_app. right. now apply (In_yield_part_texts _ part).
    + rewrite (step_message _ _ Hm). cbn [snd].
      now apply (In_yield_part_texts _ part).
Qed.

End Interpreter.

(** ** Instances and counterexamples *)

(** Scenario D: two status notifications, the completion, the trajectory
    block, then the answer. *)
Example scenario_D_output :
  exists section,
    snd (_process_sse_stream true "0.0" scenario_D (new_agent_tree "auto")) =
      [EmitStatus "Analyzing..." false;
       EmitStatus "Calling search" false;
       EmitStatus "Completed" true;
       YieldTrajectory section;
       YieldText "answer"].
Proof. eexists. vm_compute. reflexivity. Qed.

Lemma trajectory_single_flush_witness :
  artifact_after_thinking false scenario_D = true /\
  count_trajectory
    (snd (_process_sse_stream true "0.0" scenario_D (new_agent_tree "auto")))
  = 1%nat.
Proof.
  split; [reflexivity|].
  destruct (trajectory_single_flush true "0.0" "auto" scenario_D eq_refl)
    as (pre & t & mid & a & post & _ & _ & _ & _ & _ & _ & _ & _ & H & _).
  exact H.
Defined.

(** C2 as stated fails: an artifact-update event that precedes the first
    thinking event has its text sent before the trajectory item. *)
Lemma early_artifact_text_precedes_trajectory :
  artifact_after_thinking false early_artifact = true /\
  exists section,
    snd (_process_sse_stream true "0.0" early_artifact (new_agent_tree "auto"))
    = [YieldText "early";
       EmitStatus "Analyzing..." false;
       EmitStatus "Completed" true;
       YieldTrajectory section;
       YieldText "answer"].
Proof. split; [reflexivity|]. eexists. vm_compute. reflexivity. Qed.

Lemma error_event_yields_one_error_witness :
  is_error_event (error_data "boom") = true /\
  _process_sse_stream true "0.0"
    (scenario_D ++ error_event "boom" :: [message_event [text_part "later" None]])
    (new_agent_tree "auto") =
  (fst (_process_sse_stream true "0.0"
          (scenario_D ++ [message_event [text_part "later" None]])
          (new_agent_tree "auto")),
   (snd (_process_sse_stream true "0.0" scenario_D (new_agent_tree "auto"))
    ++ YieldError "**Error:** boom"
       :: snd (_process_sse_stream true "0.0"
                 [message_event [text_part "later" None]]
                 (fst (_process_sse_stream true "0.0" scenario_D
                         (new_agent_tree "auto")))))%list).
Proof.
  split; [reflexivity|].
  apply (error_event_yields_one_error true "0.0" scenario_D
           [message_event [text_part "later" None]] (error_data "boom")
           (new_agent_tree "auto")).
  reflexivity.
Defined.

(** C6 as stated fails: the event after an error event is still consumed
    and contributes its text. *)
Lemma stream_continues_after_error :
  snd (_process_sse_stream true "0.0"
         [error_event "boom"; message_event [text_part "later" None]]
         (new_agent_tree "auto"))
  = [YieldError "**Error:** boom"; YieldText "later"].
Proof. reflexivity. Qed.

(** C7 as stated fails: carried by an artifact-update or a message event, the
    text of an "agent_end" part is sent as live text. *)
Lemma agent_end_text_shown_outside_status_updates :
  agent_end_part (text_part "done" (meta "agent_end")) = true /\
  snd (_process_sse_stream true "0.0"
         [artifact_event [text_part "done" (meta "agent_end")];
          message_event [text_part "bye" (meta "agent_end")];
          status_event [text_part "hidden" (meta "agent_end")]]
         (new_agent_tree "auto"))
  = [YieldText "done"; YieldText "bye"].
Proof. split; reflexivity. Qed.

(** Two "agent_end" parts, one in a bare message event and one in an
    artifact-update that is a JSON-RPC result, next to one in a status
    update. *)
Lemma agent_end_hidden_in_status_updates_witness :
  agent_end_part (text_part "bye" (meta "agent_end")) = true /\
  map hide_agent_end
    [status_event [text_part "hidden" (meta "agent_end")];
     message_event [text_part "bye" (meta "agent_end")]]
  = [status_event []; message_event [text_part "bye" (meta "agent_end")]] /\
  _process_sse_stream true "0.0"
    [status_event []; message_event [text_part "bye" (meta "agent_end")]]
    (new_agent_tree "auto")
  = _process_sse_stream true "0.0"
      [status_event [text_part "hidden" (meta "agent_end")];
       message_event [text_part "bye" (meta "agent_end")]]
      (new_agent_tree "auto") /\
  In (YieldText "bye")
    (snd (_process_sse_stream true "0.0"
            [status_event [text_part "hidden" (meta "agent_end")];
             message_event [text_part "bye" (meta "agent_end")]]
            (new_agent_tree "auto"))).
Proof.
  split; [reflexivity|]. split; [reflexivity|].
  destruct (agent_end_hidden_in_status_updates true "0.0"
              [status_event [text_part "hidden" (meta "agent_end")];
               message_event [text_part "bye" (meta "agent_end")]])
    as [Hhide Hsent].
  split; [exact (Hhide (new_agent_tree "auto"))|].
  apply (Hsent (new_agent_tree "auto")
           (message_event [text_part "bye" (meta "agent_end")])
           (text_part "bye" (meta "agent_end")) "bye").
  - right. now left.
  - right. split; [reflexivity|now left].
  - reflexivity.
  - reflexivity.
Defined.

End PipeProperties.

(** * Routing: further properties *)

Lemma dict_get_In {V : Type} (k : string) (d : list (string * V)) (v : V) :
  dict_get k d = Some v -> In (k, v) d.
Proof.
  induction d as [|[k' v'] d IH]; simpl; [discriminate|].
  destruct (String.eqb_spec k k') as [->|Hne].
  - intros [= ->]. now left.
  - intros H. right. auto.
Qed.

Lemma dict_get_NoDup {V : Type} (k : string) (d : list (string * V)) (v : V) :
  NoDup (map fst d) -> In (k, v) d -> dict_get k d = Some v.
Proof.
  induction d as [|[k' v'] d IH]; simpl; [tauto|].
  intros Hnd [H|H].
  - injection H as -> ->. now rewrite String.eqb_refl.
  - inversion Hnd as [|? ? Hnotin Hnd']; subst.
    destruct (String.eqb_spec k k') as [->|Hne]; [|auto].
    exfalso. apply Hnotin. apply (in_map fst) in H. exact H.
Qed.

Lemma In_NoDup_unique {V : Type} (k : string) (d : list (string * V))
    (v1 v2 : V) :
  NoDup (map fst d) -> In (k, v1) d -> In (k, v2) d -> v1 = v2.
Proof.
  intros Hnd H1 H2.
  apply (dict_get_NoDup _ _ _ Hnd) in H1, H2. congruence.
Qed.

(** The head of a list sorted by descending score has the highest score. *)
Lemma sort_desc_head_max {A : Type} (key : A -> Q) (l : list A) :
  forall h t,
    sort_desc Qltb key l = h :: t ->
    forall x, In x l -> key x <= key h.
Proof.
  induction l as [|a l IH]; intros h t E x Hx; [destruct Hx|].
  cbn [sort_desc fold_right] in E.
  fold (sort_desc Qltb key l) in E.
  destruct (sort_desc Qltb key l) as [|h' t'] eqn:Es.
  - cbn in E. injection E as Eh Et. subst h t.
    destruct Hx as [<-|Hx]; [apply Qle_refl|].
    apply (In_sort_desc Qltb key) in Hx. rewrite Es in Hx. destruct Hx.
  - cbn [insert_desc] in E. unfold Qltb in E.
    destruct (Qle_bool (key h') (key a)) eqn:Ec; cbn [negb] in E;
      injection E as Eh Et; subst h t.
    + apply Qle_bool_iff in Ec.
      destruct Hx as [<-|Hx]; [apply Qle_refl|].
      apply Qle_trans with (key h'); [|exact Ec]. now apply (IH h' t').
    + destruct Hx as [<-|Hx]; [|now apply (IH h' t')].
      destruct (Qlt_le_dec (key a) (key h')) as [Hlt|Hle];
        [now apply Qlt_le_weak|].
      apply Qle_bool_iff in Hle. congruence.
Qed.

(** Stable sorting by a strict weak order commutes with filtering. *)
Section SortFilter.
Context {A K : Type}.
Variable ltb : K -> K -> bool.
Variable key : A -> K.
Variable keep : A -> bool.
Hypothesis ltb_asym : forall a b, ltb a b = true -> ltb b a = false.
Hypothesis ltb_negtrans :
  forall a b c, ltb a b = false -> ltb b c = false -> ltb a c = false.

Local Abbreviation above := (fun x y : A => ltb (key x) (key y) = false).

Lemma insert_desc_sorted (x : A) (l : list A) :
  StronglySorted above l -> StronglySorted above (insert_desc ltb key x l).
Proof.
  induction l as [|y l IH]; intros Hs; cbn [insert_desc].
  - repeat constructor.
  - inversion Hs as [|? ? Hl Hy]; subst.
    destruct (ltb (key x) (key y)) eqn:E.
    + constructor; [auto|].
      apply Forall_forall. intros z Hz.
      apply In_insert_desc in Hz as [->|Hz].
      * now apply ltb_asym.
      * rewrite Forall_forall in Hy. now apply Hy.
    + constructor; [exact Hs|].
      constructor; [exact E|].
      rewrite Forall_forall in Hy |- *. intros z Hz.
      apply ltb_negtrans with (key y); [exact E|now apply Hy].
Qed.

Lemma sort_desc_sorted (l : list A) :
  StronglySorted above (sort_desc ltb key l).
Proof.
  induction l as [|a l IH]; [constructor|].
  cbn [sort_desc fold_right]. now apply insert_desc_sorted.
Qed.

Lemma insert_desc_front (x : A) (l : list A) :
  Forall (above x) l -> insert_desc ltb key x l = x :: l.
Proof.
  destruct l as [|y l]; [reflexivity|].
  intros H. inversion H as [|? ? Hy _]; subst.
  cbn [insert_desc]. cbv beta in Hy. now rewrite Hy.
Qed.

Lemma filter_insert_desc (x : A) (l : list A) :
  StronglySorted above l ->
  filter keep (insert_desc ltb key x l) =
    if keep x then insert_desc ltb key x (filter keep l) else filter keep l.
Proof.
  induction l as [|y l IH]; intros Hs; cbn [insert_desc filter].
  - now destruct (keep x).
  - inversion Hs as [|? ? Hl Hy]; subst.
    destruct (ltb (key x) (key y)) eqn:E; cbn [filter].
    + rewrite (IH Hl).
      destruct (keep y), (keep x); cbn [insert_desc]; rewrite ?E; reflexivity.
    + destruct (keep x) eqn:Ex; [|reflexivity].
      rewrite insert_desc_front; [reflexivity|].
      apply Forall_forall. intros z Hz.
      assert (Hz' : In z (y :: l)).
      { destruct (keep y); [|right]; cbn [filter] in Hz.
        - destruct Hz as [<-|Hz]; [now left|right].
          now apply filter_In in Hz.
        - now apply filter_In in Hz. }
      destruct Hz' as [<-|Hz']; [exact E|].
      rewrite Forall_forall in Hy.
      apply ltb_negtrans with (key y); [exact E|now apply Hy].
Qed.

Lemma sort_desc_filter (l : list A) :
  sort_desc ltb key (filter keep l) = filter keep (sort_desc ltb key l).
Proof.
  induction l as [|a l IH]; [reflexivity|].
  cbn [filter sort_desc fold_right]. fold (sort_desc ltb key l).
  rewrite filter_insert_desc by apply sort_desc_sorted.
  destruct (keep a); [|exact IH].
  cbn [sort_desc fold_right]. fold (sort_desc ltb key (filter keep l)).
  now rewrite IH.
Qed.
End SortFilter.

Lemma In_firstn {A : Type} (n : nat) (l : list A) (x : A) :
  In x (firstn n l) -> In x l.
Proof.
  intros H. rewrite <- (firstn_skipn n l). apply in_or_app. now left.
Qed.

Section RoutingMore.
Variable lower : string -> string.
Variable re_search : string -> string -> re_outcome.

Lemma first_keyword_Some (ql : string) (kws : list string) (k : string) :
  first_keyword lower ql kws = Some k ->
  In k kws /\ Str.contains (lower k) ql = true.
Proof.
  induction kws as [|k' kws IH]; simpl; [discriminate|].
  destruct (Str.contains (lower k') ql) eqn:E.
  - intros [= ->]. auto.
  - intros H. destruct (IH H). auto.
Qed.

Lemma first_keyword_None (ql : string) (kws : list string) :
  first_keyword lower ql kws = None ->
  existsb (fun k => Str.contains (lower k) ql) kws = false.
Proof.
  induction kws as [|k' kws IH]; simpl; [reflexivity|].
  destruct (Str.contains (lower k') ql); [discriminate|]. auto.
Qed.

Lemma first_pattern_Some (q : string) (pats : list string) (p : string) :
  first_pattern re_search q pats = Some p ->
  In p pats /\ re_search p q = ReMatch.
Proof.
  induction pats as [|p' pats IH]; simpl; [discriminate|].
  destruct (re_search p' q) eqn:E.
  - intros [= ->]. auto.
  - intros H. destruct (IH H). auto.
  - intros H. destruct (IH H). auto.
Qed.

Lemma first_pattern_None (q : string) (pats : list string) :
  first_pattern re_search q pats = None ->
  existsb
    (fun p => match re_search p q with ReMatch => true | _ => false end)
    pats = false.
Proof.
  induction pats as [|p' pats IH]; simpl; [reflexivity|].
  destruct (re_search p' q); [discriminate| |]; auto.
Qed.

(** The candidates of one expert: none, or the one for its first matching
    keyword, or, if no keyword matches, the one for its first matching
    pattern. *)
Lemma expert_match_cases (q n : string) (cfg : AgentConfig) :
  (expert_match lower re_search q (n, cfg) = [] /\
   (status cfg <> ACTIVE \/
    keyword_matches lower q (routing_rules cfg) = false /\
    pattern_matches re_search q (routing_rules cfg) = false)) \/
  (status cfg = ACTIVE /\
   exists k,
     In k (keywords (routing_rules cfg)) /\
     Str.contains (lower k) (lower q) = true /\
     expert_match lower re_search q (n, cfg) = [keyword_candidate n cfg k]) \/
  (status cfg = ACTIVE /\
   keyword_matches lower q (routing_rules cfg) = false /\
   exists p,
     In p (patterns (routing_rules cfg)) /\
     re_search p q = ReMatch /\
     expert_match lower re_search q (n, cfg) = [pattern_candidate n cfg p]).
Proof.
  unfold expert_match, keyword_matches, pattern_matches.
  destruct (status cfg) eqn:Es; cbn [AgentStatus_eqb negb];
    try (left; split; [reflexivity|left; discriminate]).
  destruct (first_keyword lower (lower q) (keywords (routing_rules cfg)))
    as [k|] eqn:Ek.
  - right. left. split; [reflexivity|].
    apply first_keyword_Some in Ek as [Hin Hc]. exists k. auto.
  - apply first_keyword_None in Ek.
    destruct (first_pattern re_search q (patterns (routing_rules cfg)))
      as [p|] eqn:Ep.
    + right. right. split; [reflexivity|]. split; [exact Ek|].
      apply first_pattern_Some in Ep as [Hin Hm]. exists p. auto.
    + apply first_pattern_None in Ep. left. auto.
Qed.

(** Every ranked candidate is the keyword or the pattern candidate of an
    active expert of the catalog. *)
Lemma ranking_inv (agents : list (string * AgentConfig))
    (q : string) (c : Candidate) :
  In c (ranking lower re_search agents q) ->
  exists cfg,
    In (cand_name c, cfg) agents /\ status cfg = ACTIVE /\
    ((exists k,
        In k (keywords (routing_rules cfg)) /\
        Str.contains (lower k) (lower q) = true /\
        c = keyword_candidate (cand_name c) cfg k) \/
     (keyword_matches lower q (routing_rules cfg) = false /\
      exists p,
        In p (patterns (routing_rules cfg)) /\
        re_search p q = ReMatch /\
        c = pattern_candidate (cand_name c) cfg p)).
Proof.
  unfold ranking. rewrite In_sort_desc, in_flat_map.
  intros [[n cfg] [Hin Hc]].
  unfold sorted_agents in Hin. rewrite In_sort_desc in Hin.
  destruct (expert_match_cases q n cfg)
    as [[E _]|[(Hs & k & Hk & Hm & E)|(Hs & Hno & p & Hp & Hm & E)]];
    rewrite E in Hc; [destruct Hc| |]; destruct Hc as [<-|[]];
    exists cfg; cbn [cand_name keyword_candidate pattern_candidate fst];
    (split; [exact Hin|split; [exact Hs|]]).
  - left. exists k. auto.
  - right. split; [exact Hno|]. exists p. auto.
Qed.

(** The candidates are empty exactly when no active expert matches. *)
Lemma ranking_nil (agents : list (string * AgentConfig))
    (q : string) :
  ranking lower re_search agents q = [] ->
  no_active_match lower re_search agents q = true.
Proof.
  intros E. unfold no_active_match. apply forallb_forall.
  intros [n cfg] Hin. cbn [snd].
  destruct (expert_match_cases q n cfg)
    as [[_ [Hs|[Hk Hp]]]|[(Hs & k & _ & _ & Ec)|(Hs & _ & p & _ & _ & Ec)]].
  - destruct (status cfg); try reflexivity. congruence.
  - rewrite Hk, Hp. apply orb_true_r.
  - exfalso.
    assert (Hc : In (keyword_candidate n cfg k)
                   (ranking lower re_search agents q)).
    { unfold ranking. rewrite In_sort_desc, in_flat_map.
      exists (n, cfg). split.
      - unfold sorted_agents. now rewrite In_sort_desc.
      - rewrite Ec. now left. }
    rewrite E in Hc. destruct Hc.
  - exfalso.
    assert (Hc : In (pattern_candidate n cfg p)
                   (ranking lower re_search agents q)).
    { unfold ranking. rewrite In_sort_desc, in_flat_map.
      exists (n, cfg). split.
      - unfold sorted_agents. now rewrite In_sort_desc.
      - rewrite Ec. now left. }
    rewrite E in Hc. destruct Hc.
Qed.

(** What [route] returns, by the ranked candidates. *)
Lemma route_returns (self self' : OrchestratorAgent) (q : string)
    (r : RoutingResult) :
  route lower re_search q self = (Returns r, self') ->
  self' = self /\
  confidence_in_range (confidence r) = true /\
  ((ranking lower re_search (_agents self) q = [] /\
    r = {| selected_agent := _fallback_agent self;
           confidence := 0.5;
           routing_reason := "no_match:fallback";
           fallback_agents := [] |}) \/
   (exists c rest,
      ranking lower re_search (_agents self) q = c :: rest /\
      selected_agent r = cand_name c /\
      confidence r = cand_score c /\
      routing_reason r = cand_reason c /\
      fallback_agents r =
        (let fallbacks := map cand_name (firstn 2 rest) in
         if Str.truthy (_fallback_agent self)
            && negb (Str.mem (_fallback_agent self) fallbacks)
         then (fallbacks ++ [_fallback_agent self])%list
         else fallbacks))).
Proof.
  rewrite route_value.
  destruct (some_score_overflows lower re_search (_agents self) q);
    [discriminate|].
  unfold selection, new_RoutingResult.
  destruct (ranking lower re_search (_agents self) q)
    as [|[[sel conf] reason] rest].
  - cbn. intros [= <- <-]. auto.
  - destruct (confidence_in_range conf) eqn:Ev; [|discriminate].
    intros [= <- <-]. cbn [confidence]. split; [reflexivity|].
    split; [exact Ev|]. right. exists (sel, conf, reason), rest. auto.
Qed.

(** [route] returns only if no score overflows. *)
Lemma route_returns_no_overflow (self self' : OrchestratorAgent)
    (q : string) (r : RoutingResult) :
  route lower re_search q self = (Returns r, self') ->
  some_score_overflows lower re_search (_agents self) q = false.
Proof.
  rewrite route_value.
  destruct (some_score_overflows lower re_search (_agents self) q);
    [discriminate|reflexivity].
Qed.

Lemma expert_match_nonempty (q n : string) (cfg : AgentConfig) :
  status cfg = ACTIVE ->
  keyword_matches lower q (routing_rules cfg) = true
  \/ pattern_matches re_search q (routing_rules cfg) = true ->
  expert_match lower re_search q (n, cfg) <> [].
Proof.
  intros Hact Hm.
  destruct (expert_match_cases q n cfg)
    as [[_ [Hs|[Hk Hp]]]|[(_ & k & _ & _ & E)|(_ & _ & p & _ & _ & E)]];
    try (rewrite E; discriminate).
  - congruence.
  - destruct Hm; congruence.
Qed.

(** The scores of [route] are those of the source, computed without
    overflow, for every active expert that matches when [route] returns. *)
Lemma route_scores_computed (self self' : OrchestratorAgent)
    (q : string) (r : RoutingResult) (n : string) (cfg : AgentConfig) :
  route lower re_search q self = (Returns r, self') ->
  In (n, cfg) (_agents self) ->
  status cfg = ACTIVE ->
  keyword_matches lower q (routing_rules cfg) = true
  \/ pattern_matches re_search q (routing_rules cfg) = true ->
  keyword_score (priority (routing_rules cfg))
    = Returns (keyword_value (priority (routing_rules cfg))) /\
  pattern_score (priority (routing_rules cfg))
    = Returns (pattern_value (priority (routing_rules cfg))).
Proof.
  intros H Hin Hact Hm.
  pose proof (matching_priority_converts lower re_search _ _ _ _
                (route_returns_no_overflow _ _ _ _ H) Hin
                (expert_match_nonempty q n cfg Hact Hm)) as Hf.
  now rewrite keyword_score_value, pattern_score_value, Hf.
Qed.

(** The three kinds of result of [route]. *)
Lemma route_result_cases (self self' : OrchestratorAgent) (q : string)
    (r : RoutingResult) :
  route lower re_search q self = (Returns r, self') ->
  (ranking lower re_search (_agents self) q = [] /\
   confidence r = 0.5 /\ routing_reason r = "no_match:fallback") \/
  exists cfg,
    (exists k,
       confidence r = keyword_value (priority (routing_rules cfg)) /\
       routing_reason r = "keyword_match:" ++ k) \/
    (exists p,
       confidence r = pattern_value (priority (routing_rules cfg)) /\
       routing_reason r = "pattern_match:" ++ p).
Proof.
  intros H. apply route_returns in H as (_ & _ & [[E ->]|H]); [now left|].
  destruct H as (c & rest & E & _ & Hc & Hr & _). right.
  assert (Hin : In c (ranking lower re_search (_agents self) q))
    by (rewrite E; now left).
  apply ranking_inv in Hin as (cfg & _ & _ & Hkind).
  exists cfg. rewrite Hc, Hr.
  destruct c as [[n sc] rs].
  unfold keyword_candidate, pattern_candidate, cand_name, cand_score,
    cand_reason in *. cbn [fst snd] in *.
  destruct Hkind as [(k & _ & _ & Ec)|(_ & p & _ & _ & Ec)];
    injection Ec as -> ->; [left; exists k|right; exists p]; auto.
Qed.

(** What [route] returns, by the expert it stems from. *)
Lemma route_selected_inv (self self' : OrchestratorAgent)
    (q : string) (r : RoutingResult) :
  route lower re_search q self = (Returns r, self') ->
  (ranking lower re_search (_agents self) q = [] /\
   selected_agent r = _fallback_agent self /\
   routing_reason r = "no_match:fallback") \/
  exists cfg,
    In (selected_agent r, cfg) (_agents self) /\
    status cfg = ACTIVE /\
    ((exists k,
        In k (keywords (routing_rules cfg)) /\
        Str.contains (lower k) (lower q) = true /\
        routing_reason r = "keyword_match:" ++ k /\
        confidence r = keyword_value (priority (routing_rules cfg))) \/
     (keyword_matches lower q (routing_rules cfg) = false /\
      exists p,
        In p (patterns (routing_rules cfg)) /\
        re_search p q = ReMatch /\
        routing_reason r = "pattern_match:" ++ p /\
        confidence r = pattern_value (priority (routing_rules cfg)))).
Proof.
  intros H. apply route_returns in H as (_ & _ & [[E ->]|H]); [now left|].
  destruct H as (c & rest & E & Hs & Hc & Hr & _). right.
  assert (Hin : In c (ranking lower re_search (_agents self) q))
    by (rewrite E; now left).
  apply ranking_inv in Hin as (cfg & Hin & Hact & Hkind).
  exists cfg. rewrite Hs, Hc, Hr. split; [exact Hin|]. split; [exact Hact|].
  destruct c as [[n sc] rs].
  unfold keyword_candidate, pattern_candidate, cand_name, cand_score,
    cand_reason in *. cbn [fst snd] in *.
  destruct Hkind as [(k & Hk & Hm & Ec)|(Hno & p & Hp & Hm & Ec)];
    injection Ec as -> ->;
    [left; exists k|right; split; [exact Hno|]; exists p]; auto.
Qed.

Lemma reason_kinds_differ (k p : string) :
  "keyword_match:" ++ k <> "pattern_match:" ++ p /\
  "keyword_match:" ++ k <> "no_match:fallback" /\
  "pattern_match:" ++ p <> "no_match:fallback".
Proof. repeat split; discriminate. Qed.

(** X1. Whatever [route] returns is justified by the catalog: either it is
    the no-match fallback, or the selected agent is an active expert of the
    catalog and the routing reason names a rule of this expert that does
    match the query - one of its keywords, with the keyword score as
    confidence, or, if none of its keywords matches, one of its patterns,
    with the pattern score. *)
Theorem route_result_justified (self self' : OrchestratorAgent)
    (q : string) (r : RoutingResult) :
  route lower re_search q self = (Returns r, self') ->
  (selected_agent r = _fallback_agent self /\
   routing_reason r = "no_match:fallback") \/
  exists cfg,
    In (selected_agent r, cfg) (_agents self) /\
    status cfg = ACTIVE /\
    ((exists k,
        In k (keywords (routing_rules cfg)) /\
        Str.contains (lower k) (lower q) = true /\
        routing_reason r = "keyword_match:" ++ k /\
        keyword_score (priority (routing_rules cfg))
          = Returns (confidence r)) \/
     (keyword_matches lower q (routing_rules cfg) = false /\
      exists p,
        In p (patterns (routing_rules cfg)) /\
        re_search p q = ReMatch /\
        routing_reason r = "pattern_match:" ++ p /\
        pattern_score (priority (routing_rules cfg))
          = Returns (confidence r))).
Proof.
  intros H.
  destruct (route_selected_inv _ _ _ _ H)
    as [(_ & Hs & Hr)|(cfg & Hin & Hact & Hkind)]; [left; auto|right].
  exists cfg. split; [exact Hin|]. split; [exact Hact|].
  destruct Hkind as [(k & Hk & Hm & Hr & Hc)|(Hno & p & Hp & Hm & Hr & Hc)].
  - left. exists k. repeat split; auto. rewrite Hc.
    apply (route_scores_computed _ _ _ _ _ _ H Hin Hact). left.
    unfold keyword_matches. apply existsb_exists. exists k. auto.
  - right. split; [exact Hno|]. exists p. repeat split; auto. rewrite Hc.
    apply (route_scores_computed _ _ _ _ _ _ H Hin Hact). right.
    unfold pattern_matches. apply existsb_exists. exists p.
    split; [exact Hp|]. now rewrite Hm.
Qed.

(** X2. The confidence that [route] returns lies between 0 and 0.99, and
    a pattern match never has more than 0.89. *)
Theorem route_confidence_bounds (self self' : OrchestratorAgent)
    (q : string) (r : RoutingResult) :
  route lower re_search q self = (Returns r, self') ->
  0 <= confidence r /\ confidence r <= 0.99 /\
  (forall p, routing_reason r = "pattern_match:" ++ p -> confidence r <= 0.89).
Proof.
  intros H. pose proof (route_returns _ _ _ _ H) as (_ & Hv & _).
  apply andb_true_iff in Hv as [Hv _]. apply Qle_bool_iff in Hv.
  split; [exact Hv|].
  destruct (route_result_cases _ _ _ _ H) as [(_ & Hc & Hr)|(cfg & [(k & Hc & Hr)|(p & Hc & Hr)])];
    rewrite Hc, Hr.
  - split; [unfold Qle; cbn; lia|]. intros p Hp. discriminate.
  - split.
    + rewrite keyword_value_closed. unfold Qle. cbn [Qnum Qden]. lia.
    + intros p Hp. discriminate.
  - split; [|intros _ _];
      rewrite pattern_value_closed; unfold Qle; cbn [Qnum Qden]; lia.
Qed.

(** X3. [route] falls back to the fallback agent only if no active expert
    of the catalog matches the query. *)
Theorem route_no_match_only_if_nothing_matches
    (self self' : OrchestratorAgent) (q : string) (r : RoutingResult) :
  route lower re_search q self = (Returns r, self') ->
  routing_reason r = "no_match:fallback" ->
  no_active_match lower re_search (_agents self) q = true.
Proof.
  intros H Hr.
  destruct (route_result_cases _ _ _ _ H)
    as [(E & _)|(cfg & [(k & _ & Hk)|(p & _ & Hp)])].
  - now apply ranking_nil.
  - rewrite Hr in Hk. discriminate.
  - rewrite Hr in Hp. discriminate.
Qed.

(** X4. Keyword beats pattern: if the expert that [route] selects is active
    and one of its keywords matches the query, the routing reason is a
    keyword match, whether or not one of its patterns matches too. *)
Theorem keyword_beats_pattern (self self' : OrchestratorAgent) (q : string)
    (r : RoutingResult) (cfg : AgentConfig) :
  NoDup (map fst (_agents self)) ->
  route lower re_search q self = (Returns r, self') ->
  In (selected_agent r, cfg) (_agents self) ->
  status cfg = ACTIVE ->
  keyword_matches lower q (routing_rules cfg) = true ->
  exists k,
    In k (keywords (routing_rules cfg)) /\
    routing_reason r = "keyword_match:" ++ k.
Proof.
  intros Hnd H Hin Hact Hk.
  destruct (route_selected_inv _ _ _ _ H)
    as [(E & _)|(cfg' & Hin' & _ & Hkind)].
  - apply ranking_nil in E.
    unfold no_active_match in E. rewrite forallb_forall in E.
    specialize (E _ Hin). cbn [snd] in E.
    rewrite Hact, Hk in E. discriminate.
  - assert (cfg' = cfg) by (eapply In_NoDup_unique; eauto). subst cfg'.
    destruct Hkind as [(k & Hkin & _ & Hr & _)|(Hno & _)].
    + exists k. auto.
    + congruence.
Qed.

Lemma available_agents_In (self : OrchestratorAgent) (n : string)
    (cfg : AgentConfig) :
  In (n, cfg) (_agents self) -> status cfg = ACTIVE ->
  In n (available_agents self).
Proof.
  intros Hin Hact. unfold available_agents.
  change n with (fst (n, cfg)). apply in_map, filter_In.
  split; [exact Hin|]. unfold is_active. cbn [snd]. now rewrite Hact.
Qed.

(** The candidate of an active expert that matches is among the ranked
    candidates. *)
Lemma ranking_complete (agents : list (string * AgentConfig))
    (q n : string) (cfg : AgentConfig) :
  In (n, cfg) agents -> status cfg = ACTIVE ->
  (keyword_matches lower q (routing_rules cfg) = true ->
   exists k,
     In (keyword_candidate n cfg k)
       (ranking lower re_search agents q)) /\
  (keyword_matches lower q (routing_rules cfg) = false ->
   pattern_matches re_search q (routing_rules cfg) = true ->
   exists p,
     In (pattern_candidate n cfg p)
       (ranking lower re_search agents q)).
Proof.
  intros Hin Hact.
  assert (Hc : forall c,
            expert_match lower re_search q (n, cfg) = [c] ->
            In c (ranking lower re_search agents q)).
  { intros c Ec. unfold ranking.
    rewrite In_sort_desc, in_flat_map. exists (n, cfg). split.
    - unfold sorted_agents. now rewrite In_sort_desc.
    - rewrite Ec. now left. }
  destruct (expert_match_cases q n cfg)
    as [[_ [Hs|[Hk Hp]]]|[(_ & k & Hk & Hm & Ec)|(_ & Hno & p & _ & _ & Ec)]].
  - congruence.
  - split; intros; congruence.
  - split; [intros _; exists k; auto|].
    intros Hno. exfalso. unfold keyword_matches in Hno.
    assert (Ht : existsb (fun k => Str.contains (lower k) (lower q))
                   (keywords (routing_rules cfg)) = true)
      by (apply existsb_exists; exists k; auto).
    congruence.
  - split; [congruence|]. intros _ _. exists p. auto.
Qed.

(** X5. [route] selects a candidate of highest score: no active expert that
    matches the query has a score above the confidence returned. *)
Theorem route_selects_highest_score (self self' : OrchestratorAgent)
    (q : string) (r : RoutingResult) (n : string) (cfg : AgentConfig) :
  route lower re_search q self = (Returns r, self') ->
  In (n, cfg) (_agents self) ->
  status cfg = ACTIVE ->
  (keyword_matches lower q (routing_rules cfg) = true ->
   exists score,
     keyword_score (priority (routing_rules cfg)) = Returns score /\
     score <= confidence r) /\
  (keyword_matches lower q (routing_rules cfg) = false ->
   pattern_matches re_search q (routing_rules cfg) = true ->
   exists score,
     pattern_score (priority (routing_rules cfg)) = Returns score /\
     score <= confidence r).
Proof.
  intros H Hin Hact.
  pose proof (route_scores_computed _ _ _ _ _ _ H Hin Hact) as Hscores.
  assert (Hmax : forall c,
            In c (ranking lower re_search (_agents self) q) ->
            cand_score c <= confidence r).
  { intros c Hc.
    apply route_returns in H as (_ & _ & [[E _]|(h & rest & E & _ & -> & _)]).
    - rewrite E in Hc. destruct Hc.
    - unfold ranking in E, Hc. rewrite In_sort_desc in Hc.
      exact (sort_desc_head_max cand_score _ _ _ E _ Hc). }
  destruct (ranking_complete (_agents self) q n cfg Hin Hact)
    as [Hk Hp].
  split.
  - intros Hm. destruct (Hk Hm) as [k Hc].
    exists (keyword_value (priority (routing_rules cfg))).
    split; [apply Hscores; now left|exact (Hmax _ Hc)].
  - intros Hno Hm. destruct (Hp Hno Hm) as [p Hc].
    exists (pattern_value (priority (routing_rules cfg))).
    split; [apply Hscores; now right|exact (Hmax _ Hc)].
Qed.

Lemma ranking_active (agents : list (string * AgentConfig))
    (q : string) :
  ranking lower re_search (filter is_active agents) q =
  ranking lower re_search agents q.
Proof.
  unfold ranking, sorted_agents. f_equal.
  rewrite sort_desc_filter.
  - induction (sort_desc Z.ltb
                 (fun x => priority (routing_rules (snd x))) agents)
      as [|[n cfg] l IH]; [reflexivity|].
    cbn [filter flat_map]. unfold is_active at 1. cbn [snd].
    destruct (AgentStatus_eqb (status cfg) ACTIVE) eqn:E.
    + cbn [flat_map]. now rewrite IH.
    + rewrite IH. unfold expert_match at 2. now rewrite E.
  - intros a b Hab. apply Z.ltb_lt in Hab. apply Z.ltb_ge. lia.
  - intros a b c Hab Hbc.
    apply Z.ltb_ge in Hab, Hbc. apply Z.ltb_ge. lia.
Qed.

Lemma overflow_active (agents : list (string * AgentConfig)) (q : string) :
  some_score_overflows lower re_search (filter is_active agents) q =
  some_score_overflows lower re_search agents q.
Proof.
  unfold some_score_overflows.
  induction agents as [|[n cfg] l IH]; [reflexivity|].
  cbn [filter existsb]. unfold is_active at 1. cbn [snd].
  destruct (AgentStatus_eqb (status cfg) ACTIVE) eqn:E.
  - cbn [existsb]. now rewrite IH.
  - rewrite IH. unfold score_overflows at 2, expert_match. now rewrite E.
Qed.

(** X6. Experts that are not active are invisible to rule-based routing:
    [route] gives the same outcome over the catalog and over its active
    experts alone. *)
Theorem route_ignores_inactive (agents : list (string * AgentConfig))
    (fallback q : string) :
  fst (route lower re_search q
         {| _agents := filter is_active agents; _fallback_agent := fallback |})
  = fst (route lower re_search q
           {| _agents := agents; _fallback_agent := fallback |}).
Proof.
  rewrite !route_value. cbn [fst _agents].
  rewrite ranking_active, overflow_active. reflexivity.
Qed.

(** X7. Without an override - no handoff context, no context data, no
    "target_agent" in it, or an empty one - [smart_route] does what [route]
    does. *)
Theorem smart_route_without_override (self : OrchestratorAgent)
    (q : string) (hc : option HandoffContext) :
  override_of hc = None \/ override_of hc = Some "" ->
  smart_route lower re_search q hc self = route lower re_search q self.
Proof.
  intros Hov. unfold smart_route, bind.
  destruct (route_by_parameter_cases self hc) as [E|(r & E & Hov' & Hne & _)];
    rewrite E; [reflexivity|].
  destruct Hov as [Hov|Hov]; rewrite Hov in Hov'; [discriminate|].
  injection Hov' as Hs. congruence.
Qed.

(** X8. [smart_route] never selects an expert that is unknown or not
    active: the selected agent is one of [available_agents], or it is the
    fallback agent of a no-match result. *)
Theorem smart_route_selects_available_or_fallback
    (self self' : OrchestratorAgent) (q : string)
    (hc : option HandoffContext) (r : RoutingResult) :
  smart_route lower re_search q hc self = (Returns r, self') ->
  In (selected_agent r) (available_agents self) \/
  (selected_agent r = _fallback_agent self /\
   routing_reason r = "no_match:fallback").
Proof.
  unfold smart_route, bind.
  destruct (route_by_parameter_cases self hc) as [E|(r' & E & _ & _ & Hus)];
    rewrite E.
  - intros H.
    destruct (route_selected_inv _ _ _ _ H)
      as [(_ & Hs & Hr)|(cfg & Hin & Hact & _)]; [now right|left].
    now apply (available_agents_In self _ cfg).
  - unfold ret. intros [= <- <-]. left.
    unfold override_unusable in Hus.
    destruct (dict_get (selected_agent r') (_agents self)) as [cfg|] eqn:Eg;
      [|discriminate].
    apply dict_get_In in Eg. apply (available_agents_In self _ cfg Eg).
    destruct (status cfg); cbn in Hus; congruence.
Qed.

(** X9. The fallback list of [route] has at most three names, each of them
    an available agent or the configured fallback agent; when an expert was
    selected by a rule and a fallback agent is configured, the list contains
    the fallback agent. *)
Theorem route_fallback_list (self self' : OrchestratorAgent) (q : string)
    (r : RoutingResult) :
  route lower re_search q self = (Returns r, self') ->
  (length (fallback_agents r) <= 3)%nat /\
  (forall n, In n (fallback_agents r) ->
             n = _fallback_agent self \/ In n (available_agents self)) /\
  (routing_reason r <> "no_match:fallback" ->
   _fallback_agent self <> "" ->
   In (_fallback_agent self) (fallback_agents r)).
Proof.
  intros H.
  apply route_returns in H
    as (_ & _ & [[E ->]|(c & rest & E & _ & _ & _ & Hf)]).
  - cbn. repeat split; [lia|tauto|congruence].
  - cbv zeta in Hf.
    assert (Hlen : (length (map cand_name (firstn 2 rest)) <= 2)%nat).
    { rewrite length_map. apply firstn_le_length. }
    assert (Hnames : forall n, In n (map cand_name (firstn 2 rest)) ->
                               In n (available_agents self)).
    { intros n Hn. apply in_map_iff in Hn as (c' & <- & Hc').
      apply In_firstn in Hc'.
      assert (Hin : In c' (ranking lower re_search (_agents self) q))
        by (rewrite E; now right).
      apply ranking_inv in Hin as (cfg & Hin & Hact & _).
      now apply (available_agents_In self _ cfg). }
    rewrite Hf.
    destruct (Str.truthy (_fallback_agent self)) eqn:Et; cbn [andb].
    + destruct (Str.mem (_fallback_agent self)
                  (map cand_name (firstn 2 rest))) eqn:Em; cbn [negb].
      * repeat split; [lia|auto|]. intros _ _.
        unfold Str.mem in Em. apply existsb_exists in Em as (x & Hx & Ex).
        apply String.eqb_eq in Ex. now subst x.
      * repeat split.
        -- rewrite length_app. cbn [length]. lia.
        -- intros n Hn. apply in_app_or in Hn as [Hn|[<-|[]]]; auto.
        -- intros _ _. apply in_or_app. right. now left.
    + repeat split; [lia|auto|].
      intros _ Hne. apply truthy_iff in Hne. congruence.
Qed.

End RoutingMore.

(** ** Ties are broken by priority *)

Section StableHead.
Context {A K : Type}.
Variable ltb : K -> K -> bool.
Variable key : A -> K.

Lemma sort_desc_Permutation (l : list A) :
  Permutation (sort_desc ltb key l) l.
Proof.
  assert (Hins : forall x s, Permutation (insert_desc ltb key x s) (x :: s)).
  { intros x s. induction s as [|y s IH]; cbn [insert_desc]; [reflexivity|].
    destruct (ltb (key x) (key y)); [|reflexivity].
    rewrite IH. apply perm_swap. }
  induction l as [|a l IH]; [reflexivity|].
  cbn [sort_desc fold_right]. fold (sort_desc ltb key l).
  rewrite Hins. now constructor.
Qed.

(** The head of a stably sorted list is not an element that comes after an
    element it does not beat. *)
Lemma sort_desc_head_stable (l1 l2 : list A) (x y : A) :
  NoDup (l1 ++ x :: l2) ->
  In y l2 ->
  ltb (key x) (key y) = false ->
  forall h t, sort_desc ltb key (l1 ++ x :: l2) = h :: t -> h <> y.
Proof.
  assert (Hhead : forall z s h t,
            sort_desc ltb key (z :: s) = h :: t ->
            h = z \/
            (exists t', sort_desc ltb key s = h :: t' /\
                        ltb (key z) (key h) = true)).
  { intros z s h t. cbn [sort_desc fold_right]. fold (sort_desc ltb key s).
    destruct (sort_desc ltb key s) as [|h' t'] eqn:E; cbn [insert_desc].
    - intros [= <- <-]. now left.
    - destruct (ltb (key z) (key h')) eqn:El; intros [= <- <-];
        [right; exists t'; auto|now left]. }
  induction l1 as [|z l1 IH]; intros Hnd Hy Hxy h t E; cbn [app] in *.
  - inversion Hnd as [|? ? Hnotin _]; subst.
    destruct (Hhead _ _ _ _ E) as [->|(t' & _ & Hlt)].
    + intros ->. contradiction.
    + intros ->. congruence.
  - inversion Hnd as [|? ? Hnotin Hnd']; subst.
    destruct (Hhead _ _ _ _ E) as [->|(t' & E' & _)].
    + intros ->. apply Hnotin. apply in_or_app. right. now right.
    + now apply (IH Hnd' Hy Hxy h t').
Qed.

(** Stability: an element stays before the later elements that it does not
    beat. *)
Lemma insert_desc_before_old (z x y : A) (l s1 s2 : list A) :
  l = (s1 ++ x :: s2)%list -> In y s2 ->
  exists s1' s2',
    insert_desc ltb key z l = (s1' ++ x :: s2')%list /\ In y s2'.
Proof.
  revert s1. induction l as [|h t IH]; intros s1 E Hy.
  - destruct s1; discriminate.
  - cbn [insert_desc]. destruct (ltb (key z) (key h)).
    + destruct s1 as [|h' s1]; cbn [app] in E; injection E as Eh Et.
      * subst h t. exists [], (insert_desc ltb key z s2). split; [reflexivity|].
        apply In_insert_desc. now right.
      * subst h'. destruct (IH s1 Et Hy) as (s1' & s2' & -> & Hy').
        exists (h :: s1'), s2'. auto.
    + exists (z :: s1), s2. rewrite E. auto.
Qed.

Lemma insert_desc_before_new (x y : A) (l : list A) :
  In y l -> ltb (key x) (key y) = false ->
  exists s1 s2, insert_desc ltb key x l = (s1 ++ x :: s2)%list /\ In y s2.
Proof.
  induction l as [|h t IH]; intros Hy Hxy; [destruct Hy|].
  cbn [insert_desc]. destruct (ltb (key x) (key h)) eqn:E.
  - destruct Hy as [->|Hy]; [congruence|].
    destruct (IH Hy Hxy) as (s1 & s2 & -> & Hy').
    exists (h :: s1), s2. auto.
  - exists [], (h :: t). auto.
Qed.

Lemma sort_desc_before (l1 l2 : list A) (x y : A) :
  In y l2 -> ltb (key x) (key y) = false ->
  exists s1 s2,
    sort_desc ltb key (l1 ++ x :: l2) = (s1 ++ x :: s2)%list /\ In y s2.
Proof.
  intros Hy Hxy. induction l1 as [|z l1 IH]; cbn [app].
  - change (sort_desc ltb key (x :: l2))
      with (insert_desc ltb key x (sort_desc ltb key l2)).
    apply insert_desc_before_new; [|exact Hxy]. now apply In_sort_desc.
  - change (sort_desc ltb key (z :: l1 ++ x :: l2))
      with (insert_desc ltb key z (sort_desc ltb key (l1 ++ x :: l2))).
    destruct IH as (s1 & s2 & E & Hy').
    now apply (insert_desc_before_old z x y _ s1 s2).
Qed.
End StableHead.

Lemma StronglySorted_before {A : Type} (R : A -> A -> Prop)
    (l1 l2 : list A) (x y : A) :
  StronglySorted R (l1 ++ x :: l2) -> In y l1 -> R y x.
Proof.
  induction l1 as [|z l1 IH]; intros Hs Hy; [destruct Hy|].
  cbn [app] in Hs. inversion Hs as [|? ? Hs' Hz]; subst.
  destruct Hy as [->|Hy]; [|now apply IH].
  rewrite Forall_forall in Hz. apply Hz. apply in_or_app. right. now left.
Qed.

Section PriorityOrder.
Variable lower : string -> string.
Variable re_search : string -> string -> re_outcome.

Lemma candidate_names (q : string) (l : list (string * AgentConfig)) :
  NoDup (map fst l) ->
  NoDup (map cand_name (flat_map (expert_match lower re_search q) l)) /\
  (forall c, In c (flat_map (expert_match lower re_search q) l) ->
             In (cand_name c) (map fst l)).
Proof.
  induction l as [|[n cfg] l IH]; intros Hnd; cbn [map flat_map fst].
  - split; [constructor|intros c []].
  - inversion Hnd as [|? ? Hnotin Hnd']; subst.
    destruct (IH Hnd') as [IH1 IH2].
    destruct (expert_match_cases lower re_search q n cfg)
      as [[E _]|[(_ & k & _ & _ & E)|(_ & _ & p & _ & _ & E)]];
      rewrite E; cbn [app map cand_name keyword_candidate pattern_candidate fst].
    + split; [exact IH1|]. intros c Hc. right. now apply IH2.
    + split.
      * constructor; [|exact IH1]. intros Hin.
        apply in_map_iff in Hin as (c & Hc & Hin). apply IH2 in Hin.
        rewrite Hc in Hin. contradiction.
      * intros c [<-|Hc]; [now left|right; now apply IH2].
    + split.
      * constructor; [|exact IH1]. intros Hin.
        apply in_map_iff in Hin as (c & Hc & Hin). apply IH2 in Hin.
        rewrite Hc in Hin. contradiction.
      * intros c [<-|Hc]; [now left|right; now apply IH2].
Qed.

(** Of two active experts that match by keyword, the one that comes later
    in the sorted catalog is not selected unless it has the higher
    priority. *)
Lemma earlier_candidate_wins (self self' : OrchestratorAgent)
    (q : string) (r : RoutingResult)
    (na nb : string) (a b : AgentConfig)
    (s1 s2 : list (string * AgentConfig)) :
  NoDup (map fst (_agents self)) ->
  sorted_agents (_agents self) = (s1 ++ (na, a) :: s2)%list ->
  In (nb, b) s2 ->
  status a = ACTIVE -> status b = ACTIVE ->
  keyword_matches lower q (routing_rules a) = true ->
  keyword_matches lower q (routing_rules b) = true ->
  (priority (routing_rules b) <= priority (routing_rules a))%Z ->
  route lower re_search q self = (Returns r, self') ->
  selected_agent r <> nb.
Proof.
  intros Hnd ES Hb2 Hsa Hsb Hka Hkb Hle H Hsel.
  set (S := sorted_agents (_agents self)) in *.
  assert (HSperm : Permutation S (_agents self))
    by apply sort_desc_Permutation.
  assert (HSnd : NoDup (map fst S)).
  { apply (Permutation_NoDup (l := map fst (_agents self))); [|exact Hnd].
    symmetry. now apply Permutation_map. }
  (* the candidates of [a] and [b] *)
  destruct (expert_match_keyword lower re_search q na a Hsa Hka) as [ka Eca].
  destruct (expert_match_keyword lower re_search q nb b Hsb Hkb) as [kb Ecb].
  set (ca := (na, keyword_value (priority (routing_rules a)),
              "keyword_match:" ++ ka) : Candidate) in *.
  set (cb := (nb, keyword_value (priority (routing_rules b)),
              "keyword_match:" ++ kb) : Candidate) in *.
  set (f := expert_match lower re_search q) in *.
  assert (EC : flat_map f S = (flat_map f s1 ++ ca :: flat_map f s2)%list).
  { rewrite ES, flat_map_app. cbn [flat_map]. now rewrite Eca. }
  assert (Hcb : In cb (flat_map f s2)).
  { apply in_flat_map. exists (nb, b). split; [exact Hb2|].
    rewrite Ecb. now left. }
  destruct (candidate_names q S HSnd) as [HCnames HCin]. fold f in HCnames, HCin.
  assert (HCnd : NoDup (flat_map f S)) by exact (NoDup_map_inv _ _ HCnames).
  (* the selected candidate is the head of the ranking *)
  apply route_returns in H as (_ & _ & [[E _]|(c & rest & E & Hs & _)]).
  - assert (Hin : In cb (ranking lower re_search (_agents self) q)).
    { unfold ranking. rewrite In_sort_desc. fold S f.
      rewrite EC. apply in_or_app. right. now right. }
    rewrite E in Hin. destruct Hin.
  - unfold ranking in E. fold S f in E.
    assert (Hc : In c (flat_map f S)).
    { apply (In_sort_desc Qltb cand_score). rewrite E. now left. }
    assert (c = cb).
    { assert (Hcb' : In cb (flat_map f S))
        by (rewrite EC; apply in_or_app; right; now right).
      assert (En : cand_name c = cand_name cb)
        by (rewrite <- Hs, Hsel; reflexivity).
      clear - HCnames Hc Hcb' En.
      induction (flat_map f S) as [|z l IH]; [destruct Hc|].
      cbn [map] in HCnames. inversion HCnames as [|? ? Hnotin Hnd']; subst.
      destruct Hc as [->|Hc], Hcb' as [->|Hcb']; auto.
      - exfalso. apply Hnotin. rewrite En. now apply in_map.
      - exfalso. apply Hnotin. rewrite <- En. now apply in_map. }
    subst c. rewrite EC in E, HCnd.
    refine (sort_desc_head_stable Qltb cand_score _ _ ca cb HCnd Hcb _ _ _ E eq_refl).
    unfold Qltb. apply negb_false_iff, Qle_bool_iff.
    cbn [cand_score ca cb fst snd]. now apply keyword_value_mono.
Qed.

(** X10. Priority ordering over any catalog: of two active experts that
    both match the query by keyword, the one of lower priority is never
    selected - also when their scores tie above the cap of the bonus. *)
Theorem lower_priority_never_selected (self self' : OrchestratorAgent)
    (q : string) (r : RoutingResult)
    (na nb : string) (a b : AgentConfig) :
  NoDup (map fst (_agents self)) ->
  In (na, a) (_agents self) -> In (nb, b) (_agents self) ->
  status a = ACTIVE -> status b = ACTIVE ->
  keyword_matches lower q (routing_rules a) = true ->
  keyword_matches lower q (routing_rules b) = true ->
  (priority (routing_rules b) < priority (routing_rules a))%Z ->
  route lower re_search q self = (Returns r, self') ->
  selected_agent r <> nb.
Proof.
  intros Hnd Ha Hb Hsa Hsb Hka Hkb Hlt H.
  set (prio := fun x : string * AgentConfig => priority (routing_rules (snd x))).
  set (S := sorted_agents (_agents self)).
  assert (HSperm : Permutation S (_agents self))
    by apply sort_desc_Permutation.
  assert (HSsorted : StronglySorted
                       (fun x y => Z.ltb (prio x) (prio y) = false) S).
  { apply sort_desc_sorted.
    - intros u v Huv. apply Z.ltb_lt in Huv. apply Z.ltb_ge. lia.
    - intros u v w Huv Hvw. apply Z.ltb_ge in Huv, Hvw. apply Z.ltb_ge. lia. }
  (* [a] comes before [b] in the sorted catalog *)
  assert (HaS : In (na, a) S)
    by (apply (Permutation_in _ (Permutation_sym HSperm)); exact Ha).
  assert (HbS : In (nb, b) S)
    by (apply (Permutation_in _ (Permutation_sym HSperm)); exact Hb).
  apply in_split in HaS as (s1 & s2 & ES).
  assert (Hb2 : In (nb, b) s2).
  { rewrite ES in HbS. apply in_app_or in HbS as [Hb1|[Heq|Hb2]];
      [|injection Heq as -> ->; lia|exact Hb2].
    rewrite ES in HSsorted.
    pose proof (StronglySorted_before _ _ _ _ _ HSsorted Hb1) as Hba.
    unfold prio in Hba. cbn [snd] in Hba. apply Z.ltb_ge in Hba. lia. }
  apply (earlier_candidate_wins self self' q r na nb a b s1 s2); auto. lia.
Qed.

(** X11. Ties are broken by the order of the catalog: of two active experts
    that both match the query by keyword, the one that comes later in the
    catalog is never selected unless its priority is higher. *)
Theorem catalog_order_breaks_ties (self self' : OrchestratorAgent)
    (q : string) (r : RoutingResult)
    (na nb : string) (a b : AgentConfig)
    (l1 l2 : list (string * AgentConfig)) :
  NoDup (map fst (_agents self)) ->
  _agents self = (l1 ++ (na, a) :: l2)%list -> In (nb, b) l2 ->
  status a = ACTIVE -> status b = ACTIVE ->
  keyword_matches lower q (routing_rules a) = true ->
  keyword_matches lower q (routing_rules b) = true ->
  (priority (routing_rules b) <= priority (routing_rules a))%Z ->
  route lower re_search q self = (Returns r, self') ->
  selected_agent r <> nb.
Proof.
  intros Hnd El Hb Hsa Hsb Hka Hkb Hle H.
  destruct (sort_desc_before Z.ltb
              (fun x : string * AgentConfig => priority (routing_rules (snd x)))
              l1 l2 (na, a) (nb, b) Hb) as (s1 & s2 & ES & Hb2).
  { cbn [snd]. apply Z.ltb_ge. exact Hle. }
  rewrite <- El in ES.
  now apply (earlier_candidate_wins self self' q r na nb a b s1 s2).
Qed.

(** X12. A keyword match outranks a pattern match across experts: while
    some active expert of non-negative priority matches the query by
    keyword, no expert without a matching keyword is selected. *)
Theorem keyword_match_outranks_pattern_match
    (self self' : OrchestratorAgent) (q : string) (r : RoutingResult)
    (na nb : string) (a b : AgentConfig) :
  NoDup (map fst (_agents self)) ->
  In (na, a) (_agents self) -> In (nb, b) (_agents self) ->
  status a = ACTIVE ->
  keyword_matches lower q (routing_rules a) = true ->
  (0 <= priority (routing_rules a))%Z ->
  keyword_matches lower q (routing_rules b) = false ->
  route lower re_search q self = (Returns r, self') ->
  selected_agent r <> nb.
Proof.
  intros Hnd Ha Hb Hsa Hka Hpa Hkb H Hsel.
  destruct (proj1 (ranking_complete lower re_search (_agents self)
                     q na a Ha Hsa) Hka) as [k Hin].
  assert (Hmax : keyword_value (priority (routing_rules a)) <= confidence r).
  { pose proof H as H'.
    apply route_returns in H' as (_ & _ & [[E _]|(h & rest & E & _ & -> & _)]).
    - rewrite E in Hin. destruct Hin.
    - unfold ranking in E, Hin. rewrite In_sort_desc in Hin.
      exact (sort_desc_head_max cand_score _ _ _ E _ Hin). }
  destruct (route_selected_inv lower re_search _ _ _ _ H)
    as [(E & _)|(cfg & Hin' & _ & Hkind)].
  - rewrite E in Hin. destruct Hin.
  - rewrite Hsel in Hin'.
    assert (cfg = b) by (eapply In_NoDup_unique; eauto). subst cfg.
    destruct Hkind as [(k' & Hk' & Hm & _)|(_ & p & _ & _ & _ & Hc)].
    + assert (Ht : keyword_matches lower q (routing_rules b) = true).
      { unfold keyword_matches. apply existsb_exists. exists k'. auto. }
      congruence.
    + rewrite Hc in Hmax. revert Hmax.
      rewrite keyword_value_closed, pattern_value_closed.
      unfold Qle. cbn [Qnum Qden]. lia.
Qed.

End PriorityOrder.

(** ** Instances *)

Lemma route_result_justified_witness :
  route ascii_lower never_matches "Open a TICKET" jira_catalog
    = (Returns ticket_result, jira_catalog) /\
  ((selected_agent ticket_result = _fallback_agent jira_catalog /\
    routing_reason ticket_result = "no_match:fallback") \/
   exists cfg,
     In (selected_agent ticket_result, cfg) (_agents jira_catalog) /\
     status cfg = ACTIVE /\
     ((exists k,
         In k (keywords (routing_rules cfg)) /\
         Str.contains (ascii_lower k) (ascii_lower "Open a TICKET") = true /\
         routing_reason ticket_result = "keyword_match:" ++ k /\
         keyword_score (priority (routing_rules cfg))
           = Returns (confidence ticket_result)) \/
      (keyword_matches ascii_lower "Open a TICKET" (routing_rules cfg) = false /\
       exists p,
         In p (patterns (routing_rules cfg)) /\
         never_matches p "Open a TICKET" = ReMatch /\
         routing_reason ticket_result = "pattern_match:" ++ p /\
         pattern_score (priority (routing_rules cfg))
           = Returns (confidence ticket_result)))).
Proof.
  split; [reflexivity|].
  apply (route_result_justified ascii_lower never_matches
           jira_catalog jira_catalog "Open a TICKET" ticket_result).
  reflexivity.
Defined.

Lemma route_confidence_bounds_witness :
  route ascii_lower never_matches "Open a TICKET" jira_catalog
    = (Returns ticket_result, jira_catalog) /\
  0 <= confidence ticket_result /\ confidence ticket_result <= 0.99 /\
  (forall p, routing_reason ticket_result = "pattern_match:" ++ p ->
             confidence ticket_result <= 0.89).
Proof.
  split; [reflexivity|].
  apply (route_confidence_bounds ascii_lower never_matches
           jira_catalog jira_catalog "Open a TICKET" ticket_result).
  reflexivity.
Defined.

Lemma route_no_match_only_if_nothing_matches_witness :
  routing_reason
    {| selected_agent := "general-assistant"; confidence := 0.5;
       routing_reason := "no_match:fallback"; fallback_agents := [] |}
    = "no_match:fallback" /\
  no_active_match ascii_lower never_matches (_agents jira_catalog) "hello"
    = true.
Proof.
  split; [reflexivity|].
  apply (route_no_match_only_if_nothing_matches ascii_lower never_matches
           jira_catalog jira_catalog "hello"
           {| selected_agent := "general-assistant"; confidence := 0.5;
              routing_reason := "no_match:fallback"; fallback_agents := [] |});
    reflexivity.
Defined.

(** "hr-expert" matches "annual leave" both by its keyword "leave" and by
    its pattern "leave"; the reason given is the keyword. *)
Lemma keyword_beats_pattern_witness :
  route ascii_lower literal_search "annual leave" rules_catalog
    = (Returns rules_result, rules_catalog) /\
  keyword_matches ascii_lower "annual leave" (routing_rules hr_rules)
    = true /\
  pattern_matches literal_search "annual leave" (routing_rules hr_rules)
    = true /\
  exists k,
    In k (keywords (routing_rules hr_rules)) /\
    routing_reason rules_result = "keyword_match:" ++ k.
Proof.
  split; [reflexivity|]. split; [reflexivity|]. split; [reflexivity|].
  apply (keyword_beats_pattern ascii_lower literal_search
           rules_catalog rules_catalog "annual leave" rules_result hr_rules).
  - repeat constructor; cbn; intuition discriminate.
  - reflexivity.
  - right. now left.
  - reflexivity.
  - reflexivity.
Defined.

(** Three experts are candidates for "annual leave": "hr-expert" with 0.95,
    "payroll-expert" with 0.91 by keyword and "forms-expert" with 0.89 by
    pattern; neither of the latter two is above the confidence returned. *)
Lemma route_selects_highest_score_witness :
  route ascii_lower literal_search "annual leave" rules_catalog
    = (Returns rules_result, rules_catalog) /\
  keyword_matches ascii_lower "annual leave" (routing_rules payroll_rules)
    = true /\
  keyword_matches ascii_lower "annual leave" (routing_rules forms_rules)
    = false /\
  pattern_matches literal_search "annual leave" (routing_rules forms_rules)
    = true /\
  (exists score,
     keyword_score (priority (routing_rules payroll_rules)) = Returns score /\
     score <= confidence rules_result) /\
  (exists score,
     pattern_score (priority (routing_rules forms_rules)) = Returns score /\
     score <= confidence rules_result).
Proof.
  split; [reflexivity|]. split; [reflexivity|]. split; [reflexivity|].
  split; [reflexivity|]. split.
  - apply (route_selects_highest_score ascii_lower literal_search
             rules_catalog rules_catalog "annual leave" rules_result
             "payroll-expert" payroll_rules);
      [reflexivity | now left | reflexivity | reflexivity].
  - apply (route_selects_highest_score ascii_lower literal_search
             rules_catalog rules_catalog "annual leave" rules_result
             "forms-expert" forms_rules);
      [reflexivity | right; right; now left | reflexivity
      | reflexivity | reflexivity].
Defined.

Lemma smart_route_without_override_witness :
  override_of (override "") = Some "" /\
  smart_route ascii_lower never_matches "Open a TICKET" (override "")
    jira_catalog
  = route ascii_lower never_matches "Open a TICKET" jira_catalog.
Proof.
  split; [reflexivity|].
  apply (smart_route_without_override ascii_lower never_matches jira_catalog
           "Open a TICKET" (override "")).
  right. reflexivity.
Defined.

Lemma smart_route_selects_available_or_fallback_witness :
  smart_route ascii_lower never_matches "Open a TICKET"
    (override "old-agent") jira_catalog = (Returns ticket_result, jira_catalog)
  /\
  (In (selected_agent ticket_result) (available_agents jira_catalog) \/
   (selected_agent ticket_result = _fallback_agent jira_catalog /\
    routing_reason ticket_result = "no_match:fallback")).
Proof.
  split; [reflexivity|].
  apply (smart_route_selects_available_or_fallback ascii_lower never_matches
           jira_catalog jira_catalog "Open a TICKET" (override "old-agent")
           ticket_result).
  reflexivity.
Defined.

Lemma route_fallback_list_witness :
  route ascii_lower never_matches "Open a TICKET" jira_catalog
    = (Returns ticket_result, jira_catalog) /\
  (length (fallback_agents ticket_result) <= 3)%nat /\
  (forall n, In n (fallback_agents ticket_result) ->
             n = _fallback_agent jira_catalog
             \/ In n (available_agents jira_catalog)) /\
  (routing_reason ticket_result <> "no_match:fallback" ->
   _fallback_agent jira_catalog <> "" ->
   In (_fallback_agent jira_catalog) (fallback_agents ticket_result)).
Proof.
  split; [reflexivity|].
  apply (route_fallback_list ascii_lower never_matches
           jira_catalog jira_catalog "Open a TICKET" ticket_result).
  reflexivity.
Defined.

Lemma lower_priority_never_selected_witness :
  route ascii_lower never_matches "annual leave" leave_catalog
    = (Returns leave_result, leave_catalog) /\
  selected_agent leave_result <> "payroll-expert".
Proof.
  split; [reflexivity|].
  apply (lower_priority_never_selected ascii_lower never_matches
           leave_catalog leave_catalog "annual leave" leave_result
           "hr-expert" "payroll-expert"
           (snd (expert "hr-expert" ["leave"] 20 ACTIVE))
           (snd (expert "payroll-expert" ["leave"] 10 ACTIVE))).
  - repeat constructor; cbn; intuition discriminate.
  - right. now left.
  - now left.
  - reflexivity.
  - reflexivity.
  - reflexivity.
  - reflexivity.
  - reflexivity.
  - reflexivity.
Defined.

Lemma catalog_order_breaks_ties_witness :
  route ascii_lower never_matches "annual leave" leave_catalog
    = (Returns leave_result, leave_catalog) /\
  selected_agent leave_result <> "benefits-expert".
Proof.
  split; [reflexivity|].
  apply (catalog_order_breaks_ties ascii_lower never_matches
           leave_catalog leave_catalog "annual leave" leave_result
           "hr-expert" "benefits-expert"
           (snd (expert "hr-expert" ["leave"] 20 ACTIVE))
           (snd (expert "benefits-expert" ["leave"] 20 ACTIVE))
           [expert "payroll-expert" ["leave"] 10 ACTIVE]
           [expert "benefits-expert" ["leave"] 20 ACTIVE;
            expert "jira-agent" ["ticket"] 0 ACTIVE]).
  - repeat constructor; cbn; intuition discriminate.
  - reflexivity.
  - now left.
  - reflexivity.
  - reflexivity.
  - reflexivity.
  - reflexivity.
  - cbn. lia.
  - reflexivity.
Defined.

(** "forms-expert" matches "annual leave" by pattern only and has the
    highest priority of the catalog; "hr-expert", which matches by keyword,
    is selected all the same. *)
Lemma keyword_match_outranks_pattern_match_witness :
  route ascii_lower literal_search "annual leave" rules_catalog
    = (Returns rules_result, rules_catalog) /\
  keyword_matches ascii_lower "annual leave" (routing_rules forms_rules)
    = false /\
  pattern_matches literal_search "annual leave" (routing_rules forms_rules)
    = true /\
  (priority (routing_rules hr_rules)
   < priority (routing_rules forms_rules))%Z /\
  selected_agent rules_result <> "forms-expert".
Proof.
  split; [reflexivity|]. split; [reflexivity|]. split; [reflexivity|].
  split; [reflexivity|].
  apply (keyword_match_outranks_pattern_match ascii_lower literal_search
           rules_catalog rules_catalog "annual leave" rules_result
           "hr-expert" "forms-expert" hr_rules forms_rules).
  - repeat constructor; cbn; intuition discriminate.
  - right. now left.
  - right. right. now left.
  - reflexivity.
  - reflexivity.
  - cbn. lia.
  - reflexivity.
  - reflexivity.
Defined.

(** * The SSE interpreter: further properties *)

Module StreamProperties.
Import Pipe PipeRequest.

Lemma yielded_app (a b : list Output) :
  yielded (a ++ b) = (yielded a ++ yielded b)%list.
Proof. apply filter_app. Qed.

Lemma yielded_part_texts (ps : list Part) :
  yielded (yield_part_texts ps) = yield_part_texts ps.
Proof.
  unfold yield_part_texts.
  induction ps as [|p ps IH]; [reflexivity|].
  cbn [flat_map]. rewrite yielded_app, IH. f_equal.
  destruct (_get_part_text p) as [s|]; [|reflexivity].
  destruct (Str.truthy s); reflexivity.
Qed.

Lemma yielded_artifact_texts (l : list Artifact) :
  yielded (flat_map (fun a => yield_part_texts (artifact_parts a)) l)
  = flat_map (fun a => yield_part_texts (artifact_parts a)) l.
Proof.
  induction l as [|a l IH]; [reflexivity|].
  cbn [flat_map]. now rewrite yielded_app, yielded_part_texts, IH.
Qed.

Section Emitter.
Variable duration_1f : string.

Lemma status_part_emitter (owner : option string) (t : AgentTree)
    (part : Part) :
  status_part false owner t part =
    (fst (status_part true owner t part),
     yielded (snd (status_part true owner t part))).
Proof.
  unfold status_part.
  destruct (_get_part_info part) as [[text|] md]; [|reflexivity].
  destruct (Str.truthy text); [|reflexivity]. cbn [negb].
  destruct (_is_hidden_event md); [reflexivity|].
  destruct (_is_thinking_event md); reflexivity.
Qed.

Lemma status_parts_emitter (owner : option string) (ps : list Part) :
  forall t,
    status_parts false owner t ps =
      (fst (status_parts true owner t ps),
       yielded (snd (status_parts true owner t ps))).
Proof.
  induction ps as [|p ps IH]; intros t; [reflexivity|].
  cbn [status_parts]. rewrite status_part_emitter.
  destruct (status_part true owner t p) as [t1 o1]. cbn [fst snd].
  rewrite IH.
  destruct (status_parts true owner t1 ps) as [t2 o2]. cbn [fst snd].
  now rewrite yielded_app.
Qed.

Lemma answer_starts_emitter (t : AgentTree) :
  answer_starts false duration_1f t =
    (fst (answer_starts true duration_1f t),
     yielded (snd (answer_starts true duration_1f t))).
Proof.
  unfold answer_starts.
  destruct (has_status t && negb (answer_started t)); [|reflexivity].
  cbn [fst snd _emit_status app].
  destruct (Str.truthy _); reflexivity.
Qed.

Lemma extract_from_result_emitter (p : Payload) (t : AgentTree) :
  _extract_from_result false duration_1f p t =
    (fst (_extract_from_result true duration_1f p t),
     yielded (snd (_extract_from_result true duration_1f p t))).
Proof.
  unfold _extract_from_result.
  destruct (kind_is "message" p).
  { cbn [fst snd]. now rewrite yielded_part_texts. }
  destruct (kind_is "task" p).
  { cbn [fst snd]. rewrite yielded_app, yielded_artifact_texts.
    destruct (artifacts p); [now rewrite yielded_part_texts|reflexivity]. }
  destruct (kind_is "status-update" p); [apply status_parts_emitter|].
  destruct (kind_is "artifact-update" p); [|reflexivity].
  rewrite answer_starts_emitter.
  destruct (answer_starts true duration_1f t) as [t1 o1]. cbn [fst snd].
  now rewrite yielded_app, yielded_part_texts.
Qed.

Lemma handle_line_emitter (line : SseLine) (t : AgentTree) :
  handle_line false duration_1f line t =
    (fst (handle_line true duration_1f line t),
     yielded (snd (handle_line true duration_1f line t))).
Proof.
  destruct line as [| |[data|]]; try reflexivity.
  cbn [handle_line]. unfold _handle_sse_event.
  destruct (result data) as [r|]; [apply extract_from_result_emitter|].
  destruct (error data) as [e|]; [reflexivity|].
  cbv zeta.
  destruct (kind_is "status-update" (event data));
    [apply status_parts_emitter|].
  destruct (kind_is "artifact-update" (event data)).
  { rewrite answer_starts_emitter.
    destruct (answer_starts true duration_1f t) as [t1 o1]. cbn [fst snd].
    now rewrite yielded_app, yielded_part_texts. }
  destruct (kind_is "tool-call" (event data)); [reflexivity|].
  destruct (kind_is "message" (event data)); [|reflexivity].
  cbn [fst snd]. now rewrite yielded_part_texts.
Qed.

Lemma process_emitter (lines : list SseLine) :
  forall t,
    _process_sse_stream false duration_1f lines t =
      (fst (_process_sse_stream true duration_1f lines t),
       yielded (snd (_process_sse_stream true duration_1f lines t))).
Proof.
  induction lines as [|line lines IH]; intros t; [reflexivity|].
  cbn [_process_sse_stream]. rewrite handle_line_emitter.
  destruct (handle_line true duration_1f line t) as [t1 o1]. cbn [fst snd].
  rewrite IH.
  destruct (_process_sse_stream true duration_1f lines t1) as [t2 o2].
  cbn [fst snd]. now rewrite yielded_app.
Qed.

Lemma yielded_idem (out : list Output) : yielded (yielded out) = yielded out.
Proof.
  unfold yielded. induction out as [|o out IH]; [reflexivity|].
  cbn [filter]. destruct (negb (is_emit o)) eqn:E; [|exact IH].
  cbn [filter]. now rewrite E, IH.
Qed.

(** X13. The event emitter does not interfere with the stream: whether or
    not [pipe] passes an emitter on (it passes none for a system request),
    the interpreter ends in the same request state and yields the same
    chunks in the same order; without an emitter it produces nothing but
    these chunks. *)
Theorem emitter_does_not_interfere (event_emitter : bool)
    (lines : list SseLine) (t : AgentTree) :
  _process_sse_stream false duration_1f lines t =
    (fst (_process_sse_stream event_emitter duration_1f lines t),
     yielded (snd (_process_sse_stream event_emitter duration_1f lines t))).
Proof.
  destruct event_emitter; [apply process_emitter|].
  rewrite (process_emitter lines t) at 2 3. cbn [fst snd].
  rewrite yielded_idem. apply process_emitter.
Qed.

End Emitter.


Section Stream.
Variable event_emitter : bool.
Variable duration_1f : string.

Local Abbreviation process := (_process_sse_stream event_emitter duration_1f).
Local Abbreviation step := (handle_line event_emitter duration_1f).

(** ** The trajectory is flushed at most once *)

Lemma step_flush_count (line : SseLine) (t : AgentTree) :
  count_trajectory (snd (step line t)) = 0%nat \/
  (count_trajectory (snd (step line t)) = 1%nat /\
   answer_started (fst (step line t)) = true).
Proof.
  destruct (is_artifact_update line) eqn:Ea.
  2:{ left. apply PipeProperties.step_quiet. now left. }
  destruct (step line t) as [t' out] eqn:E.
  apply PipeProperties.handle_line_spec in E as (_ & _ & _ & D).
  specialize (D Ea). injection D as -> ->. cbn [fst snd].
  rewrite PipeProperties.count_trajectory_app,
    PipeProperties.yield_part_texts_no_trajectory, Nat.add_0_r.
  unfold answer_starts.
  destruct (has_status t && negb (answer_started t)); [|now left].
  cbn [fst snd].
  rewrite PipeProperties.count_trajectory_app,
    PipeProperties.emit_status_no_trajectory.
  destruct (Str.truthy _); [right|left]; auto.
Qed.

(** X14. Whatever the events and whatever the request state, the rendered
    trajectory is yielded at most once. *)
Theorem trajectory_flushed_at_most_once (lines : list SseLine)
    (t : AgentTree) :
  (count_trajectory (snd (process lines t)) <= 1)%nat.
Proof.
  revert t. induction lines as [|line lines IH]; intros t.
  - cbn. lia.
  - rewrite PipeProperties.process_cons. cbn [snd].
    rewrite PipeProperties.count_trajectory_app.
    destruct (step_flush_count line t) as [H0|[H1 Ha]].
    + rewrite H0. apply IH.
    + rewrite H1.
      destruct (PipeProperties.quiet_after_answer event_emitter duration_1f
                  lines _ Ha) as (_ & Hq & _).
      rewrite Hq. lia.
Qed.

(** ** No flush without a thinking event and a later artifact *)

Lemma no_flush (lines : list SseLine) :
  forall t,
    answer_started t = false ->
    artifact_after_thinking (has_status t) lines = false ->
    count_trajectory (snd (process lines t)) = 0%nat /\
    answer_started (fst (process lines t)) = false /\
    answer_trace event_emitter duration_1f lines t
      = repeat false (length lines).
Proof.
  induction lines as [|line lines IH]; intros t Hn H.
  - cbn. auto.
  - cbn [artifact_after_thinking] in H.
    apply orb_false_iff in H as [H1 H2].
    destruct (PipeProperties.step_quiet event_emitter duration_1f line t)
      as [A B].
    { apply andb_false_iff in H1 as [H1|H1]; auto. }
    rewrite <- (PipeProperties.step_has_status event_emitter duration_1f) in H2.
    rewrite Hn in A.
    destruct (IH _ A H2) as (I1 & I2 & I3).
    rewrite PipeProperties.process_cons.
    cbn [fst snd answer_trace length repeat].
    rewrite PipeProperties.count_trajectory_app, B, I1, I2, I3, A. auto.
Qed.

(** X15. The converse of the single flush: unless a status event with a
    thinking part is followed by an artifact-update event, a new request
    yields no trajectory, and its answer is never marked as started -
    whatever text it yields is passed through as it comes. *)
Theorem no_trajectory_without_thinking_then_artifact (model_id : string)
    (lines : list SseLine) :
  artifact_after_thinking false lines = false ->
  count_trajectory (snd (process lines (new_agent_tree model_id))) = 0%nat /\
  answer_started (fst (process lines (new_agent_tree model_id))) = false /\
  answer_trace event_emitter duration_1f lines (new_agent_tree model_id)
    = repeat false (length lines).
Proof. intros H. now apply no_flush. Qed.

(** ** What the trajectory records *)

Lemma tools_called_append_trajectory (agent tool : string) (t : AgentTree) :
  trajectory (tools_called_append agent tool t) = trajectory t.
Proof. apply PipeProperties.tools_called_append_fields. Qed.

Lemma status_part_trajectory (owner : option string) (t : AgentTree)
    (part : Part) :
  trajectory (fst (status_part event_emitter owner t part))
  = (trajectory t ++ part_events part)%list.
Proof.
  unfold status_part, part_events, thinking_part.
  destruct (_get_part_info part) as [[text|] md]; cbn [text_truthy fst snd].
  2:{ cbn. now rewrite app_nil_r. }
  destruct (Str.truthy text); cbn [negb andb fst].
  2:{ now rewrite app_nil_r. }
  destruct (_is_hidden_event md); cbn [negb andb fst].
  { now rewrite app_nil_r. }
  destruct (_is_thinking_event md); cbn [fst].
  2:{ now rewrite app_nil_r. }
  destruct owner as [agent|];
    [destruct (String.eqb _ "tool_start")|];
    rewrite ?tools_called_append_trajectory; reflexivity.
Qed.

Lemma status_parts_trajectory (owner : option string) (ps : list Part) :
  forall t,
    trajectory (fst (status_parts event_emitter owner t ps))
    = (trajectory t ++ flat_map part_events ps)%list.
Proof.
  induction ps as [|p ps IH]; intros t.
  - cbn. now rewrite app_nil_r.
  - cbn [status_parts flat_map].
    pose proof (status_part_trajectory owner t p) as H1.
    destruct (status_part event_emitter owner t p) as [t1 o1].
    specialize (IH t1).
    destruct (status_parts event_emitter owner t1 ps) as [t2 o2].
    cbn [fst] in *. now rewrite IH, H1, app_assoc.
Qed.

Lemma answer_starts_trajectory (t : AgentTree) :
  trajectory (fst (answer_starts event_emitter duration_1f t)) = trajectory t.
Proof.
  unfold answer_starts.
  destruct (has_status t && negb (answer_started t)); reflexivity.
Qed.

Lemma step_trajectory (line : SseLine) (t : AgentTree) :
  trajectory (fst (step line t)) = (trajectory t ++ line_events line)%list.
Proof.
  unfold line_events, is_status_update, status_parts_of.
  destruct line as [| |[data|]]; cbn [handle_line handled_payload fst];
    try (now rewrite app_nil_r).
  unfold _handle_sse_event.
  destruct (result data) as [r|].
  - unfold _extract_from_result.
    destruct (kind_is "message" r) eqn:Km.
    { rewrite (PipeProperties.kind_is_exclusive _ "status-update" _ Km)
        by discriminate. cbn [fst]. now rewrite app_nil_r. }
    destruct (kind_is "task" r) eqn:Kt.
    { rewrite (PipeProperties.kind_is_exclusive _ "status-update" _ Kt)
        by discriminate. cbn [fst]. now rewrite app_nil_r. }
    destruct (kind_is "status-update" r) eqn:Ks.
    { apply status_parts_trajectory. }
    rewrite app_nil_r.
    destruct (kind_is "artifact-update" r); [|reflexivity].
    pose proof (answer_starts_trajectory t) as H.
    destruct (answer_starts event_emitter duration_1f t). exact H.
  - destruct (error data) as [e|]; [cbn [fst]; now rewrite app_nil_r|].
    cbv zeta.
    destruct (kind_is "status-update" (event data)) eqn:Ks.
    { rewrite status_parts_trajectory.
      destruct (dict_get _ (agents t)); reflexivity. }
    rewrite app_nil_r.
    destruct (kind_is "artifact-update" (event data)).
    { pose proof (answer_starts_trajectory t) as H.
      destruct (answer_starts event_emitter duration_1f t). exact H. }
    destruct (kind_is "tool-call" (event data)).
    { apply tools_called_append_trajectory. }
    destruct (kind_is "message" (event data)); reflexivity.
Qed.

(** X16. The trajectory only grows, and it records the thinking parts in the
    order of their arrival: after any events it is the trajectory before
    them followed by one entry for each part of a status update that has
    text, is not hidden and is a thinking event - with the text, event type
    and metadata of the part; no other part, and no event of another kind,
    adds or removes an entry. *)
Theorem trajectory_records_thinking_parts (lines : list SseLine)
    (t : AgentTree) :
  trajectory (fst (process lines t))
  = (trajectory t ++ flat_map line_events lines)%list.
Proof.
  revert t. induction lines as [|line lines IH]; intros t.
  - cbn. now rewrite app_nil_r.
  - rewrite PipeProperties.process_cons. cbn [fst flat_map].
    now rewrite IH, step_trajectory, app_assoc.
Qed.

(** ** Nothing that is yielded is empty *)

Lemma nonempty_app (a b : list Output) :
  nonempty a -> nonempty b -> nonempty (a ++ b).
Proof. intros Ha Hb. apply Forall_app. now split. Qed.

Lemma nonempty_part_texts (ps : list Part) : nonempty (yield_part_texts ps).
Proof.
  unfold yield_part_texts.
  induction ps as [|p ps IH]; [constructor|].
  cbn [flat_map]. apply nonempty_app; [|exact IH].
  destruct (_get_part_text p) as [s|]; [|constructor].
  destruct (Str.truthy s) eqn:E; constructor; [exact E|constructor].
Qed.

Lemma nonempty_artifact_texts (l : list Artifact) :
  nonempty (flat_map (fun a => yield_part_texts (artifact_parts a)) l).
Proof.
  induction l as [|a l IH]; [constructor|].
  cbn [flat_map]. apply nonempty_app; [apply nonempty_part_texts|exact IH].
Qed.

Lemma nonempty_emit (description : string) (done : bool) :
  Str.truthy description = true ->
  nonempty (_emit_status event_emitter description done).
Proof.
  intros H. unfold _emit_status.
  destruct event_emitter; constructor; [exact H|constructor].
Qed.

Lemma nonempty_status_part (owner : option string) (t : AgentTree)
    (part : Part) :
  nonempty (snd (status_part event_emitter owner t part)).
Proof.
  unfold status_part.
  destruct (_get_part_info part) as [[text|] md]; [|constructor].
  destruct (Str.truthy text) eqn:E; [|constructor]. cbn [negb].
  destruct (_is_hidden_event md); [constructor|].
  destruct (_is_thinking_event md); cbn [snd].
  - now apply nonempty_emit.
  - constructor; [exact E|constructor].
Qed.

Lemma nonempty_status_parts (owner : option string) (ps : list Part) :
  forall t, nonempty (snd (status_parts event_emitter owner t ps)).
Proof.
  induction ps as [|p ps IH]; intros t; [constructor|].
  cbn [status_parts].
  pose proof (nonempty_status_part owner t p) as H1.
  destruct (status_part event_emitter owner t p) as [t1 o1].
  specialize (IH t1).
  destruct (status_parts event_emitter owner t1 ps) as [t2 o2].
  now apply nonempty_app.
Qed.

Lemma nonempty_answer_starts (t : AgentTree) :
  nonempty (snd (answer_starts event_emitter duration_1f t)).
Proof.
  unfold answer_starts.
  destruct (has_status t && negb (answer_started t)); [|constructor].
  cbn [snd]. apply nonempty_app; [now apply nonempty_emit|].
  destruct (Str.truthy _) eqn:E; constructor; [exact E|constructor].
Qed.

Lemma nonempty_step (line : SseLine) (t : AgentTree) :
  nonempty (snd (step line t)).
Proof.
  destruct line as [| |[data|]]; try constructor.
  cbn [handle_line]. unfold _handle_sse_event.
  destruct (result data) as [r|].
  - unfold _extract_from_result.
    destruct (kind_is "message" r); [apply nonempty_part_texts|].
    destruct (kind_is "task" r).
    { cbn [snd]. apply nonempty_app; [apply nonempty_artifact_texts|].
      destruct (artifacts r); [apply nonempty_part_texts|constructor]. }
    destruct (kind_is "status-update" r); [apply nonempty_status_parts|].
    destruct (kind_is "artifact-update" r); [|constructor].
    pose proof (nonempty_answer_starts t) as H.
    destruct (answer_starts event_emitter duration_1f t). cbn [snd] in *.
    apply nonempty_app; [exact H|apply nonempty_part_texts].
  - destruct (error data) as [e|].
    { constructor; [reflexivity|constructor]. }
    cbv zeta.
    destruct (kind_is "status-update" (event data));
      [apply nonempty_status_parts|].
    destruct (kind_is "artifact-update" (event data)).
    { pose proof (nonempty_answer_starts t) as H.
      destruct (answer_starts event_emitter duration_1f t). cbn [snd] in *.
      apply nonempty_app; [exact H|apply nonempty_part_texts]. }
    destruct (kind_is "tool-call" (event data)); [constructor|].
    destruct (kind_is "message" (event data));
      [apply nonempty_part_texts|constructor].
Qed.

(** X17. The interpreter never yields an empty chunk and never emits an
    empty status: every text, trajectory and error it yields, and every
    status description it emits, is a non-empty string. *)
Theorem stream_outputs_nonempty (lines : list SseLine) (t : AgentTree)
    (o : Output) :
  In o (snd (process lines t)) -> Str.truthy (output_text o) = true.
Proof.
  revert t. induction lines as [|line lines IH]; intros t.
  - intros [].
  - rewrite PipeProperties.process_cons. cbn [snd]. intros H.
    apply in_app_or in H as [H|H]; [|now apply (IH _ H)].
    pose proof (nonempty_step line t) as Hn. unfold nonempty in Hn.
    rewrite Forall_forall in Hn. now apply Hn.
Qed.

(** ** The text of an artifact is never dropped *)

(** X18. The text of an artifact is never dropped: every part of an
    artifact-update event that has a non-empty text is yielded as text,
    whatever its metadata says and whatever the request state is. *)
Theorem artifact_text_is_yielded (lines : list SseLine) (t : AgentTree)
    (line : SseLine) (part : Part) (s : string) :
  In line lines ->
  is_artifact_update line = true ->
  In part (artifact_parts_of line) ->
  _get_part_text part = Some s ->
  Str.truthy s = true ->
  In (YieldText s) (snd (process lines t)).
Proof.
  intros Hl Ha Hp Hs Ht.
  apply in_split in Hl as (l1 & l2 & ->).
  rewrite PipeProperties.process_app, PipeProperties.process_cons.
  cbn [fst snd].
  apply in_or_app. right. apply in_or_app. left.
  set (t1 := fst (process l1 t)).
  destruct (step line t1) as [t' out] eqn:E.
  apply PipeProperties.handle_line_spec in E as (_ & _ & _ & D).
  specialize (D Ha). injection D as -> ->. cbn [snd].
  apply in_or_app. right.
  now apply (PipeProperties.In_yield_part_texts _ part).
Qed.

End Stream.

(** ** The non-streaming fallback *)

(** X19. The non-streaming fallback yields what the streaming interpreter
    yields for the same response when its result is a message or a task,
    and nothing for any other response. *)
Theorem fallback_agrees_with_stream (event_emitter : bool)
    (duration_1f : string) (data : Data) (t : AgentTree) :
  _extract_response_text data =
    match result data with
    | Some r =>
        if kind_is "message" r || kind_is "task" r
        then snd (_handle_sse_event event_emitter duration_1f data t)
        else []
    | None => []
    end.
Proof.
  unfold _extract_response_text, _handle_sse_event, _extract_from_result.
  destruct (result data) as [r|]; [|reflexivity].
  cbn [or_default].
  destruct (kind_is "message" r); [reflexivity|].
  destruct (kind_is "task" r); reflexivity.
Qed.

(** ** The model of a request *)

Lemma prefix_char (sep c : ascii) (rest : string) :
  prefix (String sep "") (String c rest) = Ascii.eqb c sep.
Proof.
  cbn [prefix]. destruct (ascii_dec sep c) as [->|Hne].
  - rewrite Ascii.eqb_refl. now destruct rest.
  - symmetry. apply Ascii.eqb_neq. congruence.
Qed.

Lemma contains_char (sep c : ascii) (rest : string) :
  Str.contains (String sep "") (String c rest)
  = Ascii.eqb c sep || Str.contains (String sep "") rest.
Proof. cbn [Str.contains]. now rewrite prefix_char. Qed.

Lemma split_cons (sep : ascii) (s : string) :
  exists first more, split sep s = first :: more.
Proof.
  destruct s as [|c rest]; cbn [split]; [eauto|].
  destruct (Ascii.eqb c sep); [eauto|].
  destruct (split sep rest); eauto.
Qed.

(** No segment of a split contains the separator. *)
Lemma split_segments (sep : ascii) (s : string) :
  Forall (fun seg => Str.contains (String sep "") seg = false) (split sep s).
Proof.
  induction s as [|c rest IH]; cbn [split].
  - constructor; [reflexivity|constructor].
  - destruct (Ascii.eqb c sep) eqn:E.
    + constructor; [reflexivity|exact IH].
    + destruct (split sep rest) as [|first more].
      * constructor; [|constructor]. rewrite contains_char, E. reflexivity.
      * inversion IH as [|? ? H1 H2]; subst.
        constructor; [|exact H2]. now rewrite contains_char, E.
Qed.

Lemma split_no_sep (sep : ascii) (s : string) :
  Str.contains (String sep "") s = false -> split sep s = [s].
Proof.
  induction s as [|c rest IH]; [reflexivity|].
  rewrite contains_char. intros H. apply orb_false_iff in H as [H1 H2].
  cbn [split]. now rewrite H1, (IH H2).
Qed.

Lemma last_cons {A : Type} (x y : A) (l : list A) (d : A) :
  last (x :: y :: l) d = last (y :: l) d.
Proof. reflexivity. Qed.

Lemma split_last_app (sep : ascii) (p s : string) :
  last (split sep (p ++ String sep s)) "" = last (split sep s) "".
Proof.
  induction p as [|c p IH]; cbn [String.append split].
  - rewrite Ascii.eqb_refl.
    destruct (split_cons sep s) as (first & more & ->). reflexivity.
  - destruct (split_cons sep (p ++ String sep s)) as (first & more & E).
    destruct (split_cons sep s) as (first' & more' & E').
    assert (Hmore : more <> []).
    { clear IH. revert first more E.
      induction p as [|c' p IHp]; intros first more E;
        cbn [String.append split] in E.
      - rewrite Ascii.eqb_refl, E' in E. injection E as <- <-. discriminate.
      - destruct (Ascii.eqb c' sep).
        + destruct (split_cons sep (p ++ String sep s)) as (f & m & Ef).
          rewrite Ef in E. injection E as <- <-. discriminate.
        + destruct (split_cons sep (p ++ String sep s)) as (f & m & Ef).
          rewrite Ef in E. injection E as <- <-. now apply (IHp f). }
    rewrite E in IH |- *.
    destruct more as [|m0 more]; [congruence|].
    destruct (Ascii.eqb c sep); [rewrite last_cons; exact IH|].
    rewrite last_cons. rewrite last_cons in IH. exact IH.
Qed.

Lemma contains_char_app (sep : ascii) (p s : string) :
  Str.contains (String sep "") (p ++ String sep s) = true.
Proof.
  induction p as [|c p IH]; cbn [String.append]; rewrite contains_char.
  - now rewrite Ascii.eqb_refl.
  - rewrite IH. apply orb_true_r.
Qed.

(** X20. Selecting an expert as the model selects it as the target of
    the request: for a name without a dot, other than "auto", the model
    [prefix.name] - whatever the pipe prefix, dots included - and the model
    [name] both give the model id [name]; the request then names [name] as
    its target agent, and the agent tree has [name] as its root. *)
Theorem model_id_strips_pipe_prefix (prefix name : string) :
  Str.contains "." name = false ->
  name <> "auto" ->
  model_id_of (Some (prefix ++ "." ++ name)) = name /\
  model_id_of (Some name) = name /\
  target_agent_param (model_id_of (Some (prefix ++ "." ++ name)))
    = Some name /\
  tree_root (new_agent_tree (model_id_of (Some (prefix ++ "." ++ name))))
    = name.
Proof.
  intros H Hne.
  assert (E : model_id_of (Some (prefix ++ "." ++ name)) = name).
  { unfold model_id_of. cbn [or_default].
    change (prefix ++ "." ++ name) with (prefix ++ String "." name).
    change "."%string with (String "." "").
    rewrite contains_char_app, split_last_app, (split_no_sep _ _ H).
    reflexivity. }
  rewrite E. split; [reflexivity|]. split.
  - unfold model_id_of. cbn [or_default]. now rewrite H.
  - apply String.eqb_neq in Hne.
    unfold target_agent_param, new_agent_tree. cbn [tree_root].
    now rewrite Hne.
Qed.

(** X21. The model id never contains a dot, whatever the model of the
    request is, so deriving the model id of a model id changes nothing. *)
Theorem model_id_is_dot_free (model : option string) :
  Str.contains "." (model_id_of model) = false /\
  model_id_of (Some (model_id_of model)) = model_id_of model.
Proof.
  assert (H : Str.contains "." (model_id_of model) = false).
  { unfold model_id_of.
    destruct (Str.contains "." (or_default model "auto")) eqn:E; [|exact E].
    change "."%string with (String "." "").
    pose proof (split_segments "." (or_default model "auto")) as Hs.
    destruct (split_cons "." (or_default model "auto")) as (f & m & Ef).
    rewrite Ef in Hs |- *. rewrite Forall_forall in Hs.
    apply Hs. clear. revert f. induction m as [|x m IH]; intros f.
    - now left.
    - rewrite last_cons. right. apply IH. }
  split; [exact H|].
  unfold model_id_of at 1. cbn [or_default]. now rewrite H.
Qed.

(** ** Rendering *)



(** ** Instances *)

Lemma no_trajectory_without_thinking_then_artifact_witness :
  artifact_after_thinking false late_thinking = false /\
  count_trajectory
    (snd (_process_sse_stream true "0.0" late_thinking (new_agent_tree "auto")))
  = 0%nat.
Proof.
  split; [reflexivity|].
  apply (no_trajectory_without_thinking_then_artifact true "0.0" "auto"
           late_thinking).
  reflexivity.
Defined.

Lemma stream_outputs_nonempty_witness :
  In (YieldText "answer")
    (snd (_process_sse_stream true "0.0" scenario_D (new_agent_tree "auto"))) /\
  Str.truthy (output_text (YieldText "answer")) = true.
Proof.
  assert (H : In (YieldText "answer")
                (snd (_process_sse_stream true "0.0" scenario_D
                        (new_agent_tree "auto")))).
  { vm_compute. right. right. right. right. now left. }
  split; [exact H|].
  exact (stream_outputs_nonempty true "0.0" scenario_D (new_agent_tree "auto")
           (YieldText "answer") H).
Defined.

Lemma artifact_text_is_yielded_witness :
  In (YieldText "answer")
    (snd (_process_sse_stream true "0.0" scenario_D (new_agent_tree "auto"))).
Proof.
  apply (artifact_text_is_yielded true "0.0" scenario_D (new_agent_tree "auto")
           (artifact_event [text_part "answer" None])
           (text_part "answer" None) "answer").
  - right. right. now left.
  - reflexivity.
  - now left.
  - reflexivity.
  - reflexivity.
Defined.

Lemma model_id_strips_pipe_prefix_witness :
  Str.contains "." "hr-expert" = false /\
  model_id_of (Some "aaif_orchestrator_pipe.hr-expert") = "hr-expert" /\
  target_agent_param (model_id_of (Some "aaif_orchestrator_pipe.hr-expert"))
    = Some "hr-expert".
Proof.
  split; [reflexivity|].
  destruct (model_id_strips_pipe_prefix "aaif_orchestrator_pipe" "hr-expert")
    as (H1 & _ & H2 & _); [reflexivity|discriminate|].
  exact (conj H1 H2).
Defined.


End StreamProperties.

(** * The catalog loader: properties *)

Module LoaderProperties.
Import ConfigLoader.


Lemma In_dict_set {V : Type} (k : string) (v : V) (d : list (string * V))
    (k' : string) (v' : V) :
  In (k', v') (Pipe.dict_set k v d) -> (k', v') = (k, v) \/ In (k', v') d.
Proof.
  induction d as [|[k0 v0] d IH]; cbn [Pipe.dict_set].
  - intros [H|[]]. now left.
  - destruct (String.eqb k k0).
    + intros [H|H]; [now left|right; now right].
    + intros [H|H]; [right; now left|].
      destruct (IH H) as [H'|H']; [now left|right; now right].
Qed.

Lemma dict_set_keys {V : Type} (k : string) (v : V) (d : list (string * V))
    (x : string) :
  In x (map fst (Pipe.dict_set k v d)) -> x = k \/ In x (map fst d).
Proof.
  intros H. apply in_map_iff in H as ([k' v'] & <- & H).
  apply In_dict_set in H as [[= -> ->]|H]; [now left|].
  right. now apply (in_map fst) in H.
Qed.

Lemma dict_set_NoDup {V : Type} (k : string) (v : V) (d : list (string * V)) :
  NoDup (map fst d) -> NoDup (map fst (Pipe.dict_set k v d)).
Proof.
  induction d as [|[k0 v0] d IH]; cbn [Pipe.dict_set map fst].
  - intros _. constructor; [intros []|constructor].
  - intros H. inversion H as [|? ? Hnotin Hnd]; subst.
    destruct (String.eqb k k0) eqn:E; cbn [map fst].
    + apply String.eqb_eq in E. subst k0. now constructor.
    + constructor; [|now apply IH].
      intros Hin. apply dict_set_keys in Hin as [->|Hin]; [|contradiction].
      rewrite String.eqb_refl in E. discriminate.
Qed.

Section Loader.
Context {D : Type}.
Variable parse : D -> outcome AgentConfig.

(** The catalog after the configurations [configs] have been stored. *)
Local Abbreviation store :=
  (fold_left (fun acc config => Pipe.dict_set (name config) config acc)).

Lemma load_entries_lenient (agents_data : list (Entry D)) :
  forall agents,
    load_entries parse false agents_data agents
    = if forallb is_mapping agents_data
      then Returns (store (valid_configs parse agents_data) agents)
      else Raises AttributeError.
Proof.
  induction agents_data as [|[d|] rest IH]; intros agents; [reflexivity| |].
  - cbn [load_entries valid_configs flat_map forallb is_mapping andb].
    fold (valid_configs parse rest).
    destruct (parse d) as [cfg|e]; cbn [app]; rewrite IH;
      destruct (forallb is_mapping rest); reflexivity.
  - reflexivity.
Qed.

Lemma load_entries_strict (agents_data : list (Entry D)) :
  forall agents,
    load_entries parse true agents_data agents
    = match first_error parse agents_data with
      | Some e => Raises e
      | None => Returns (store (valid_configs parse agents_data) agents)
      end.
Proof.
  induction agents_data as [|[d|] rest IH]; intros agents; [reflexivity| |].
  - cbn [load_entries first_error valid_configs flat_map].
    fold (valid_configs parse rest).
    destruct (parse d) as [cfg|e]; [|reflexivity].
    cbn [app]. apply IH.
  - reflexivity.
Qed.

(** If no entry fails, every entry is a mapping. *)
Lemma first_error_none (agents_data : list (Entry D)) :
  first_error parse agents_data = None ->
  forallb is_mapping agents_data = true.
Proof.
  induction agents_data as [|[d|] rest IH]; cbn [first_error forallb is_mapping];
    [reflexivity| |discriminate].
  destruct (parse d); [exact IH|discriminate].
Qed.


Lemma store_invariant (P : AgentConfig -> Prop) (configs : list AgentConfig) :
  Forall P configs ->
  forall agents,
    NoDup (map fst agents) ->
    (forall k cfg, In (k, cfg) agents -> name cfg = k /\ P cfg) ->
    NoDup (map fst (store configs agents)) /\
    (forall k cfg, In (k, cfg) (store configs agents) -> name cfg = k /\ P cfg).
Proof.
  induction 1 as [|c configs Hc Hcs IH]; intros agents Hnd Hin;
    cbn [fold_left]; [auto|].
  apply IH; [now apply dict_set_NoDup|].
  intros k cfg H. apply In_dict_set in H as [[= -> ->]|H]; auto.
Qed.

Lemma valid_configs_parsed (agents_data : list (Entry D)) :
  Forall
    (fun cfg =>
       exists d, In (Mapping d) agents_data /\ parse d = Returns cfg)
    (valid_configs parse agents_data).
Proof.
  apply Forall_forall. intros cfg H. unfold valid_configs in H.
  apply in_flat_map in H as ([d|] & Hd & H); [|destruct H].
  exists d. split; [exact Hd|].
  destruct (parse d) as [c|e]; [|destruct H].
  destruct H as [->|[]]. reflexivity.
Qed.

Lemma load_returns (config_file : ConfigFile D) (validate : bool)
    (agents : list (string * AgentConfig)) :
  load_agents_config parse config_file validate = Returns agents ->
  agents = store (valid_configs parse (entries config_file)) [].
Proof.
  destruct config_file as [| |agents_data]; cbn [load_agents_config entries];
    try (intros [= <-]; reflexivity).
  destruct validate.
  - rewrite load_entries_strict.
    destruct (first_error parse agents_data); [discriminate|].
    now intros [= <-].
  - rewrite load_entries_lenient.
    destruct (forallb is_mapping agents_data); [|discriminate].
    now intros [= <-].
Qed.

Lemma load_strict (config_file : ConfigFile D) :
  load_agents_config parse config_file true
  = match first_error parse (entries config_file) with
    | Some e => Raises e
    | None => load_agents_config parse config_file false
    end.
Proof.
  destruct config_file as [| |agents_data];
    cbn [load_agents_config entries first_error]; try reflexivity.
  rewrite load_entries_strict, load_entries_lenient.
  destruct (first_error parse agents_data) eqn:E; [reflexivity|].
  now rewrite (first_error_none _ E).
Qed.


(** X24. Strict loading rejects the whole file for one bad entry: it raises
    the error of the first entry that fails - the validation error of a
    mapping with the fields that failed, [TypeError] for an entry that is no
    mapping - and returns what lenient loading returns when no entry
    fails. *)
Theorem strict_load_rejects_first_invalid_entry
    (config_file : ConfigFile D) :
  load_agents_config parse config_file true
  = match first_error parse (entries config_file) with
    | Some e => Raises e
    | None => load_agents_config parse config_file false
    end.
Proof. apply load_strict. Qed.

(** X25. A loaded catalog is keyed by name: in either mode, the names of
    the catalog are pairwise distinct, every expert is stored under its own
    name, and its configuration is that of an entry of the file that passed
    validation. *)
Theorem loaded_catalog_is_keyed_by_name (config_file : ConfigFile D)
    (validate : bool) (agents : list (string * AgentConfig)) :
  load_agents_config parse config_file validate = Returns agents ->
  NoDup (map fst agents) /\
  forall k cfg,
    In (k, cfg) agents ->
    name cfg = k /\
    exists d, In (Mapping d) (entries config_file) /\ parse d = Returns cfg.
Proof.
  intros H. apply load_returns in H. subst agents.
  apply store_invariant.
  - apply valid_configs_parsed.
  - constructor.
  - intros k cfg [].
Qed.


End Loader.

(** ** Names and delegation tools *)

Lemma name_char_no_underscore (c : ascii) :
  Validation.is_name_char c = true -> Ascii.eqb c "_" = false.
Proof.
  intros H. destruct (Ascii.eqb c "_") eqn:E; [|reflexivity].
  apply Ascii.eqb_eq in E. subst c. discriminate H.
Qed.

Lemma name_char_no_hyphen_image (c : ascii) :
  Validation.is_lower_letter c = true -> Validation.is_name_char c = true.
Proof. intros H. unfold Validation.is_name_char. now rewrite H. Qed.

Lemma replace_injective (a : string) :
  forall b,
    Validation.all_chars Validation.is_name_char a = true ->
    Validation.all_chars Validation.is_name_char b = true ->
    replace "-" "_" a = replace "-" "_" b -> a = b.
Proof.
  induction a as [|c a IH]; intros [|c' b] Ha Hb E; cbn [replace] in E;
    try discriminate; [reflexivity|].
  cbn [Validation.all_chars] in Ha, Hb.
  apply andb_true_iff in Ha as [Hc Ha], Hb as [Hc' Hb].
  injection E as Ec E. rewrite (IH b Ha Hb E). f_equal.
  apply name_char_no_underscore in Hc, Hc'.
  destruct (Ascii.eqb c "-") eqn:E1, (Ascii.eqb c' "-") eqn:E2.
  - apply Ascii.eqb_eq in E1, E2. congruence.
  - subst c'. rewrite Ascii.eqb_refl in Hc'. discriminate.
  - subst c. rewrite Ascii.eqb_refl in Hc. discriminate.
  - exact Ec.
Qed.

Lemma name_pattern_chars (s : string) :
  Validation.name_pattern s = true ->
  Validation.all_chars Validation.is_name_char s = true.
Proof.
  destruct s as [|c s]; [discriminate|].
  cbn [Validation.name_pattern Validation.all_chars].
  intros H. apply andb_true_iff in H as [H1 H2].
  now rewrite (name_char_no_hyphen_image _ H1), H2.
Qed.

(** X27. Experts with valid names never share a delegation tool: for two
    different names that match the name pattern of [AgentConfig], the tool
    names that [_delegate_directly] looks for are different - although the
    hyphens of a name are replaced by underscores. *)
Theorem delegation_tool_names_distinct (a b : string) :
  Validation.name_pattern a = true ->
  Validation.name_pattern b = true ->
  a <> b ->
  delegation_tool_name a <> delegation_tool_name b.
Proof.
  intros Ha Hb Hne E. apply Hne. unfold delegation_tool_name in E.
  cbn [String.append] in E. injection E as E.
  apply replace_injective; auto using name_pattern_chars.
Qed.

(** ** Instances *)


(** Three entries of [broken_file] fail, with three different errors; the
    error raised is that of the first. *)
Lemma strict_load_rejects_first_invalid_entry_witness :
  Validation.new_AgentConfig (agent_entry "HR Expert" ["salary"] None)
    = Raises (ValidationError ["name"]) /\
  Validation.new_AgentConfig (incomplete_entry "finance-expert")
    = Raises (ValidationError ["url"; "status"]) /\
  load_agents_config Validation.new_AgentConfig broken_file true
    = Raises (ValidationError ["name"]).
Proof.
  split; [reflexivity|]. split; [reflexivity|].
  rewrite (strict_load_rejects_first_invalid_entry
             Validation.new_AgentConfig broken_file).
  reflexivity.
Defined.

Lemma loaded_catalog_is_keyed_by_name_witness :
  exists agents,
    load_agents_config Validation.new_AgentConfig sample_file false
      = Returns agents /\
    NoDup (map fst agents) /\
    map fst agents = ["hr-expert"; "finance-expert"].
Proof.
  eexists. split; [reflexivity|]. split; [|reflexivity].
  apply (loaded_catalog_is_keyed_by_name Validation.new_AgentConfig
           sample_file false).
  reflexivity.
Defined.


Lemma delegation_tool_names_distinct_witness :
  delegation_tool_name "hr-expert" <> delegation_tool_name "finance-expert".
Proof.
  apply (delegation_tool_names_distinct "hr-expert" "finance-expert");
    [reflexivity | reflexivity | discriminate].
Defined.

End LoaderProperties.
